(** * The step pipeline of [docker-qgis/process_projectfile.py]

    A shallow embedding of [process_projectfile]: the argument registry
    [arg_values], the [Step] objects, the [try]/[except]/[finally] block that
    runs them and the feedback document it serialises.  The step callables
    (QGIS) are external: they are functions of their positional arguments and
    of the state of the outside world. *)

From Stdlib Require Import ZArith List Ascii String Lia.
From Stdlib Require OrderedTypeEx.
From stdpp Require Import base option list strings gmap fin_maps pretty relations sorting.

Set Warnings "-register-all,-clear-no-such-hyp".
Local Open Scope string_scope.
Local Open Scope Z_scope.

(** ** Python values *)

(** The values that flow through the pipeline.  [VObject] stands for any
    object that is neither iterable nor known to [json] (a [Path], a
    [QgsProject]). *)
Inductive value : Type :=
| VNone
| VBool (b : bool)
| VInt (z : Z)
| VStr (s : string)
| VList (l : list value)
| VTuple (l : list value)
| VDict (d : list (string * value))
| VObject (id : nat).

(** [iter(v)], as [zip] calls it on line 256: [None] is the [TypeError] of a
    value that is not iterable. *)
Definition py_iter (v : value) : option (list value) :=
  match v with
  | VList l | VTuple l => Some l
  | VStr s => Some (map (fun c => VStr (String c EmptyString)) (list_ascii_of_string s))
  | VDict d => Some (map (fun kv => VStr (fst kv)) d)
  | VNone | VBool _ | VInt _ | VObject _ => None
  end.

(** [zip(names, values)]: stops at the shorter of the two. *)
Fixpoint zip {A B : Type} (xs : list A) (ys : list B) : list (A * B) :=
  match xs, ys with
  | x :: xs', y :: ys' => (x, y) :: zip xs' ys'
  | _, _ => []
  end.

(** ** The domain errors (lines 30-55) *)

Inductive ErrorKind : Type :=
| ProjectFileNotFoundException
| InvalidFileExtensionException
| InvalidXmlFileException
| InvalidQgisFileException
| InvalidLayersException
| FailedThumbnailGenerationException.

Definition dquote : string := String "034"%char EmptyString.
Definition newline : string := String "010"%char EmptyString.

(** The class attribute [message] of each subclass. *)
Definition message (k : ErrorKind) : string :=
  match k with
  | ProjectFileNotFoundException =>
      "Project file " ++ dquote ++ "%(project_filename)s" ++ dquote ++ " does not exist"
  | InvalidFileExtensionException =>
      "Project file " ++ dquote ++ "%(project_filename)s" ++ dquote
      ++ " has unknown file extension " ++ dquote ++ "%(extension)s" ++ dquote
  | InvalidXmlFileException =>
      "Project file " ++ dquote ++ "%(project_filename)s" ++ dquote
      ++ " is an invalid XML document:" ++ newline ++ "%(xml_error)s"
  | InvalidQgisFileException =>
      "Project file " ++ dquote ++ "%(project_filename)s" ++ dquote
      ++ " is invalid QGIS file:" ++ newline ++ "%(error)s"
  | InvalidLayersException =>
      "Project file " ++ dquote ++ "%(project_filename)s" ++ dquote
      ++ " contains invalid layers"
  | FailedThumbnailGenerationException =>
      "Failed to generate project thumbnail:" ++ newline ++ "%(reason)s"
  end.

(** The scanner of a [%(name)s] template. *)
Inductive fmt_state : Type :=
| FText
| FPercent
| FName (acc : string)
| FConv (key : string).

Fixpoint assoc (k : string) (kv : list (string * string)) : option string :=
  match kv with
  | [] => None
  | (k', v) :: rest => if String.eqb k k' then Some v else assoc k rest
  end.

(** [template % fields].  [None] when the template names a field that the
    raise site did not supply, or is malformed. *)
Fixpoint py_format (st : fmt_state) (template : string) (fields : list (string * string))
  : option string :=
  match template with
  | EmptyString => match st with FText => Some EmptyString | _ => None end
  | String c rest =>
      match st with
      | FText =>
          if Ascii.eqb c "%"%char then py_format FPercent rest fields
          else String c <$> py_format FText rest fields
      | FPercent =>
          if Ascii.eqb c "("%char then py_format (FName EmptyString) rest fields
          else if Ascii.eqb c "%"%char then String c <$> py_format FText rest fields
          else None
      | FName acc =>
          if Ascii.eqb c ")"%char then py_format (FConv acc) rest fields
          else py_format (FName (acc ++ String c EmptyString)) rest fields
      | FConv key =>
          if Ascii.eqb c "s"%char then
            match assoc key fields with
            | Some v => String.append v <$> py_format FText rest fields
            | None => None
            end
          else None
      end
  end.

(** Modelled from the spec: the class [BaseException] imported from
    [qfieldcloud.qgis.utils] is not in the source; section 7 gives every
    domain error one shape, a message template plus the named fields supplied
    at the raise site.  A domain error is a kind, its interpolated message
    (what [str(err)] returns) and its fields. *)
Record DomainError : Type := mkDomainError {
  kind : ErrorKind;
  error_message : string;
  details : list (string * string)
}.

(** An exception in flight: one of the imported family, or anything else
    ([KeyError], [TypeError], a fault of the callable). *)
Inductive exn : Type :=
| DomainExn (e : DomainError)
| OtherExn (cls : string) (msg : string).

(** What a callable does when it raises: [raise K(fields)] or any other
    exception. *)
Inductive Raised : Type :=
| RaiseDomain (k : ErrorKind) (fields : list (string * string))
| RaiseOther (cls : string) (msg : string).

(** Modelled from the spec: the constructor of [BaseException] is not in the
    source.  Evaluating [K(fields)] interpolates the template of [K] with the
    fields of the raise site; when the template names a field that the raise
    site omits, the interpolation itself fails and what is raised is not a
    member of the family. *)
Definition raise_stmt (r : Raised) : exn :=
  match r with
  | RaiseDomain k fields =>
      match py_format FText (message k) fields with
      | Some m => DomainExn (mkDomainError k m fields)
      | None => OtherExn "KeyError" "missing field in message template"
      end
  | RaiseOther cls msg => OtherExn cls msg
  end.

(** [str(err)] *)
Definition str_exn (e : exn) : string :=
  match e with
  | DomainExn d => error_message d
  | OtherExn _ msg => msg
  end.

(** ** Steps *)

(** Modelled from the spec: the class [Step] and the context manager
    [logger_context] imported from [qfieldcloud.qgis.utils] are not in the
    source.  Section 4.3 gives a step three stages, [NOT_STARTED] being the
    initial one. *)
Inductive Stage : Type := NOT_STARTED | STARTED | SUCCEEDED.

Definition stage_rank (st : Stage) : nat :=
  match st with NOT_STARTED => 0 | STARTED => 1 | SUCCEEDED => 2 end.

(** Forward order of the state machine [NOT_STARTED -> STARTED -> SUCCEEDED]. *)
Definition stage_le (a b : Stage) : Prop := (stage_rank a <= stage_rank b)%nat.

(** One move of the state machine. *)
Inductive stage_next : Stage -> Stage -> Prop :=
| next_started : stage_next NOT_STARTED STARTED
| next_succeeded : stage_next STARTED SUCCEEDED.

(** The result of calling a step's callable: a value, or an exception with
    the traceback frames below the call. *)
Inductive Outcome : Type :=
| Returns (v : value)
| Raises (r : Raised) (frames : list string).

Inductive result (A E : Type) : Type :=
| Ok (a : A)
| Err (e : E).
Arguments Ok {A E} a.
Arguments Err {A E} e.

(** An exception in flight together with [traceback.format_tb] of its
    traceback, outermost frame first. *)
Record Fault : Type := mkFault {
  fault_exn : exn;
  fault_tb : list string
}.

(** The traceback entry of a line of [process_projectfile] itself. *)
Definition here (line : nat) : string :=
  "  File " ++ dquote ++ "process_projectfile.py" ++ dquote ++ ", line "
  ++ pretty line ++ ", in process_projectfile".

Section Pipeline.

(** The state of everything outside the program that a callable reads or
    changes (files, the QGIS application). *)
Variable W : Type.

Definition Method : Type := list value -> W -> Outcome * W.

Record Step : Type := mkStep {
  name : string;
  arg_names : list string;
  method : Method;
  return_names : list string;
  output_names : list string;
  public_returns : list string;
  stage : Stage;
  outputs : gmap string value
}.

Definition set_stage (st : Stage) (s : Step) : Step :=
  mkStep (name s) (arg_names s) (method s) (return_names s) (output_names s)
         (public_returns s) st (outputs s).

Definition set_outputs (o : gmap string value) (s : Step) : Step :=
  mkStep (name s) (arg_names s) (method s) (return_names s) (output_names s)
         (public_returns s) (stage s) o.

Definition subset_of (xs ys : list string) : bool :=
  forallb (fun x => bool_decide (x ∈ ys)) xs.

(** Modelled from the spec: the constructor of [Step] is not in the source.
    Section 4.1: return names, output names and public returns default to the
    empty list; output names and public returns must each be subsets of the
    return names, and a violation is rejected at construction.  A new step is
    [NOT_STARTED] and has recorded nothing.  The callable is not called here,
    so nothing about its result can be checked. *)
Definition Step_new (name : string) (arg_names : list string) (method : Method)
    (return_names output_names public_returns : list string) : result Step string :=
  if negb (subset_of output_names return_names) then
    Err "output_names is not a subset of return_names"
  else if negb (subset_of public_returns return_names) then
    Err "public_returns is not a subset of return_names"
  else
    Ok (mkStep name arg_names method return_names output_names public_returns
               NOT_STARTED ∅).

(** The list display of lines 219-244: the constructor calls are evaluated
    in order and the first one that raises ends the evaluation. *)
Fixpoint build (calls : list (result Step string)) : result (list Step) string :=
  match calls with
  | [] => Ok []
  | Err e :: _ => Err e
  | Ok s :: rest =>
      match build rest with
      | Ok ss => Ok (s :: ss)
      | Err e => Err e
      end
  end.

(** Modelled from the spec: [logger_context], section 6: entering sets
    [STARTED], a normal exit sets [SUCCEEDED], an exceptional exit leaves the
    stage as it is. *)
Definition logger_enter (s : Step) : Step := set_stage STARTED s.
Definition logger_exit (s : Step) : Step := set_stage SUCCEEDED s.

(** ** One iteration of the loop (lines 248-263) *)

(** Line 249: [[arg_values[arg_name] for arg_name in step.arg_names]];
    [Err n] is [KeyError(n)]. *)
Fixpoint lookup_args (arg_values : gmap string value) (names : list string)
  : result (list value) string :=
  match names with
  | [] => Ok []
  | n :: rest =>
      match arg_values !! n with
      | None => Err n
      | Some v =>
          match lookup_args arg_values rest with
          | Ok vs => Ok (v :: vs)
          | Err k => Err k
          end
      end
  end.

(** Lines 255-257: the dict built from the pairs, a later pair replacing an
    earlier one of the same name. *)
Definition bind_returns (pairs : list (string * value)) : gmap string value :=
  foldl (fun m nv => <[fst nv := snd nv]> m) ∅ pairs.

(** Lines 259-260 and 262-263: [target[n] = return_map[n]] for each name in
    turn.  The second component is the name whose lookup raised [KeyError];
    the writes made before it stay. *)
Fixpoint copy_names (return_map : gmap string value) (names : list string)
    (target : gmap string value) : gmap string value * option string :=
  match names with
  | [] => (target, None)
  | n :: rest =>
      match return_map !! n with
      | None => (target, Some n)
      | Some v => copy_names return_map rest (<[n := v]> target)
      end
  end.

(** Lines 251-253 *)
Definition wrap_returns (return_names : list string) (return_values : value) : value :=
  if (1 <? length return_names)%nat then return_values else VTuple [return_values].

(** Lines 251-257: [return_map]; [None] is the [TypeError] that [zip] raises
    on a value that cannot be iterated. *)
Definition return_map (return_names : list string) (return_values : value)
  : option (gmap string value) :=
  (fun vals => bind_returns (zip return_names vals))
    <$> py_iter (wrap_returns return_names return_values).

Record Exec : Type := mkExec {
  ex_step : Step;
  ex_arg_values : gmap string value;
  ex_world : W;
  ex_fault : option Fault
}.

Definition key_error (line : nat) (n : string) : Fault :=
  mkFault (OtherExn "KeyError" n) [here line].

(** Lines 249-263, the body of the [with] block. *)
Definition step_body (s : Step) (arg_values : gmap string value) (w : W) : Exec :=
  match lookup_args arg_values (arg_names s) with
  | Err n => mkExec s arg_values w (Some (key_error 249 n))
  | Ok args =>
      match method s args w with
      | (Raises r frames, w') =>
          mkExec s arg_values w' (Some (mkFault (raise_stmt r) (here 250 :: frames)))
      | (Returns return_values, w') =>
          match return_map (return_names s) return_values with
          | None =>
              mkExec s arg_values w'
                (Some (mkFault (OtherExn "TypeError" "zip argument #2 must support iteration")
                               [here 256]))
          | Some return_map =>
              match copy_names return_map (output_names s) (outputs s) with
              | (outs, Some n) =>
                  mkExec (set_outputs outs s) arg_values w' (Some (key_error 260 n))
              | (outs, None) =>
                  match copy_names return_map (public_returns s) arg_values with
                  | (arg_values', Some n) =>
                      mkExec (set_outputs outs s) arg_values' w' (Some (key_error 263 n))
                  | (arg_values', None) =>
                      mkExec (set_outputs outs s) arg_values' w' None
                  end
              end
          end
      end
  end.

(** Line 248 with its block: the stage becomes [STARTED] on entry and
    [SUCCEEDED] only when the block ends without an exception. *)
Definition exec_step (s : Step) (arg_values : gmap string value) (w : W) : Exec :=
  let r := step_body (logger_enter s) arg_values w in
  match ex_fault r with
  | None => mkExec (logger_exit (ex_step r)) (ex_arg_values r) (ex_world r) None
  | Some _ => r
  end.

(** ** The loop (line 247) *)

Record Loop : Type := mkLoop {
  lp_steps : list Step;
  lp_arg_values : gmap string value;
  lp_world : W;
  lp_fault : option Fault
}.

(** The first exception leaves the loop; the steps after it are untouched. *)
Fixpoint run_loop (steps : list Step) (arg_values : gmap string value) (w : W) : Loop :=
  match steps with
  | [] => mkLoop [] arg_values w None
  | s :: rest =>
      let r := exec_step s arg_values w in
      match ex_fault r with
      | Some f => mkLoop (ex_step r :: rest) (ex_arg_values r) (ex_world r) (Some f)
      | None =>
          let l := run_loop rest (ex_arg_values r) (ex_world r) in
          mkLoop (ex_step r :: lp_steps l) (lp_arg_values l) (lp_world l) (lp_fault l)
      end
  end.

End Pipeline.

Arguments Step_new {W}.
Arguments build {W}.
Arguments name {W}.
Arguments arg_names {W}.
Arguments method {W}.
Arguments return_names {W}.
Arguments output_names {W}.
Arguments public_returns {W}.
Arguments stage {W}.
Arguments outputs {W}.
Arguments set_stage {W}.
Arguments set_outputs {W}.
Arguments logger_enter {W}.
Arguments logger_exit {W}.
Arguments step_body {W}.
Arguments exec_step {W}.
Arguments run_loop {W}.
Arguments ex_step {W}.
Arguments ex_arg_values {W}.
Arguments ex_world {W}.
Arguments ex_fault {W}.
Arguments lp_steps {W}.
Arguments lp_arg_values {W}.
Arguments lp_world {W}.
Arguments lp_fault {W}.

(** ** The feedback document (lines 213, 265-277) *)

(** One entry of [feedback["steps"]]: the keys [name], [stage], [outputs]. *)
Record StepRecord : Type := mkStepRecord {
  r_name : string;
  r_stage : Stage;
  r_outputs : gmap string value
}.

(** The dict [feedback]: the keys [error] and [error_stack] are present only
    after the [except] clause ran; [steps] is set by the [finally] clause. *)
Record Feedback : Type := mkFeedback {
  error : option string;
  error_stack : option (list string);
  steps : list StepRecord
}.

Definition step_record {W : Type} (s : Step W) : StepRecord :=
  mkStepRecord (name s) (stage s) (outputs s).

(** The state when the [finally] clause has set [feedback["steps"]]:
    [pending] is the exception that the [except] clause did not catch. *)
Record Run (W : Type) : Type := mkRun {
  feedback : Feedback;
  pending : option Fault;
  run_steps : list (Step W);
  run_arg_values : gmap string value;
  run_world : W
}.
Arguments mkRun {W}.
Arguments feedback {W}.
Arguments pending {W}.
Arguments run_steps {W}.
Arguments run_arg_values {W}.
Arguments run_world {W}.

(** Lines 246-277: the loop, the [except BaseException] clause (the class
    imported on line 12, not the builtin) and the assignment of the
    [finally] clause. *)
Definition run {W : Type} (steps : list (Step W)) (arg_values : gmap string value) (w : W)
  : Run W :=
  let l := run_loop steps arg_values w in
  let records := map step_record (lp_steps l) in
  match lp_fault l with
  | None => mkRun (mkFeedback None None records) None (lp_steps l) (lp_arg_values l) (lp_world l)
  | Some f =>
      match fault_exn f with
      | DomainExn e =>
          mkRun (mkFeedback (Some (str_exn (DomainExn e))) (Some (fault_tb f)) records) None
                (lp_steps l) (lp_arg_values l) (lp_world l)
      | OtherExn _ _ =>
          mkRun (mkFeedback None None records) (Some f)
                (lp_steps l) (lp_arg_values l) (lp_world l)
      end
  end.

(** ** [json.dumps(feedback, indent=2, sort_keys=True)] *)

Inductive json : Type :=
| JNull
| JBool (b : bool)
| JNum (z : Z)
| JStr (s : string)
| JArr (items : list json)
| JObj (members : list (string * json)).

Fixpoint insert_member {A : Type} (kv : string * A) (l : list (string * A)) : list (string * A) :=
  match l with
  | [] => [kv]
  | kv' :: rest =>
      if String.ltb (fst kv) (fst kv') then kv :: l else kv' :: insert_member kv rest
  end.

(** [sorted(items)]: by key; the keys of a dict are distinct. *)
Definition sort_members {A : Type} (l : list (string * A)) : list (string * A) :=
  foldr insert_member [] l.

(** What the encoder accepts: [None] is the [TypeError] of an object that is
    not JSON serializable.  Tuples are written as arrays, the members of an
    object in the order of their keys. *)
Fixpoint to_json (v : value) : option json :=
  match v with
  | VNone => Some JNull
  | VBool b => Some (JBool b)
  | VInt z => Some (JNum z)
  | VStr s => Some (JStr s)
  | VList l | VTuple l =>
      JArr <$> (fix items (l : list value) : option (list json) :=
                  match l with
                  | [] => Some []
                  | x :: rest =>
                      match to_json x, items rest with
                      | Some j, Some js => Some (j :: js)
                      | _, _ => None
                      end
                  end) l
  | VDict d =>
      (fun ms => JObj (sort_members ms)) <$>
        (fix members (d : list (string * value)) : option (list (string * json)) :=
           match d with
           | [] => Some []
           | (k, x) :: rest =>
               match to_json x, members rest with
               | Some j, Some js => Some ((k, j) :: js)
               | _, _ => None
               end
           end) d
  | VObject _ => None
  end.

Definition hex_digit (n : nat) : ascii :=
  nth n (list_ascii_of_string "0123456789abcdef") "0"%char.

(** The escapes of [ensure_ascii=True]; a character is a code point below
    256. *)
Definition escape_char (c : ascii) : string :=
  let n := nat_of_ascii c in
  if Ascii.eqb c "034"%char then String "\"%char dquote
  else if Ascii.eqb c "\"%char then "\\"
  else if Ascii.eqb c "010"%char then "\n"
  else if Ascii.eqb c "013"%char then "\r"
  else if Ascii.eqb c "009"%char then "\t"
  else if Ascii.eqb c "008"%char then "\b"
  else if Ascii.eqb c "012"%char then "\f"
  else if ((n <? 32) || (126 <? n))%nat then
    "\u00" ++ String (hex_digit (n / 16)) (String (hex_digit (n mod 16)) EmptyString)
  else String c EmptyString.

Fixpoint escape (s : string) : string :=
  match s with
  | EmptyString => EmptyString
  | String c rest => escape_char c ++ escape rest
  end.

Definition quote (s : string) : string := dquote ++ escape s ++ dquote.

Fixpoint spaces (n : nat) : string :=
  match n with O => EmptyString | S n' => String " "%char (spaces n') end.

(** A line break followed by the indentation of a nesting level (two spaces
    per level). *)
Definition break (level : nat) : string := newline ++ spaces (2 * level).

Fixpoint join (sep : string) (l : list string) : string :=
  match l with
  | [] => EmptyString
  | [x] => x
  | x :: rest => x ++ sep ++ join sep rest
  end.

Fixpoint render (level : nat) (j : json) : string :=
  match j with
  | JNull => "null"
  | JBool true => "true"
  | JBool false => "false"
  | JNum z => pretty z
  | JStr s => quote s
  | JArr [] => "[]"
  | JArr items =>
      "[" ++ break (S level)
      ++ join ("," ++ break (S level)) (map (render (S level)) items)
      ++ break level ++ "]"
  | JObj [] => "{}"
  | JObj members =>
      "{" ++ break (S level)
      ++ join ("," ++ break (S level))
           (map (fun kv => quote (fst kv) ++ ": " ++ render (S level) (snd kv)) members)
      ++ break level ++ "}"
  end.

Definition json_dumps (v : value) : option string := render 0 <$> to_json v.

(** ** [json.dump(feedback, f, indent=2, sort_keys=True)]

    [json.dump] writes the document to the file piece by piece, so that
    when the encoder raises, the pieces before the object it cannot encode
    have been written. *)

(** The pieces of the items of a list or of the members of a dict, with
    their separators, up to the first piece that is not complete. *)
Fixpoint write_pieces (sep : string) (first : bool) (pieces : list (string * bool))
  : string * bool :=
  match pieces with
  | [] => (EmptyString, true)
  | (text, ok) :: rest =>
      let head := (if first then EmptyString else sep) ++ text in
      if ok then
        let (tail, ok') := write_pieces sep false rest in (head ++ tail, ok')
      else (head, false)
  end.

(** The text written for [v] at a nesting level, and whether the encoder
    got to the end of [v]: it stops at the first object it cannot encode,
    after the separator or the key that precedes it. *)
Fixpoint stream (level : nat) (v : value) : string * bool :=
  match v with
  | VNone => ("null", true)
  | VBool true => ("true", true)
  | VBool false => ("false", true)
  | VInt z => (pretty z, true)
  | VStr s => (quote s, true)
  | VList l | VTuple l =>
      match l with
      | [] => ("[]", true)
      | _ :: _ =>
          let (body, ok) :=
            write_pieces ("," ++ break (S level)) true (map (stream (S level)) l) in
          if ok then ("[" ++ break (S level) ++ body ++ break level ++ "]", true)
          else ("[" ++ break (S level) ++ body, false)
      end
  | VDict d =>
      match d with
      | [] => ("{}", true)
      | _ :: _ =>
          let members :=
            map (fun kv => match kv with (k, x) => (k, stream (S level) x) end) d in
          let (body, ok) :=
            write_pieces ("," ++ break (S level)) true
              (map (fun m => (quote (fst m) ++ ": " ++ fst (snd m), snd (snd m)))
                 (sort_members members)) in
          if ok then ("{" ++ break (S level) ++ body ++ break level ++ "}", true)
          else ("{" ++ break (S level) ++ body, false)
      end
  | VObject _ => (EmptyString, false)
  end.

(** ** Writing the document (lines 279-284) *)

Inductive Sink : Type :=
| ToFile (path : string)
| ToStdout.

(** What the program does to the outside: [open(path, "w")], [print(line)],
    a complete serialised document reaching its sink, and the beginning of
    a document left in the file when the encoder raised. *)
Inductive Event : Type :=
| Opened (path : string)
| Printed (line : string)
| Dumped (to : Sink) (text : string)
| Truncated (path : string) (text : string).

(** The complete documents among the events. *)
Fixpoint documents (evs : list Event) : list string :=
  match evs with
  | [] => []
  | Dumped _ text :: rest => text :: documents rest
  | _ :: rest => documents rest
  end.

Record Report (W : Type) : Type := mkReport {
  events : list Event;
  raised : option exn;
  report_run : Run W
}.
Arguments mkReport {W}.
Arguments events {W}.
Arguments raised {W}.
Arguments report_run {W}.

(** The outside of lines 279-284, in a state of the world: each function
    answers [Some] of the class and the message of the exception that the
    call raises, if it raises one. *)
Record Sinks (W : Type) : Type := mkSinks {
  (** [open(feedback_filename, "w")], line 280: an [OSError]
      ([FileNotFoundError], [PermissionError], [IsADirectoryError], ...) *)
  open_feedback : W -> string -> option (string * string);
  (** writing to the open file on line 281 and closing it when the [with]
      block is left: the [OSError] of a device that refuses the text *)
  write_feedback : W -> string -> option (string * string);
  (** [print], lines 283 and 284: the error of a standard output that
      cannot be written *)
  print_feedback : W -> option (string * string)
}.
Arguments mkSinks {W}.
Arguments open_feedback {W}.
Arguments write_feedback {W}.
Arguments print_feedback {W}.

(** [if feedback_filename:] on line 279: the file that line 280 opens.  A
    [Path] is always true; the empty [str] is false, like [None]. *)
Definition feedback_file (feedback_filename : option string) : option string :=
  match feedback_filename with
  | Some path => if String.eqb path EmptyString then None else Some path
  | None => None
  end.

Section Report.

Variable W : Type.

(** The value that [step.stage] holds for each stage: the constants are
    set in [qfieldcloud.qgis.utils], which is not in the source. *)
Variable stage_value : Stage -> value.

(** The sinks of the document. *)
Variable io : Sinks W.

Definition record_value (r : StepRecord) : value :=
  VDict [("name", VStr (r_name r));
         ("stage", stage_value (r_stage r));
         ("outputs", VDict (map_to_list (r_outputs r)))].

Definition feedback_value (fb : Feedback) : value :=
  VDict (match error fb with Some e => [("error", VStr e)] | None => [] end
         ++ match error_stack fb with
            | Some tb => [("error_stack", VList (map VStr tb))]
            | None => []
            end
         ++ [("steps", VList (map record_value (steps fb)))]).

Definition not_serializable : exn :=
  OtherExn "TypeError" "Object is not JSON serializable".

Definition os_error (e : string * string) : exn := OtherExn (fst e) (snd e).

(** The exception that the sink raises, if any, in the state of the world
    that the loop left. *)
Definition sink_error (feedback_filename : option string) (w : W) : option exn :=
  match feedback_file feedback_filename with
  | Some path =>
      match open_feedback io w path with
      | Some e => Some (os_error e)
      | None => os_error <$> write_feedback io w path
      end
  | None => os_error <$> print_feedback io w
  end.

(** Lines 279-284, in the state of the world that the loop left.  A
    feedback file that cannot be opened raises before anything is written;
    one that cannot be written raises when the text is flushed, at the
    latest when the [with] block closes the file, also when the encoder has
    raised before.  When the encoder raises, no complete document has
    reached the sink: the file holds what [json.dump] wrote before, and the
    standard output only the line that line 283 printed, since
    [json.dumps] builds the whole text before line 284 prints it. *)
Definition emit (feedback_filename : option string) (fb : Feedback) (w : W)
  : list Event * option exn :=
  match feedback_file feedback_filename with
  | Some path =>
      match open_feedback io w path with
      | Some e => ([], Some (os_error e))
      | None =>
          match write_feedback io w path with
          | Some e => ([Opened path], Some (os_error e))
          | None =>
              match json_dumps (feedback_value fb) with
              | Some text => ([Opened path; Dumped (ToFile path) text], None)
              | None =>
                  ([Opened path; Truncated path (fst (stream 0 (feedback_value fb)))],
                   Some not_serializable)
              end
          end
      end
  | None =>
      match print_feedback io w with
      | Some e => ([], Some (os_error e))
      | None =>
          match json_dumps (feedback_value fb) with
          | Some text => ([Printed "Feedback:"; Dumped ToStdout text], None)
          | None => ([Printed "Feedback:"], Some not_serializable)
          end
      end
  end.

(** Lines 246-284 on a list of steps: [raised] is the exception that leaves
    the function, one raised inside the [finally] clause replacing the one
    that was propagating. *)
Definition process (steps : list (Step W)) (arg_values : gmap string value)
    (feedback_filename : option string) (w : W) : Report W :=
  let r := run steps arg_values w in
  match emit feedback_filename (feedback r) (run_world r) with
  | (evs, Some e) => mkReport evs (Some e) r
  | (evs, None) => mkReport evs (fault_exn <$> pending r) r
  end.

(** The steps are constructed before the [try] statement is entered: a
    constructor that raises ends the function there. *)
Definition pipeline (calls : list (result (Step W) string))
    (arg_values : gmap string value) (feedback_filename : option string) (w : W)
  : result (Report W) string :=
  match build calls with
  | Err e => Err e
  | Ok steps => Ok (process steps arg_values feedback_filename w)
  end.

(** The four callables of lines 58-205. *)
Variable check_valid_project_file : Method W.
Variable load_project_file : Method W.
Variable check_layer_validity : Method W.
Variable generate_thumbnail : Method W.

(** Lines 219-244 *)
Definition declared_steps : list (result (Step W) string) :=
  [ Step_new "Project Validity Check" ["project_filename"]
      check_valid_project_file [] [] [];
    Step_new "Opening Check" ["project_filename"]
      load_project_file ["project"] [] ["project"];
    Step_new "Layer Validity Check" ["project"]
      check_layer_validity ["layers_summary"] ["layers_summary"] [];
    Step_new "Generate Thumbnail Image" ["project"; "thumbnail_filename"]
      generate_thumbnail [] [] [] ].

Definition process_projectfile (project_filename thumbnail_filename : value)
    (feedback_filename : option string) (w : W) : result (Report W) string :=
  pipeline declared_steps
    (<["thumbnail_filename" := thumbnail_filename]>
       (<["project_filename" := project_filename]> ∅))
    feedback_filename w.

End Report.

Arguments record_value stage_value r : rename.
Arguments feedback_value stage_value fb : rename.
Arguments sink_error {W} io feedback_filename w : rename.
Arguments emit {W} stage_value io feedback_filename fb w : rename.
Arguments process {W} stage_value io steps arg_values feedback_filename w : rename.
Arguments pipeline {W} stage_value io calls arg_values feedback_filename w : rename.
Arguments declared_steps {W}.
Arguments process_projectfile {W}.

(** ** The run as a machine

    The same loop, one stage write at a time: [c_pc] is the index of the
    step the loop is at, [c_inside] tells whether its [with] block has been
    entered. *)
Record Config (W : Type) : Type := mkConfig {
  c_steps : list (Step W);
  c_pc : nat;
  c_inside : bool;
  c_arg_values : gmap string value;
  c_world : W;
  c_fault : option Fault
}.
Arguments mkConfig {W}.
Arguments c_steps {W}.
Arguments c_pc {W}.
Arguments c_inside {W}.
Arguments c_arg_values {W}.
Arguments c_world {W}.
Arguments c_fault {W}.

Definition initial {W : Type} (steps : list (Step W)) (arg_values : gmap string value) (w : W)
  : Config W :=
  mkConfig steps 0 false arg_values w None.

(** One move: entering the block of the current step, or running its body
    and leaving the block.  [None] when the loop is over or an exception has
    left it. *)
Definition advance {W : Type} (c : Config W) : option (Config W) :=
  match c_fault c with
  | Some _ => None
  | None =>
      match c_steps c !! c_pc c with
      | None => None
      | Some s =>
          if c_inside c then
            let r := step_body s (c_arg_values c) (c_world c) in
            match ex_fault r with
            | None =>
                Some (mkConfig (<[c_pc c := logger_exit (ex_step r)]> (c_steps c))
                               (S (c_pc c)) false (ex_arg_values r) (ex_world r) None)
            | Some f =>
                Some (mkConfig (<[c_pc c := ex_step r]> (c_steps c))
                               (c_pc c) true (ex_arg_values r) (ex_world r) (Some f))
            end
          else
            Some (mkConfig (<[c_pc c := logger_enter s]> (c_steps c))
                           (c_pc c) true (c_arg_values c) (c_world c) None)
      end
  end.

Definition moves {W : Type} (c c' : Config W) : Prop := advance c = Some c'.

Definition stages {W : Type} (l : list (Step W)) : list Stage := map stage l.

(** ** Notions the properties are stated with *)

(** A step as its constructor leaves it. *)
Definition fresh {W : Type} (s : Step W) : Prop :=
  stage s = NOT_STARTED /\ outputs s = ∅.

(** Every step, run in the state that its predecessors left, ends without
    an exception. *)
Fixpoint no_step_fails {W : Type} (steps : list (Step W))
    (arg_values : gmap string value) (w : W) : Prop :=
  match steps with
  | [] => True
  | s :: rest =>
      let r := exec_step s arg_values w in
      ex_fault r = None /\ no_step_fails rest (ex_arg_values r) (ex_world r)
  end.



(** A value that [json] can encode. *)
Definition serializable (v : value) : Prop := is_Some (to_json v).

(** The encoder on the items of a list and on the members of a dict, as
    [to_json] runs it. *)
Fixpoint encode_items (l : list value) : option (list json) :=
  match l with
  | [] => Some []
  | x :: rest =>
      match to_json x, encode_items rest with
      | Some j, Some js => Some (j :: js)
      | _, _ => None
      end
  end.

Fixpoint encode_members (d : list (string * value)) : option (list (string * json)) :=
  match d with
  | [] => Some []
  | (k, x) :: rest =>
      match to_json x, encode_members rest with
      | Some j, Some js => Some ((k, j) :: js)
      | _, _ => None
      end
  end.

(** Every value that the steps have recorded can be encoded. *)
Definition outputs_serializable {W : Type} (steps : list (Step W)) : Prop :=
  Forall (fun s => map_Forall (fun _ v => serializable v) (outputs s)) steps.

(** The stage that the step at index [i] must have when the loop is at
    index [pc], inside its block or not. *)
Definition expected (pc : nat) (inside : bool) (i : nat) : Stage :=
  if (i <? pc)%nat then SUCCEEDED
  else if (i =? pc)%nat && inside then STARTED
  else NOT_STARTED.

Definition consistent {W : Type} (c : Config W) : Prop :=
  forall i x, c_steps c !! i = Some x -> stage x = expected (c_pc c) (c_inside c) i.

(** The order in which the members of an object are written: the key of
    the second is not below the key of the first. *)
Definition key_le {A : Type} (a b : string * A) : Prop :=
  String.ltb (fst b) (fst a) = false.

(** ** The layout of the document

    The document as sections 4.3 and 6 of the specification describe it,
    written out: the keys of the feedback and of every step record in
    alphabetical order, two spaces per nesting level, one member or item
    per line. *)







(** ** Sample pipelines *)

(** Sinks that always work. *)
Definition working_sinks {W : Type} : Sinks W :=
  mkSinks (fun _ _ => None) (fun _ _ => None) (fun _ => None).

(** The directory [/missing] does not exist and the device [/dev/full]
    takes no text. *)
Definition sample_sinks {W : Type} : Sinks W :=
  mkSinks
    (fun _ path =>
       if String.prefix "/missing/" path
       then Some ("FileNotFoundError", "[Errno 2] No such file or directory")
       else None)
    (fun _ path =>
       if String.eqb path "/dev/full"
       then Some ("OSError", "[Errno 28] No space left on device")
       else None)
    (fun _ => None).


(** Stages written as the integers 0, 1, 2. *)
Definition stage_as_int (st : Stage) : value := VInt (Z.of_nat (stage_rank st)).

(** The step that the constructor returns when it accepts its arguments. *)
Definition new_step {W : Type} (name : string) (arg_names : list string) (method : Method W)
    (return_names output_names public_returns : list string) : Step W :=
  mkStep W name arg_names method return_names output_names public_returns NOT_STARTED ∅.

(** A callable that returns [v] whatever it is given. *)
Definition returning {W : Type} (v : value) : Method W :=
  fun _ w => (Returns v, w).

(** A callable that raises. *)
Definition raising {W : Type} (r : Raised) : Method W :=
  fun _ w => (Raises r ["  File callable.py, line 1, in callable"], w).


Definition sample_args : gmap string value :=
  <["thumbnail_filename" := VObject 2]> (<["project_filename" := VObject 1]> ∅).


(** Scenario 1 of the spec: the first step publishes [project], the second
    consumes it. *)
Definition scenario1 : list (Step unit) :=
  [ new_step "Opening Check" ["project_filename"] (returning (VObject 7))
      ["project"] [] ["project"];
    new_step "Generate Thumbnail Image" ["project"; "thumbnail_filename"]
      (returning VNone) [] [] [] ].

(** Scenario 2 of the spec: the second of three steps raises the not-found
    error for [/x.qgs]. *)
Definition validity_check : Step unit :=
  new_step "Project Validity Check" ["project_filename"] (returning VNone) [] [] [].

Definition failing_open : Step unit :=
  new_step "Opening Check" ["project_filename"]
    (raising (RaiseDomain ProjectFileNotFoundException [("project_filename", "/x.qgs")]))
    ["project"] [] ["project"].

Definition layer_check : Step unit :=
  new_step "Layer Validity Check" ["project"] (returning (VList []))
    ["layers_summary"] ["layers_summary"] [].

Definition scenario2 : list (Step unit) := [validity_check; failing_open; layer_check].

(** A step records a summary, the next one fails outside the family. *)
Definition fault_steps : list (Step unit) :=
  [ new_step "Layer Validity Check" []
      (returning (VList [VDict [("id", VStr "roads"); ("is_valid", VBool true)]]))
      ["layers_summary"] ["layers_summary"] [];
    new_step "Generate Thumbnail Image" [] (raising (RaiseOther "NameError" "project_filename"))
      [] [] [] ].

(** Callables for the steps declared on lines 219-244: the layer summary of
    [path_layers] holds an object (a [Path]) under [filename]. *)
Definition ok_check : Method unit := returning VNone.

Definition ok_load : Method unit := returning (VObject 7).

Definition path_layers : Method unit :=
  returning (VList [VDict [("id", VStr "roads"); ("is_valid", VBool true);
                           ("filename", VObject 3)]]).

Definition ok_thumbnail : Method unit := returning VNone.

Definition bad_thumbnail : Method unit := raising (RaiseOther "RuntimeError" "boom").

(** Two return names, a result of three values. *)
Definition mismatch_step : Step unit :=
  new_step "Pair" [] (returning (VTuple [VInt 1; VInt 2; VInt 3])) ["a"; "b"] ["a"] ["b"].

(** [project] is published, replaced by a later step, then consumed. *)
Definition first_open : Step unit :=
  new_step "First" [] (returning (VStr "/x.qgs")) ["project"] [] ["project"].

Definition second_open : Step unit :=
  new_step "Second" ["project"] (returning (VObject 7)) ["project"] [] ["project"].

Definition between : Step unit :=
  new_step "Between" [] (returning (VInt 5)) ["count"] ["count"] ["count"].

Definition last_step : Step unit :=
  new_step "Last" ["count"; "project"] (returning VNone) [] [] [].


(** ** The fields of a message template *)

(** The fields that a template names, in the order of their use; [None]
    when the template is malformed.  The scanner is the one of [py_format]. *)
Fixpoint template_fields (st : fmt_state) (template : string) : option (list string) :=
  match template with
  | EmptyString => match st with FText => Some [] | _ => None end
  | String c rest =>
      match st with
      | FText =>
          if Ascii.eqb c "%"%char then template_fields FPercent rest
          else template_fields FText rest
      | FPercent =>
          if Ascii.eqb c "("%char then template_fields (FName EmptyString) rest
          else if Ascii.eqb c "%"%char then template_fields FText rest
          else None
      | FName acc =>
          if Ascii.eqb c ")"%char then template_fields (FConv acc) rest
          else template_fields (FName (acc ++ String c EmptyString)) rest
      | FConv key =>
          if Ascii.eqb c "s"%char then cons key <$> template_fields FText rest
          else None
      end
  end.

(** The fields that the template of each class names (lines 30-55). *)
Definition required_fields (k : ErrorKind) : list string :=
  match k with
  | ProjectFileNotFoundException => ["project_filename"]
  | InvalidFileExtensionException => ["project_filename"; "extension"]
  | InvalidXmlFileException => ["project_filename"; "xml_error"]
  | InvalidQgisFileException => ["project_filename"; "error"]
  | InvalidLayersException => ["project_filename"]
  | FailedThumbnailGenerationException => ["reason"]
  end.

(** ** The callables (lines 58-205) *)

(** The truth value of a [str]. *)
Definition nonempty (s : string) : bool := negb (String.eqb s EmptyString).

(** The traceback entry of a line of one of the callables. *)
Definition frame_in (function : string) (line : nat) : string :=
  "  File " ++ dquote ++ "process_projectfile.py" ++ dquote ++ ", line "
  ++ pretty line ++ ", in " ++ function.

(** What QGIS tells about the data provider of a layer: [uri().uri()],
    whether [error().messageList()] is non-empty, [error().summary()],
    [error().message()], and [service()], [host()], [port()] of its uri. *)
Record Provider : Type := mkProvider {
  p_uri : string;
  p_has_messages : bool;
  p_summary : string;
  p_message : string;
  p_service : string;
  p_host : string;
  p_port : string
}.

(** What QGIS and [get_layer_filename] tell about a layer: [name()],
    [isValid()], whether [error().messageList()] is non-empty,
    [error().summary()], [error().message()], the file name, and
    [dataProvider()], which is [None] for a layer without one. *)
Record Layer : Type := mkLayer {
  l_name : string;
  l_is_valid : bool;
  l_has_messages : bool;
  l_summary : string;
  l_message : string;
  l_filename : value;
  l_provider : option Provider
}.

(** Everything the callables use that is not in the file: the file system,
    the XML parser, QGIS, the builtins [int] and [str], and the helpers
    [is_localhost] and [has_ping] of [qfieldcloud.qgis.utils]. *)
Record Host (W : Type) : Type := mkHost {
  (** [str(v)] *)
  py_str : value -> string;
  (** [int(s)]; [None] is [ValueError] *)
  py_int : string -> option Z;
  (** whether a value is a [Path] *)
  is_path : value -> bool;
  (** [Path.exists()]: an error is the class and the message of the
      [OSError] that it lets through ([PermissionError], ...) *)
  path_exists : W -> string -> result bool (string * string);
  (** [Path.suffix] *)
  path_suffix : string -> string;
  (** [open(path)], line 66: [Some] is the class and the message of what it
      raises ([IsADirectoryError], [PermissionError], ...) *)
  open_error : W -> string -> option (string * string);
  (** [f.read()], line 67: an error is the class and the message of what it
      raises ([UnicodeDecodeError], ...) *)
  read_text : W -> string -> result string (string * string);
  (** [ElementTree.fromstring(text)]: [Some err] is [ParseError], [err] its
      [str] *)
  xml_error : string -> option string;
  (** [start_app()] and [QgsProject.instance().read(path)] *)
  project_read : W -> string -> bool * W;
  (** [QgsProject.instance()] *)
  project_instance : W -> value;
  (** [str(project.error())] *)
  project_error : W -> string;
  (** [project.mapLayers().values()]; [None] when the value is not a
      project *)
  map_layers : W -> value -> option (list Layer);
  is_localhost : string -> option Z -> bool;
  has_ping : string -> bool;
  (** lines 167-174: whether [file.open] succeeded and the error text of
      [doc.setContent]; [None] when the value is not a project *)
  dom_content : W -> value -> option (bool * string);
  (** lines 180-200: the rendering job, which may write the thumbnail *)
  render_thumbnail : W -> value -> string -> W;
  (** the sinks of the feedback document, lines 279-284 *)
  host_sinks : Sinks W
}.
Arguments py_str {W}.
Arguments py_int {W}.
Arguments is_path {W}.
Arguments path_exists {W}.
Arguments path_suffix {W}.
Arguments open_error {W}.
Arguments read_text {W}.
Arguments xml_error {W}.
Arguments project_read {W}.
Arguments project_instance {W}.
Arguments project_error {W}.
Arguments map_layers {W}.
Arguments is_localhost {W}.
Arguments has_ping {W}.
Arguments dom_content {W}.
Arguments render_thumbnail {W}.
Arguments host_sinks {W}.

(** Lines 58-75, on the path that [project_filename] denotes. *)
Definition check_valid_project_file {W : Type} (h : Host W) (w : W)
    (project_filename : string) : Outcome :=
  match path_exists h w project_filename with
  | Err (cls, msg) => Raises (RaiseOther cls msg) [frame_in "check_valid_project_file" 61]
  | Ok false =>
      Raises (RaiseDomain ProjectFileNotFoundException
                [("project_filename", project_filename)])
             [frame_in "check_valid_project_file" 62]
  | Ok true =>
      if String.eqb (path_suffix h project_filename) ".qgs" then
        match open_error h w project_filename with
        | Some (cls, msg) =>
            Raises (RaiseOther cls msg) [frame_in "check_valid_project_file" 66]
        | None =>
            match read_text h w project_filename with
            | Err (cls, msg) =>
                Raises (RaiseOther cls msg) [frame_in "check_valid_project_file" 67]
            | Ok text =>
                match xml_error h text with
                | Some err =>
                    Raises (RaiseDomain InvalidXmlFileException
                              [("project_filename", project_filename); ("xml_error", err)])
                           [frame_in "check_valid_project_file" 69]
                | None => Returns VNone
                end
            end
        end
      else if negb (String.eqb (path_suffix h project_filename) ".qgz") then
        Raises (RaiseDomain InvalidFileExtensionException
                  [("project_filename", project_filename);
                   ("extension", path_suffix h project_filename)])
               [frame_in "check_valid_project_file" 73]
      else Returns VNone
  end.

(** Lines 78-89 *)
Definition load_project_file {W : Type} (h : Host W) (w : W) (project_filename : value)
  : Outcome * W :=
  match project_read h w (py_str h project_filename) with
  | (true, w') => (Returns (project_instance h w'), w')
  | (false, w') =>
      (Raises (RaiseDomain InvalidXmlFileException
                 [("project_filename", py_str h project_filename);
                  ("error", project_error h w')])
              [frame_in "load_project_file" 85], w')
  end.

(** Lines 100-110 with the assignments of lines 122-148: the dict of a
    layer.  The dict that line 111 appends is the one that the later lines
    write to, so the summary holds its final state. *)
Definition layer_data (l : Layer) (datasource : string)
    (provider_error_summary provider_error_message : value) : value :=
  VDict [("id", VStr (l_name l));
         ("name", VStr (l_name l));
         ("is_valid", VBool (l_is_valid l));
         ("datasource", VStr datasource);
         ("error_summary", VStr (if l_has_messages l then l_summary l else EmptyString));
         ("error_message", VStr (l_message l));
         ("filename", l_filename l);
         ("provider_error_summary", provider_error_summary);
         ("provider_error_message", provider_error_message)].

(** An exception outside the family raised inside a callable: its class,
    its message and the line that raised it. *)
Record Trouble : Type := mkTrouble {
  t_class : string;
  t_message : string;
  t_line : nat
}.

(** Lines 136-141: [int(port) if port else None] *)
Definition uri_port {W : Type} (h : Host W) (port : string)
  : result (option Z) Trouble :=
  if nonempty port then
    match py_int h port with
    | Some n => Ok (Some n)
    | None => Err (mkTrouble "ValueError" "invalid literal for int() with base 10" 138)
    end
  else Ok None.

(** Lines 120-145: the summary of the provider error of an invalid layer. *)
Definition provider_error_summary {W : Type} (h : Host W) (p : Provider)
  : result string Trouble :=
  let summary := if p_has_messages p then p_summary p else EmptyString in
  if nonempty summary then Ok summary
  else
    let summary' :=
      if nonempty (p_service p)
      then "Unable to connect to service " ++ dquote ++ p_service p ++ dquote
      else summary in
    match uri_port h (p_port p) with
    | Err e => Err e
    | Ok port =>
        if nonempty (p_host p) && (is_localhost h (p_host p) port || has_ping h (p_host p))
        then Ok ("Unable to connect to host " ++ dquote ++ p_host p ++ dquote)
        else Ok summary'
    end.

(** Lines 99-148, one layer.  Line 104 calls [uri()] on what
    [dataProvider()] returned; line 117 asks for the provider again. *)
Definition summarize_layer {W : Type} (h : Host W) (l : Layer)
  : result value Trouble :=
  match l_provider l with
  | None => Err (mkTrouble "AttributeError" "'NoneType' object has no attribute 'uri'" 104)
  | Some p =>
      if l_is_valid l then Ok (layer_data l (p_uri p) VNone VNone)
      else
        match l_provider l with
        | Some data_provider =>
            match provider_error_summary h data_provider with
            | Ok s => Ok (layer_data l (p_uri p) (VStr s) (VStr (p_message data_provider)))
            | Err e => Err e
            end
        | None =>
            Ok (layer_data l (p_uri p) (VStr "No data provider available") VNone)
        end
  end.

(** Lines 95-148: the summary and [has_invalid_layers]. *)
Fixpoint summarize_layers {W : Type} (h : Host W) (layers : list Layer)
  : result (list value * bool) Trouble :=
  match layers with
  | [] => Ok ([], false)
  | l :: rest =>
      match summarize_layer h l with
      | Err e => Err e
      | Ok d =>
          match summarize_layers h rest with
          | Err e => Err e
          | Ok (ds, invalid) => Ok (d :: ds, negb (l_is_valid l) || invalid)
          end
      end
  end.

(** Lines 92-153, on the layers of the project. *)
Definition check_layer_validity {W : Type} (h : Host W) (layers : list Layer) : Outcome :=
  match summarize_layers h layers with
  | Err e =>
      Raises (RaiseOther (t_class e) (t_message e))
             [frame_in "check_layer_validity" (t_line e)]
  | Ok (layers_summary, true) =>
      Raises (RaiseDomain InvalidLayersException
                [("layers_summary", py_str h (VList layers_summary))])
             [frame_in "check_layer_validity" 151]
  | Ok (layers_summary, false) => Returns (VList layers_summary)
  end.

(** The name [project_filename] as [generate_thumbnail] sees it: it is
    neither a parameter nor a local of the function, and the module binds
    it only on line 290, when the file runs as a script.  The [raise]
    statement starts on [line] and reads the name on the line after. *)
Definition raise_naming_project {W : Type} (h : Host W) (global : option value)
    (k : ErrorKind) (fields : list (string * string)) (line : nat) : Outcome :=
  match global with
  | None =>
      Raises (RaiseOther "NameError" "name 'project_filename' is not defined")
             [frame_in "generate_thumbnail" (S line)]
  | Some project_filename =>
      Raises (RaiseDomain k (("project_filename", py_str h project_filename) :: fields))
             [frame_in "generate_thumbnail" line]
  end.

(** What [Path(v)] accepts: a [str] or a [Path]. *)
Definition path_like {W : Type} (h : Host W) (v : value) : bool :=
  match v with
  | VStr _ => true
  | _ => is_path h v
  end.

(** Lines 156-205 *)
Definition generate_thumbnail {W : Type} (h : Host W) (global : option value) (w : W)
    (project thumbnail_filename : value) : Outcome * W :=
  match dom_content h w project with
  | None =>
      (Raises (RaiseOther "AttributeError" "layerTreeRoot")
              [frame_in "generate_thumbnail" 167], w)
  | Some (opened, error) =>
      if opened && nonempty error then
        (raise_naming_project h global InvalidXmlFileException [("error", error)] 176, w)
      else
        let w' := render_thumbnail h w project (py_str h thumbnail_filename) in
        if negb (path_like h thumbnail_filename) then
          (Raises (RaiseOther "TypeError" "expected str, bytes or os.PathLike object")
                  [frame_in "generate_thumbnail" 202], w')
        else
          match path_exists h w' (py_str h thumbnail_filename) with
          | Err (cls, msg) =>
              (Raises (RaiseOther cls msg) [frame_in "generate_thumbnail" 202], w')
          | Ok false =>
              (raise_naming_project h global FailedThumbnailGenerationException
                 [("reason", "File does not exist.")] 203, w')
          | Ok true => (Returns VNone, w')
          end
  end.

(** The callables as the loop calls them, with the positional arguments of
    line 250: a wrong number of arguments is a [TypeError] of the call. *)
Definition arity_error : Outcome :=
  Raises (RaiseOther "TypeError" "wrong number of positional arguments") [].

Definition check_valid_project_file_method {W : Type} (h : Host W) : Method W :=
  fun args w =>
    match args with
    | [project_filename] =>
        if is_path h project_filename
        then (check_valid_project_file h w (py_str h project_filename), w)
        else (Raises (RaiseOther "AttributeError" "exists")
                     [frame_in "check_valid_project_file" 61], w)
    | _ => (arity_error, w)
    end.

Definition load_project_file_method {W : Type} (h : Host W) : Method W :=
  fun args w =>
    match args with
    | [project_filename] => load_project_file h w project_filename
    | _ => (arity_error, w)
    end.

Definition check_layer_validity_method {W : Type} (h : Host W) : Method W :=
  fun args w =>
    match args with
    | [project] =>
        match map_layers h w project with
        | Some layers => (check_layer_validity h layers, w)
        | None => (Raises (RaiseOther "AttributeError" "mapLayers")
                          [frame_in "check_layer_validity" 98], w)
        end
    | _ => (arity_error, w)
    end.

Definition generate_thumbnail_method {W : Type} (h : Host W) (global : option value)
  : Method W :=
  fun args w =>
    match args with
    | [project; thumbnail_filename] =>
        generate_thumbnail h global w project thumbnail_filename
    | _ => (arity_error, w)
    end.

(** [process_projectfile] with its own callables: [global] is the module
    variable [project_filename], unbound when the module is imported. *)
Definition process_projectfile_qgis {W : Type} (h : Host W) (stage_value : Stage -> value)
    (global : option value) (project_filename thumbnail_filename : value)
    (feedback_filename : option string) (w : W) : result (Report W) string :=
  process_projectfile stage_value (host_sinks h)
    (check_valid_project_file_method h) (load_project_file_method h)
    (check_layer_validity_method h) (generate_thumbnail_method h global)
    project_filename thumbnail_filename feedback_filename w.

(** A step whose callable only ever returns, under the output names of the
    step, values that [json] can encode. *)
Definition returns_serializable {W : Type} (s : Step W) : Prop :=
  forall args w rv w' rm n v,
    method s args w = (Returns rv, w') ->
    return_map (return_names s) rv = Some rm ->
    n ∈ output_names s ->
    rm !! n = Some v ->
    serializable v.

(** The registry of line 215. *)
Definition initial_arguments (project_filename thumbnail_filename : value)
  : gmap string value :=
  <["thumbnail_filename" := thumbnail_filename]>
    (<["project_filename" := project_filename]> ∅).


(** ** A sample host *)

(** The state of the world: the paths that exist. *)
Definition Disk : Type := list string.

(** [str] of the sample values: [Path] objects are numbered. *)
Definition sample_str (v : value) : string :=
  match v with
  | VStr s => s
  | VObject 1 => "/data/project.qgs"
  | VObject 2 => "/tmp/thumbnail.png"
  | VObject 3 => "/data/project.qgz"
  | VObject 4 => "/data/notes.txt"
  | VList _ => "[...]"
  | _ => "<object>"
  end.

(** [int] on the two port texts of the samples. *)
Definition sample_int (s : string) : option Z :=
  if String.eqb s "5432" then Some 5432
  else if String.eqb s "80" then Some 80
  else None.

(** The objects 1 to 4 are paths. *)
Definition sample_is_path (v : value) : bool :=
  match v with
  | VObject n => (1 <=? n)%nat && (n <=? 4)%nat
  | _ => false
  end.

(** The text from the last dot on. *)
Fixpoint sample_suffix (p : string) : string :=
  match p with
  | EmptyString => EmptyString
  | String c rest =>
      match sample_suffix rest with
      | EmptyString => if Ascii.eqb c "."%char then p else EmptyString
      | found => found
      end
  end.

Definition sample_exists (w : Disk) (p : string) : bool :=
  existsb (String.eqb p) w.

(** Nothing below [/locked] can be looked at or written. *)
Definition sample_locked (p : string) : option (string * string) :=
  if String.prefix "/locked/" p
  then Some ("PermissionError", "[Errno 13] Permission denied")
  else None.

Definition sample_path_exists (w : Disk) (p : string) : result bool (string * string) :=
  match sample_locked p with
  | Some e => Err e
  | None => Ok (sample_exists w p)
  end.

(** The parser accepts one text only. *)
Definition sample_xml_error (text : string) : option string :=
  if String.eqb text "<qgis/>" then None
  else Some "unclosed token: line 1, column 0".

Definition roads_provider : Provider :=
  mkProvider "/data/roads.gpkg" false EmptyString EmptyString EmptyString EmptyString
    EmptyString.

(** A valid layer. *)
Definition roads : Layer :=
  mkLayer "roads" true false EmptyString EmptyString (VStr "roads.gpkg")
    (Some roads_provider).

Definition parcels_provider : Provider :=
  mkProvider "service='gis' host=localhost port=5432" false EmptyString
    "connection refused" "gis" "localhost" "5432".

(** An invalid layer of a database on this machine. *)
Definition parcels : Layer :=
  mkLayer "parcels" false true "Layer is not valid" "cannot connect" VNone
    (Some parcels_provider).

(** An invalid layer whose uri has a port that is not a number. *)
Definition rivers : Layer :=
  mkLayer "rivers" false false EmptyString EmptyString VNone
    (Some (mkProvider "host=db port=54x2" true EmptyString "no route" "gis" "db" "54x2")).

(** A layer without a data provider. *)
Definition orphan : Layer :=
  mkLayer "orphan" false false EmptyString EmptyString VNone None.

(** The projects of the samples, by number. *)
Definition sample_layers (v : value) : option (list Layer) :=
  match v with
  | VObject 7 => Some [roads]
  | VObject 8 => Some [roads; parcels]
  | _ => None
  end.

(** A host whose files all hold [content] and whose rendering job writes
    the thumbnail when [writes] is set. *)
Definition sample_host (content : string) (writes : bool) : Host Disk :=
  mkHost Disk
    sample_str
    sample_int
    sample_is_path
    sample_path_exists
    sample_suffix
    (fun _ p => if String.eqb p "/data" then Some ("IsADirectoryError", "/data") else None)
    (fun _ _ => Ok content)
    sample_xml_error
    (fun w p => (sample_exists w p, w))
    (fun _ => VObject 7)
    (fun _ => "Unable to open the project")
    (fun _ v => sample_layers v)
    (fun host _ => String.eqb host "localhost")
    (fun _ => false)
    (fun _ v => match sample_layers v with
                | Some _ => Some (true, EmptyString)
                | None => None
                end)
    (fun w _ p => if writes then p :: w else w)
    (mkSinks
       (fun _ p => sample_locked p)
       (fun _ p =>
          if String.eqb p "/dev/full"
          then Some ("OSError", "[Errno 28] No space left on device")
          else None)
       (fun _ => None)).

(** Two return names, a result that cannot be iterated. *)
Definition scalar_step : Step unit :=
  new_step "Scalar" [] (returning (VInt 5)) ["a"; "b"] ["a"] ["b"].

(** Two return names that are both outputs, a result of one value. *)
Definition short_step : Step unit :=
  new_step "Short" [] (returning (VTuple [VInt 1])) ["a"; "b"] ["a"; "b"] [].


(** The steps of lines 219-244 with the callables of the file, as the
    constructor leaves them. *)
Definition qgis_steps {W : Type} (h : Host W) (global : option value) : list (Step W) :=
  [ new_step "Project Validity Check" ["project_filename"]
      (check_valid_project_file_method h) [] [] [];
    new_step "Opening Check" ["project_filename"]
      (load_project_file_method h) ["project"] [] ["project"];
    new_step "Layer Validity Check" ["project"]
      (check_layer_validity_method h) ["layers_summary"] ["layers_summary"] [];
    new_step "Generate Thumbnail Image" ["project"; "thumbnail_filename"]
      (generate_thumbnail_method h global) [] [] [] ].

(** * Properties *)

(** ** The message of a domain error *)

Lemma py_format_text_head (c : ascii) (rest : string) (fields : list (string * string))
    (m : string) :
  Ascii.eqb c "%"%char = false ->
  py_format FText (String c rest) fields = Some m ->
  m <> EmptyString.
Proof.
  intros Hc H. cbn [py_format] in H. rewrite Hc in H.
  destruct (py_format FText rest fields) as [m'|]; cbn in H; [|discriminate].
  injection H as <-. discriminate.
Qed.

Lemma message_head (k : ErrorKind) :
  exists c rest, message k = String c rest /\ Ascii.eqb c "%"%char = false.
Proof.
  destruct k; eexists _, _; (split; [vm_compute; reflexivity | reflexivity]).
Qed.

(** Every template of lines 30-55 starts with literal text, so an
    interpolated message is never empty. *)
Lemma py_format_message_nonempty (k : ErrorKind) (fields : list (string * string))
    (m : string) :
  py_format FText (message k) fields = Some m -> m <> EmptyString.
Proof.
  destruct (message_head k) as (c & rest & -> & Hc). by apply py_format_text_head.
Qed.

Lemma raise_stmt_domain (r : Raised) (e : DomainError) :
  raise_stmt r = DomainExn e -> error_message e <> EmptyString.
Proof.
  destruct r as [k fields|cls msg]; cbn; [|discriminate].
  destruct (py_format FText (message k) fields) as [m|] eqn:Hm; [|discriminate].
  intros [= <-]. cbn. by eapply py_format_message_nonempty.
Qed.

Section Properties.

Variable W : Type.

Implicit Types (s : Step W) (steps : list (Step W)).
Implicit Types (arg_values : gmap string value) (w : W).

(** ** One step *)

Lemma set_outputs_id s : set_outputs (outputs s) s = s.
Proof. by destruct s. Qed.

(** The body of the block writes nothing of a step but its outputs. *)
Lemma step_body_shape s arg_values w :
  exists o, ex_step (step_body s arg_values w) = set_outputs o s.
Proof.
  unfold step_body.
  destruct (lookup_args arg_values (arg_names s)) as [args|n]; cbn;
    [|exists (outputs s); by rewrite set_outputs_id].
  destruct (method s args w) as [[rv|r frames] w']; cbn;
    [|exists (outputs s); by rewrite set_outputs_id].
  destruct (return_map (return_names s) rv) as [rm|]; cbn;
    [|exists (outputs s); by rewrite set_outputs_id].
  destruct (copy_names rm (output_names s) (outputs s)) as [outs [n|]]; cbn; [by eexists|].
  destruct (copy_names rm (public_returns s) arg_values) as [reg [n|]]; cbn; by eexists.
Qed.

Lemma exec_step_shape s arg_values w :
  exists o, ex_step (exec_step s arg_values w)
            = set_outputs o
                (set_stage (match ex_fault (exec_step s arg_values w) with
                            | Some _ => STARTED
                            | None => SUCCEEDED
                            end) s).
Proof.
  unfold exec_step.
  destruct (step_body_shape (logger_enter s) arg_values w) as [o Ho].
  destruct (ex_fault (step_body (logger_enter s) arg_values w)) as [f|] eqn:Hf; cbn.
  - rewrite Hf, Ho. by exists o.
  - rewrite Ho. by exists o.
Qed.

Lemma exec_step_name s arg_values w : name (ex_step (exec_step s arg_values w)) = name s.
Proof. destruct (exec_step_shape s arg_values w) as [o ->]. done. Qed.

Lemma exec_step_stage_ok s arg_values w :
  ex_fault (exec_step s arg_values w) = None ->
  stage (ex_step (exec_step s arg_values w)) = SUCCEEDED.
Proof. intros H. destruct (exec_step_shape s arg_values w) as [o ->]. by rewrite H. Qed.

Lemma exec_step_stage_fault s arg_values w f :
  ex_fault (exec_step s arg_values w) = Some f ->
  stage (ex_step (exec_step s arg_values w)) = STARTED.
Proof. intros H. destruct (exec_step_shape s arg_values w) as [o ->]. by rewrite H. Qed.

Lemma exec_step_fault_body s arg_values w f :
  ex_fault (exec_step s arg_values w) = Some f ->
  ex_fault (step_body (logger_enter s) arg_values w) = Some f.
Proof.
  unfold exec_step.
  destruct (ex_fault (step_body (logger_enter s) arg_values w)) eqn:E; cbn; [|discriminate].
  by rewrite E.
Qed.

(** A fault of the imported family can only come out of the callable: its
    message is not empty and its traceback starts at line 250. *)
Lemma step_body_domain_fault s arg_values w f e :
  ex_fault (step_body s arg_values w) = Some f ->
  fault_exn f = DomainExn e ->
  error_message e <> EmptyString /\ exists frames, fault_tb f = here 250 :: frames.
Proof.
  unfold step_body.
  destruct (lookup_args arg_values (arg_names s)) as [args|n]; cbn;
    [|intros [= <-]; discriminate].
  destruct (method s args w) as [[rv|r frames] w']; cbn.
  - destruct (return_map (return_names s) rv) as [rm|]; cbn; [|intros [= <-]; discriminate].
    destruct (copy_names rm (output_names s) (outputs s)) as [outs [n|]]; cbn;
      [intros [= <-]; discriminate|].
    destruct (copy_names rm (public_returns s) arg_values) as [reg [n|]]; cbn;
      [intros [= <-]; discriminate|discriminate].
  - intros [= <-]; cbn. intros H. split; [by eapply raise_stmt_domain|by eexists].
Qed.

(** ** The loop *)

Lemma run_loop_names steps arg_values w :
  map name (lp_steps (run_loop steps arg_values w)) = map name steps.
Proof.
  revert arg_values w. induction steps as [|s rest IH]; intros arg_values w; [done|].
  cbn. destruct (ex_fault (exec_step s arg_values w)) eqn:E; cbn.
  - by rewrite exec_step_name.
  - by rewrite exec_step_name, IH.
Qed.

Lemma run_loop_length steps arg_values w :
  length (lp_steps (run_loop steps arg_values w)) = length steps.
Proof.
  rewrite <- (length_map name), run_loop_names. apply length_map.
Qed.

Lemma no_step_fails_fault steps arg_values w :
  no_step_fails steps arg_values w <-> lp_fault (run_loop steps arg_values w) = None.
Proof.
  revert arg_values w. induction steps as [|s rest IH]; intros arg_values w; cbn; [done|].
  destruct (ex_fault (exec_step s arg_values w)) eqn:E; cbn.
  - split; [intros [? _]; discriminate|discriminate].
  - rewrite IH. tauto.
Qed.

Lemma run_loop_succeeded steps arg_values w :
  no_step_fails steps arg_values w ->
  Forall (fun s => stage s = SUCCEEDED) (lp_steps (run_loop steps arg_values w)).
Proof.
  revert arg_values w. induction steps as [|s rest IH]; intros arg_values w; cbn; [constructor|].
  intros [H1 H2]. rewrite H1. cbn. constructor; [by apply exec_step_stage_ok|by apply IH].
Qed.

(** Running [l1 ++ l2] when no step of [l1] fails: [l2] starts where [l1]
    ended. *)
Lemma run_loop_app l1 l2 arg_values w :
  no_step_fails l1 arg_values w ->
  run_loop (l1 ++ l2) arg_values w
  = let r1 := run_loop l1 arg_values w in
    let r2 := run_loop l2 (lp_arg_values r1) (lp_world r1) in
    mkLoop W (lp_steps r1 ++ lp_steps r2) (lp_arg_values r2) (lp_world r2) (lp_fault r2).
Proof.
  revert arg_values w. induction l1 as [|s rest IH]; intros arg_values w; cbn.
  - intros _. by destruct (run_loop l2 arg_values w).
  - intros [H1 H2]. rewrite H1. cbn. by rewrite IH.
Qed.

Lemma no_step_fails_app l1 l2 arg_values w :
  no_step_fails (l1 ++ l2) arg_values w <->
  no_step_fails l1 arg_values w /\
  no_step_fails l2 (lp_arg_values (run_loop l1 arg_values w)) (lp_world (run_loop l1 arg_values w)).
Proof.
  revert arg_values w. induction l1 as [|s rest IH]; intros arg_values w; cbn; [tauto|].
  destruct (ex_fault (exec_step s arg_values w)) eqn:E; cbn.
  - split; [intros [? _]|intros [[? _] _]]; discriminate.
  - rewrite IH. tauto.
Qed.

End Properties.

Section Feedback.

Variable W : Type.

Implicit Types (s : Step W) (ss pre post : list (Step W)).
Implicit Types (arg_values : gmap string value) (w : W).

Lemma run_feedback_steps ss arg_values w :
  steps (feedback (run ss arg_values w))
  = map step_record (lp_steps (run_loop ss arg_values w)).
Proof.
  unfold run. destruct (lp_fault (run_loop ss arg_values w)) as [f|]; [|done].
  by destruct (fault_exn f).
Qed.

Lemma run_steps_loop ss arg_values w :
  run_steps (run ss arg_values w) = lp_steps (run_loop ss arg_values w).
Proof.
  unfold run. destruct (lp_fault (run_loop ss arg_values w)) as [f|]; [|done].
  by destruct (fault_exn f).
Qed.

(** The records of the document name the declared steps, in their order. *)
Lemma run_feedback_names ss arg_values w :
  map r_name (steps (feedback (run ss arg_values w))) = map name ss.
Proof.
  rewrite run_feedback_steps, map_map. cbn. apply run_loop_names.
Qed.

Lemma run_feedback_length ss arg_values w :
  length (steps (feedback (run ss arg_values w))) = length ss.
Proof.
  rewrite <- (length_map r_name), run_feedback_names. apply length_map.
Qed.

(** The loop when the step after [pre] is the first to fail. *)
Lemma run_loop_fault_at pre s post arg_values w f :
  no_step_fails pre arg_values w ->
  let before := run_loop pre arg_values w in
  let r := exec_step s (lp_arg_values before) (lp_world before) in
  ex_fault r = Some f ->
  run_loop (pre ++ s :: post) arg_values w
  = mkLoop W (lp_steps before ++ ex_step r :: post) (ex_arg_values r) (ex_world r) (Some f).
Proof.
  intros Hpre before r Hf. rewrite run_loop_app by done. cbn.
  fold before. fold r. by rewrite Hf.
Qed.

(** C2: when no step fails, the feedback document holds exactly one record
    per declared step (as many records as steps, record [i] bearing the name
    of step [i]), every record's stage is [SUCCEEDED], and the document has
    no [error] key (nor an [error_stack]). *)
Theorem C2_no_failure_all_succeeded ss arg_values w :
  no_step_fails ss arg_values w ->
  let fb := feedback (run ss arg_values w) in
  length (steps fb) = length ss /\
  map r_name (steps fb) = map name ss /\
  Forall (fun r => r_stage r = SUCCEEDED) (steps fb) /\
  error fb = None /\
  error_stack fb = None.
Proof.
  intros Hok fb. split; [apply run_feedback_length|].
  split; [apply run_feedback_names|].
  split.
  - unfold fb. rewrite run_feedback_steps. apply Forall_fmap.
    eapply Forall_impl; [by apply run_loop_succeeded|]. by intros s Hs.
  - unfold fb, run. apply no_step_fails_fault in Hok. by rewrite Hok.
Qed.

(** C1: when step [k] (counted from 1) raises a domain error and no earlier
    step fails, the feedback document marks the steps [1..k-1] [SUCCEEDED],
    gives step [k] a stage that is not [SUCCEEDED], marks the steps [k+1..N]
    [NOT_STARTED], has a non-empty [error] string and a non-empty
    [error_stack], and still lists all [N] declared steps. *)
Theorem C1_domain_failure_at_step ss arg_values w (k : nat) s (e : DomainError)
    (tb : list string) :
  Forall fresh ss ->
  (1 <= k)%nat ->
  ss !! (k - 1)%nat = Some s ->
  no_step_fails (take (k - 1) ss) arg_values w ->
  let before := run_loop (take (k - 1) ss) arg_values w in
  ex_fault (exec_step s (lp_arg_values before) (lp_world before))
  = Some (mkFault (DomainExn e) tb) ->
  let fb := feedback (run ss arg_values w) in
  (forall i, (1 <= i < k)%nat -> r_stage <$> steps fb !! (i - 1)%nat = Some SUCCEEDED) /\
  (exists st, r_stage <$> steps fb !! (k - 1)%nat = Some st /\ st <> SUCCEEDED) /\
  (forall i, (k < i <= length ss)%nat ->
             r_stage <$> steps fb !! (i - 1)%nat = Some NOT_STARTED) /\
  (exists msg, error fb = Some msg /\ msg <> EmptyString) /\
  (exists trace, error_stack fb = Some trace /\ trace <> []) /\
  length (steps fb) = length ss /\
  map r_name (steps fb) = map name ss.
Proof.
  intros Hfresh Hk Hs Hpre before Hf fb.
  assert (Hsplit : (take (k - 1) ss ++ s :: drop k ss)%list = ss).
  { replace k with (S (k - 1)) at 2 by lia. by apply take_drop_middle. }
  assert (Hloop := run_loop_fault_at _ _ (drop k ss) _ _ _ Hpre Hf).
  rewrite Hsplit in Hloop. fold before in Hloop.
  assert (Hlen : length (lp_steps before) = (k - 1)%nat).
  { unfold before. rewrite run_loop_length, length_take.
    apply lookup_lt_Some in Hs. lia. }
  assert (Hsteps : steps fb
    = map step_record (lp_steps before
        ++ ex_step (exec_step s (lp_arg_values before) (lp_world before)) :: drop k ss)).
  { unfold fb. by rewrite run_feedback_steps, Hloop. }
  repeat split.
  - intros i Hi. rewrite Hsteps, list_lookup_fmap, lookup_app_l by lia.
    destruct (lp_steps before !! (i - 1)%nat) as [x|] eqn:Hx.
    + cbn. f_equal.
      pose proof (run_loop_succeeded _ _ _ _ Hpre) as Hall.
      rewrite Forall_lookup in Hall. by apply (Hall _ _ Hx).
    + apply lookup_ge_None in Hx. lia.
  - exists STARTED. split; [|discriminate].
    rewrite Hsteps, list_lookup_fmap, lookup_app_r by lia.
    rewrite Hlen, Nat.sub_diag. cbn. f_equal. by eapply exec_step_stage_fault.
  - intros i Hi. rewrite Hsteps, list_lookup_fmap, lookup_app_r by lia.
    rewrite Hlen. replace (i - 1 - (k - 1))%nat with (S (i - 1 - k)) by lia.
    rewrite lookup_cons, lookup_drop.
    destruct (ss !! (k + (i - 1 - k))%nat) as [x|] eqn:Hx.
    + cbn. f_equal. rewrite Forall_lookup in Hfresh. by apply (Hfresh _ _ Hx).
    + apply lookup_ge_None in Hx. lia.
  - exists (error_message e). unfold fb, run. rewrite Hloop. cbn. split; [done|].
    apply exec_step_fault_body in Hf.
    by apply (step_body_domain_fault _ _ _ _ _ _ Hf eq_refl).
  - exists tb. unfold fb, run. rewrite Hloop. cbn. split; [done|].
    apply exec_step_fault_body in Hf.
    destruct (step_body_domain_fault _ _ _ _ _ _ Hf eq_refl) as [_ [frames Hfr]].
    cbn in Hfr. by rewrite Hfr.
  - apply run_feedback_length.
  - apply run_feedback_names.
Qed.

End Feedback.

(** ** The encoder *)

Lemma to_json_list (l : list value) :
  Forall serializable l -> serializable (VList l).
Proof.
  intros H. unfold serializable. cbn [to_json]. apply fmap_is_Some.
  match goal with |- is_Some (?F l) => set (items := F) end.
  induction H as [|v l Hv _ IH]; [by eexists|].
  destruct Hv as [j Hj], IH as [js Hjs].
  change (items (v :: l)) with
    (match to_json v, items l with Some j, Some js => Some (j :: js) | _, _ => None end).
  rewrite Hj, Hjs. by eexists.
Qed.

Lemma to_json_dict (d : list (string * value)) :
  Forall (fun kv => serializable (snd kv)) d -> serializable (VDict d).
Proof.
  intros H. unfold serializable. cbn [to_json]. apply fmap_is_Some.
  match goal with |- is_Some (?F d) => set (members := F) end.
  induction H as [|[k v] d Hv _ IH]; [by eexists|].
  destruct Hv as [j Hj], IH as [js Hjs]. cbn in Hj.
  change (members ((k, v) :: d)) with
    (match to_json v, members d with Some j, Some js => Some ((k, j) :: js) | _, _ => None end).
  rewrite Hj, Hjs. by eexists.
Qed.

Lemma ltb_asym (a b : string) : String.ltb a b = true -> String.ltb b a = false.
Proof.
  unfold String.ltb. rewrite (String.compare_antisym a b).
  by destruct (String.compare b a).
Qed.

Lemma insert_member_hd {A : Type} (kv x : string * A) (l : list (string * A)) :
  key_le x kv -> HdRel key_le x l -> HdRel key_le x (insert_member kv l).
Proof.
  intros Hkv Hl. destruct l as [|kv' rest]; cbn; [by constructor|].
  destruct (String.ltb (fst kv) (fst kv')); constructor; [done|].
  by inversion Hl.
Qed.

Lemma insert_member_sorted {A : Type} (kv : string * A) (l : list (string * A)) :
  Sorted key_le l -> Sorted key_le (insert_member kv l).
Proof.
  induction 1 as [|kv' rest Hrest IH Hhd]; cbn; [by repeat constructor|].
  destruct (String.ltb (fst kv) (fst kv')) eqn:Hlt.
  - constructor; [by constructor|]. constructor. by apply ltb_asym.
  - constructor; [done|]. by apply insert_member_hd.
Qed.

(** [sort_keys=True]: the members of an object are written in the order of
    their keys, and they are the members of the dict. *)
Lemma sort_members_sorted {A : Type} (l : list (string * A)) :
  Sorted key_le (sort_members l).
Proof.
  induction l as [|kv l IH]; cbn; [constructor|]. by apply insert_member_sorted.
Qed.

Lemma insert_member_perm {A : Type} (kv : string * A) (l : list (string * A)) :
  insert_member kv l ≡ₚ kv :: l.
Proof.
  induction l as [|kv' rest IH]; cbn; [done|].
  destruct (String.ltb (fst kv) (fst kv')); [done|].
  rewrite IH. apply Permutation_swap.
Qed.

Lemma sort_members_perm {A : Type} (l : list (string * A)) : sort_members l ≡ₚ l.
Proof.
  induction l as [|kv l IH]; cbn; [done|]. by rewrite insert_member_perm, IH.
Qed.

Lemma to_json_dict_sorted (d : list (string * value)) (ms : list (string * json)) :
  to_json (VDict d) = Some (JObj ms) -> Sorted key_le ms.
Proof.
  cbn [to_json]. intros H. apply fmap_Some in H as (ms' & _ & [= ->]).
  apply sort_members_sorted.
Qed.

Lemma serializable_str (s : string) : serializable (VStr s).
Proof. by eexists. Qed.

(** ** The pieces that [json.dump] writes *)

Lemma append_empty_r (s : string) : (s ++ EmptyString)%string = s.
Proof.
  induction s as [|c s IH]; [done|].
  change (String c (s ++ EmptyString)%string = String c s). by rewrite IH.
Qed.

Lemma append_assoc (a b c : string) : ((a ++ b) ++ c)%string = (a ++ b ++ c)%string.
Proof.
  induction a as [|x a IH]; [done|].
  change (String x ((a ++ b) ++ c)%string = String x (a ++ b ++ c)%string). by rewrite IH.
Qed.

Lemma value_ind_nested (P : value -> Prop) :
  P VNone ->
  (forall b, P (VBool b)) ->
  (forall z, P (VInt z)) ->
  (forall s, P (VStr s)) ->
  (forall l, Forall P l -> P (VList l)) ->
  (forall l, Forall P l -> P (VTuple l)) ->
  (forall d, Forall (fun kv => P (snd kv)) d -> P (VDict d)) ->
  (forall n, P (VObject n)) ->
  forall v, P v.
Proof.
  intros HN HB HI HS HL HT HD HO. fix IH 1.
  intros [|b|z|s|l|l|d|n]; [exact HN|apply HB|apply HI|apply HS| | | |apply HO].
  - apply HL. induction l as [|x l IHl]; constructor; [apply IH|exact IHl].
  - apply HT. induction l as [|x l IHl]; constructor; [apply IH|exact IHl].
  - apply HD. induction d as [|[k x] d IHd]; constructor; [apply IH|exact IHd].
Qed.

Lemma to_json_list_eq (l : list value) : to_json (VList l) = JArr <$> encode_items l.
Proof.
  reflexivity.
Qed.

Lemma to_json_tuple_eq (l : list value) : to_json (VTuple l) = JArr <$> encode_items l.
Proof. exact (to_json_list_eq l). Qed.

Lemma to_json_dict_eq (d : list (string * value)) :
  to_json (VDict d) = (fun ms => JObj (sort_members ms)) <$> encode_members d.
Proof.
  reflexivity.
Qed.

Lemma insert_member_map {A B : Type} (f : A -> B) (kv : string * A) (l : list (string * A)) :
  insert_member (fst kv, f (snd kv)) (map (fun m => (fst m, f (snd m))) l)
  = map (fun m => (fst m, f (snd m))) (insert_member kv l).
Proof.
  induction l as [|m l IH]; [done|]. cbn.
  destruct (String.ltb (fst kv) (fst m)); [done|]. cbn. by rewrite <- IH.
Qed.

Lemma sort_members_map {A B : Type} (f : A -> B) (l : list (string * A)) :
  sort_members (map (fun m => (fst m, f (snd m))) l)
  = map (fun m => (fst m, f (snd m))) (sort_members l).
Proof.
  induction l as [|kv l IH]; [done|].
  change (insert_member (fst kv, f (snd kv)) (sort_members (map (fun m => (fst m, f (snd m))) l))
          = map (fun m => (fst m, f (snd m))) (insert_member kv (sort_members l))).
  by rewrite IH, insert_member_map.
Qed.

Lemma sort_members_nil {A : Type} (l : list (string * A)) : sort_members l = [] -> l = [].
Proof.
  intros H. apply Permutation_nil. rewrite <- H. apply sort_members_perm.
Qed.

(** All the pieces are complete: they are written with their separators. *)
Lemma write_pieces_rest (sep : string) (texts : list string) :
  exists tail,
    write_pieces sep false (map (fun t => (t, true)) texts) = (tail, true) /\
    forall x, join sep (x :: texts) = (x ++ tail)%string.
Proof.
  induction texts as [|t texts (tail & Htail & Hjoin)].
  - exists EmptyString. split; [done|]. intros x. cbn. by rewrite append_empty_r.
  - exists ((sep ++ t) ++ tail)%string. split.
    + cbn [map write_pieces]. by rewrite Htail.
    + intros x.
      change (join sep (x :: t :: texts)) with (x ++ sep ++ join sep (t :: texts))%string.
      by rewrite Hjoin, (append_assoc sep t tail).
Qed.

Lemma write_pieces_complete (sep : string) (x : string) (texts : list string) :
  write_pieces sep true ((x, true) :: map (fun t => (t, true)) texts)
  = (join sep (x :: texts), true).
Proof.
  destruct (write_pieces_rest sep texts) as (tail & Htail & Hjoin).
  cbn [write_pieces]. by rewrite Htail, Hjoin.
Qed.

(** A piece is not complete: the writing stops. *)
Lemma write_pieces_stops (sep : string) (first : bool) (pieces : list (string * bool)) :
  (exists p, p ∈ pieces /\ snd p = false) ->
  snd (write_pieces sep first pieces) = false.
Proof.
  intros (p & Hin & Hp). revert first.
  induction pieces as [|[t ok] pieces IH]; intros first; [by apply elem_of_nil in Hin|].
  cbn [write_pieces]. destruct ok; [|done].
  apply elem_of_cons in Hin as [->|Hin]; [done|].
  specialize (IH Hin false). by destruct (write_pieces sep false pieces).
Qed.

Lemma encode_items_stream (l : list value) (level : nat) :
  Forall (fun v => forall level,
            match to_json v with
            | Some j => stream level v = (render level j, true)
            | None => snd (stream level v) = false
            end) l ->
  match encode_items l with
  | Some js => map (stream level) l = map (fun t => (t, true)) (map (render level) js)
  | None => exists p, p ∈ map (stream level) l /\ snd p = false
  end.
Proof.
  induction 1 as [|x l Hx _ IH]; [done|]. cbn [encode_items].
  specialize (Hx level). destruct (to_json x) as [j|].
  - destruct (encode_items l) as [js|].
    + cbn [map]. by rewrite Hx, IH.
    + destruct IH as (p & Hin & Hp). exists p. split; [|done]. cbn [map]. by right.
  - exists (stream level x). split; [|done]. cbn [map]. by left.
Qed.

Lemma encode_members_stream (d : list (string * value)) (level : nat) :
  Forall (fun kv => forall level,
            match to_json (snd kv) with
            | Some j => stream level (snd kv) = (render level j, true)
            | None => snd (stream level (snd kv)) = false
            end) d ->
  match encode_members d with
  | Some ms =>
      map (fun kv => match kv with (k, x) => (k, stream level x) end) d
      = map (fun m => (fst m, (render level (snd m), true))) ms
  | None =>
      exists m, m ∈ map (fun kv => match kv with (k, x) => (k, stream level x) end) d
                /\ snd (snd m) = false
  end.
Proof.
  induction 1 as [|[k x] d Hx _ IH]; [done|]. cbn [encode_members].
  specialize (Hx level). cbn [snd] in Hx. destruct (to_json x) as [j|].
  - destruct (encode_members d) as [ms|].
    + cbn [map fst snd]. by rewrite Hx, IH.
    + destruct IH as (m & Hin & Hm). exists m. split; [|done]. cbn [map]. by right.
  - exists (k, stream level x). split; [|done]. cbn [map]. by left.
Qed.

Lemma pieces_of_members (level : nat) (ms : list (string * json)) :
  map (fun m => (quote (fst m) ++ ": " ++ fst (snd m), snd (snd m)))%string
    (map (fun m => (fst m, (render level (snd m), true))) ms)
  = map (fun t => (t, true))
      (map (fun kv => quote (fst kv) ++ ": " ++ render level (snd kv))%string ms).
Proof. rewrite !map_map. by apply map_ext. Qed.

(** [json.dump] and [json.dumps] agree: on a value that can be encoded the
    pieces written are the text of [json.dumps], and on a value that cannot
    the writing stops before the end. *)
Lemma stream_to_json (v : value) :
  forall level,
    match to_json v with
    | Some j => stream level v = (render level j, true)
    | None => snd (stream level v) = false
    end.
Proof.
  induction v as [|b|z|s|l IH|l IH|d IH|n] using value_ind_nested; intros level;
    try done.
  - by destruct b.
  - rewrite to_json_list_eq. pose proof (encode_items_stream l (S level) IH) as H.
    destruct l as [|x l]; [done|]. cbn [stream].
    destruct (encode_items (x :: l)) as [js|] eqn:Hjs; cbn [fmap option_fmap option_map].
    + destruct js as [|j js]; [discriminate H|]. rewrite H.
      cbn [map]. rewrite write_pieces_complete. done.
    + apply (write_pieces_stops ("," ++ break (S level)) true) in H.
      by destruct (write_pieces _ true _) as [body []].
  - rewrite to_json_tuple_eq. pose proof (encode_items_stream l (S level) IH) as H.
    destruct l as [|x l]; [done|]. cbn [stream].
    destruct (encode_items (x :: l)) as [js|] eqn:Hjs; cbn [fmap option_fmap option_map].
    + destruct js as [|j js]; [discriminate H|]. rewrite H.
      cbn [map]. rewrite write_pieces_complete. done.
    + apply (write_pieces_stops ("," ++ break (S level)) true) in H.
      by destruct (write_pieces _ true _) as [body []].
  - rewrite to_json_dict_eq. pose proof (encode_members_stream d (S level) IH) as H.
    destruct d as [|kv d]; [done|]. cbn [stream].
    destruct (encode_members (kv :: d)) as [ms|] eqn:Hms; cbn [fmap option_fmap option_map].
    + rewrite H, (sort_members_map (fun j => (render (S level) j, true))),
        pieces_of_members.
      destruct (sort_members ms) as [|m ms'] eqn:Hsort.
      { apply sort_members_nil in Hsort. subst ms. discriminate H. }
      cbn [map]. rewrite write_pieces_complete. done.
    + destruct H as (m & Hin & Hm).
      match goal with |- context [sort_members ?ms] => set (members := ms) in * end.
      assert (Hstop : exists p,
                p ∈ map (fun m => (quote (fst m) ++ ": " ++ fst (snd m), snd (snd m)))%string
                      (sort_members members) /\ snd p = false).
      { exists (quote (fst m) ++ ": " ++ fst (snd m), snd (snd m))%string.
        split; [|exact Hm]. apply list_elem_of_fmap. exists m. split; [done|].
        by rewrite sort_members_perm. }
      apply (write_pieces_stops ("," ++ break (S level)) true) in Hstop.
      by destruct (write_pieces _ true _) as [body []].
Qed.

Section Emission.

Variable W : Type.
Variable stage_value : Stage -> value.
Variable io : Sinks W.

Implicit Types (s : Step W) (ss : list (Step W)).
Implicit Types (arg_values : gmap string value) (w : W) (fb : Feedback).

Lemma record_value_serializable (r : StepRecord) :
  (forall st, serializable (stage_value st)) ->
  (forall k v, r_outputs r !! k = Some v -> serializable v) ->
  serializable (record_value stage_value r).
Proof.
  intros Hst Hout. apply to_json_dict. repeat constructor; cbn.
  - apply serializable_str.
  - apply Hst.
  - apply to_json_dict. apply Forall_forall. intros [k v] Hin. cbn.
    apply (Hout k). by apply elem_of_map_to_list.
Qed.

(** The document can be encoded as soon as the stage values and the
    recorded outputs can. *)
Lemma feedback_value_serializable fb :
  (forall st, serializable (stage_value st)) ->
  (forall r k v, r ∈ steps fb -> r_outputs r !! k = Some v -> serializable v) ->
  serializable (feedback_value stage_value fb).
Proof.
  intros Hst Hout. apply to_json_dict. unfold feedback_value.
  repeat (apply Forall_app; split).
  - destruct (error fb); repeat constructor. apply serializable_str.
  - destruct (error_stack fb) as [tb|]; repeat constructor; cbn.
    apply to_json_list, Forall_fmap, Forall_forall. intros x _. apply serializable_str.
  - repeat constructor; cbn. apply to_json_list, Forall_fmap, Forall_forall.
    intros r Hr. apply record_value_serializable; [done|]. intros k v. by apply Hout.
Qed.

Lemma run_feedback_serializable ss arg_values w :
  (forall st, serializable (stage_value st)) ->
  outputs_serializable (run_steps (run ss arg_values w)) ->
  serializable (feedback_value stage_value (feedback (run ss arg_values w))).
Proof.
  intros Hst Hout. apply feedback_value_serializable; [done|].
  intros r k v Hr Hk. rewrite run_feedback_steps in Hr.
  apply list_elem_of_fmap in Hr as (s & -> & Hs).
  rewrite <- run_steps_loop in Hs. unfold outputs_serializable in Hout.
  rewrite Forall_forall in Hout. by apply (Hout s Hs k v).
Qed.

Lemma json_dumps_is_Some (v : value) : serializable v <-> is_Some (json_dumps v).
Proof. unfold json_dumps, serializable. by rewrite fmap_is_Some. Qed.

(** What [emit] does when the sink works and the document can be encoded,
    whatever the sink. *)
Lemma emit_documents (fn : option string) fb w (text : string) :
  sink_error io fn w = None ->
  json_dumps (feedback_value stage_value fb) = Some text ->
  documents (fst (emit stage_value io fn fb w)) = [text]
  /\ snd (emit stage_value io fn fb w) = None.
Proof.
  unfold emit, sink_error. intros Hopen H. rewrite H.
  destruct (feedback_file fn) as [path|].
  - destruct (open_feedback io w path); [done|].
    by destruct (write_feedback io w path).
  - by destruct (print_feedback io w).
Qed.

Lemma emit_no_document (fn : option string) fb w :
  sink_error io fn w = None ->
  json_dumps (feedback_value stage_value fb) = None ->
  documents (fst (emit stage_value io fn fb w)) = []
  /\ snd (emit stage_value io fn fb w) = Some not_serializable.
Proof.
  unfold emit, sink_error. intros Hopen H. rewrite H.
  destruct (feedback_file fn) as [path|].
  - destruct (open_feedback io w path); [done|].
    by destruct (write_feedback io w path).
  - by destruct (print_feedback io w).
Qed.

(** What [emit] does when the sink raises: the exception is that of the
    sink, and at most the opening of the file has happened. *)
Lemma emit_sink_error (fn : option string) fb w (e : exn) :
  sink_error io fn w = Some e ->
  snd (emit stage_value io fn fb w) = Some e /\
  documents (fst (emit stage_value io fn fb w)) = [] /\
  forall ev, ev ∈ fst (emit stage_value io fn fb w) -> exists path, ev = Opened path.
Proof.
  unfold emit, sink_error. destruct (feedback_file fn) as [path|].
  - destruct (open_feedback io w path) as [e1|].
    + intros [= <-]. repeat split. intros ev Hev. by apply elem_of_nil in Hev.
    + destruct (write_feedback io w path) as [e2|]; [|discriminate].
      intros [= <-]. repeat split. intros ev ->%list_elem_of_singleton. by exists path.
  - destruct (print_feedback io w) as [e1|]; [|discriminate].
    intros [= <-]. repeat split. intros ev Hev. by apply elem_of_nil in Hev.
Qed.

Lemma process_run ss arg_values (fn : option string) w :
  report_run (process stage_value io ss arg_values fn w) = run ss arg_values w.
Proof. unfold process. by destruct (emit _ _ _ _ _) as [evs [e|]]. Qed.

Lemma process_events ss arg_values (fn : option string) w :
  events (process stage_value io ss arg_values fn w)
  = fst (emit stage_value io fn (feedback (run ss arg_values w))
           (run_world (run ss arg_values w))).
Proof. unfold process. by destruct (emit _ _ _ _ _) as [evs [e|]]. Qed.

Lemma process_raised ss arg_values (fn : option string) w :
  raised (process stage_value io ss arg_values fn w)
  = match snd (emit stage_value io fn (feedback (run ss arg_values w))
                 (run_world (run ss arg_values w))) with
    | Some e => Some e
    | None => fault_exn <$> pending (run ss arg_values w)
    end.
Proof. unfold process. by destruct (emit _ _ _ _ _) as [evs [e|]]. Qed.

(** The exception that leaves the function: one raised inside the
    [finally] clause, by [open] or by the encoder, or else the one that was
    propagating. *)
Lemma process_raised_cases ss arg_values (fn : option string) w :
  let r := run ss arg_values w in
  raised (process stage_value io ss arg_values fn w)
  = match sink_error io fn (run_world r),
          json_dumps (feedback_value stage_value (feedback r)) with
    | Some e, _ => Some e
    | None, None => Some not_serializable
    | None, Some _ => fault_exn <$> pending r
    end.
Proof.
  cbv zeta. rewrite process_raised.
  destruct (sink_error _ _ _) as [e|] eqn:Hsink.
  - by rewrite (proj1 (emit_sink_error _ _ _ _ Hsink)).
  - destruct (json_dumps _) as [text|] eqn:Htext.
    + by rewrite (proj2 (emit_documents _ _ _ _ Hsink Htext)).
    + by rewrite (proj2 (emit_no_document _ _ _ Hsink Htext)).
Qed.

Lemma process_documents ss arg_values (fn : option string) w :
  let r := run ss arg_values w in
  documents (events (process stage_value io ss arg_values fn w))
  = match sink_error io fn (run_world r),
          json_dumps (feedback_value stage_value (feedback r)) with
    | None, Some text => [text]
    | _, _ => []
    end.
Proof.
  cbv zeta. rewrite process_events.
  destruct (sink_error _ _ _) as [e|] eqn:Hsink.
  - by rewrite (proj1 (proj2 (emit_sink_error _ _ _ _ Hsink))).
  - destruct (json_dumps _) as [text|] eqn:Htext.
    + by rewrite (proj1 (emit_documents _ _ _ _ Hsink Htext)).
    + by rewrite (proj1 (emit_no_document _ _ _ Hsink Htext)).
Qed.


(** C5 (amended): the [except] clause catches exactly the imported family
    and turns it into the [error] string and the [error_stack] of the
    feedback; an exception outside the family is not caught: it sets neither
    key and it is still pending when the [finally] clause has listed the
    steps.  It leaves the function unchanged provided the [finally] clause
    raises nothing, that is, the sink works (the feedback file, if one is
    given, can be opened and written) and the feedback can be encoded as
    JSON; otherwise the error of the sink or the [TypeError] of the encoder
    leaves in its place. *)
Theorem C5_catches_exactly_domain ss arg_values (fn : option string) w :
  let l := run_loop ss arg_values w in
  let rep := process stage_value io ss arg_values fn w in
  let fb := feedback (report_run rep) in
  let failure := sink_error io fn (run_world (report_run rep)) in
  steps fb = map step_record (lp_steps l) /\
  match lp_fault l with
  | None => error fb = None /\ error_stack fb = None /\ pending (report_run rep) = None
  | Some f =>
      match fault_exn f with
      | DomainExn e =>
          error fb = Some (error_message e) /\
          error_stack fb = Some (fault_tb f) /\
          pending (report_run rep) = None
      | OtherExn cls msg =>
          error fb = None /\
          error_stack fb = None /\
          pending (report_run rep) = Some f /\
          raised rep
          = match failure, json_dumps (feedback_value stage_value fb) with
            | Some e, _ => Some e
            | None, None => Some not_serializable
            | None, Some _ => Some (OtherExn cls msg)
            end
      end
  end.
Proof.
  intros l rep fb failure. unfold failure, fb, rep.
  rewrite process_raised_cases, process_run. split; [apply run_feedback_steps|].
  unfold run. fold l. destruct (lp_fault l) as [f|]; [|done].
  destruct (fault_exn f) as [e|cls msg] eqn:Hf; cbn [feedback pending error error_stack];
    [done|].
  repeat split. cbn [run_world fmap option_fmap option_map]. by rewrite Hf.
Qed.

End Emission.

(** ** The order of the keys *)









(** ** The layout of the document *)









(** ** Determinism *)

Section Determinism.

Variable W : Type.
Variable R : W -> W -> Prop.

Implicit Types (s : Step W) (ss : list (Step W)).
Implicit Types (arg_values : gmap string value) (w : W).






End Determinism.

(** ** Binding of arguments and returns *)

Lemma copy_names_ok (rm : gmap string value) (names : list string)
    (target target' : gmap string value) :
  copy_names rm names target = (target', None) ->
  forall X, target' !! X = if bool_decide (X ∈ names) then rm !! X else target !! X.
Proof.
  revert target. induction names as [|n rest IH]; intros target; cbn.
  - intros [= <-] X. by rewrite bool_decide_eq_false_2 by apply not_elem_of_nil.
  - destruct (rm !! n) as [v|] eqn:Hn; [|discriminate].
    intros H X. rewrite (IH _ H X).
    destruct (decide (X ∈ rest)) as [Hin|Hnin].
    + rewrite !bool_decide_eq_true_2; [done| |done]. by apply elem_of_cons; right.
    + rewrite (bool_decide_eq_false_2 (X ∈ rest)) by done.
      destruct (decide (X = n)) as [->|Hne].
      * rewrite bool_decide_eq_true_2 by (apply elem_of_cons; by left).
        by rewrite lookup_insert_eq, Hn.
      * rewrite bool_decide_eq_false_2.
        -- by rewrite lookup_insert_ne.
        -- intros [?|?]%elem_of_cons; done.
Qed.

(** The copy ends without [KeyError] exactly when every name is bound. *)
Lemma copy_names_None (rm : gmap string value) (names : list string)
    (target : gmap string value) :
  snd (copy_names rm names target) = None <-> forall n, n ∈ names -> is_Some (rm !! n).
Proof.
  revert target. induction names as [|n rest IH]; intros target; cbn.
  - split; [|done]. intros _ n Hn. by apply elem_of_nil in Hn.
  - destruct (rm !! n) as [v|] eqn:Hn; cbn.
    + rewrite IH. split.
      * intros H x [->|Hx]%elem_of_cons; [by rewrite Hn|by apply H].
      * intros H x Hx. apply H, elem_of_cons. by right.
    + split; [discriminate|]. intros H.
      destruct (H n) as [v Hv]; [apply elem_of_cons; by left|congruence].
Qed.

(** Names outside the list are left alone, whether the copy ends or not. *)
Lemma copy_names_frame (rm : gmap string value) (names : list string)
    (target : gmap string value) (X : string) :
  X ∉ names -> fst (copy_names rm names target) !! X = target !! X.
Proof.
  revert target. induction names as [|n rest IH]; intros target Hnin; cbn; [done|].
  apply not_elem_of_cons in Hnin as [Hne Hnin].
  destruct (rm !! n) as [v|]; [|done]. rewrite IH by done. by rewrite lookup_insert_ne.
Qed.

Lemma lookup_args_Ok (arg_values : gmap string value) (names : list string)
    (args : list value) :
  lookup_args arg_values names = Ok args ->
  forall i n, names !! i = Some n -> args !! i = arg_values !! n /\ is_Some (args !! i).
Proof.
  revert args. induction names as [|n' rest IH]; intros args; cbn.
  - intros _ i n Hi. by rewrite lookup_nil in Hi.
  - destruct (arg_values !! n') as [v|] eqn:Hn; [|discriminate].
    destruct (lookup_args arg_values rest) as [vs|k]; [|discriminate].
    intros [= <-] [|i] n Hi; cbn in *.
    + injection Hi as <-. by rewrite Hn.
    + by apply IH.
Qed.

Lemma lookup_args_total (arg_values : gmap string value) (names : list string) :
  (forall n, n ∈ names -> is_Some (arg_values !! n)) ->
  exists args, lookup_args arg_values names = Ok args.
Proof.
  induction names as [|n rest IH]; intros H; cbn; [by eexists|].
  destruct (H n) as [v ->]; [apply elem_of_cons; by left|].
  destruct IH as [vs ->]; [|by eexists]. intros x Hx. apply H, elem_of_cons. by right.
Qed.

Lemma bind_returns_dom (pairs : list (string * value)) (m : gmap string value) :
  dom (foldl (fun m nv => <[fst nv := snd nv]> m) m pairs)
  = dom m ∪ list_to_set (map fst pairs).
Proof.
  revert m. induction pairs as [|[n v] rest IH]; intros m; cbn.
  - set_solver.
  - rewrite IH, dom_insert_L. set_solver.
Qed.

Lemma zip_fst {A B : Type} (xs : list A) (ys : list B) :
  map fst (zip xs ys) = take (length ys) xs.
Proof.
  revert ys. induction xs as [|x xs IH]; intros [|y ys]; cbn; try done.
  by rewrite IH.
Qed.

Section Binding.

Variable W : Type.

Implicit Types (s a b : Step W) (ss pre mid post : list (Step W)).
Implicit Types (arg_values : gmap string value) (w : W).

(** What a step that ends without an exception has done. *)
Lemma exec_step_ok_inv s arg_values w :
  ex_fault (exec_step s arg_values w) = None ->
  exists args rv w' rm outs reg,
    lookup_args arg_values (arg_names s) = Ok args /\
    method s args w = (Returns rv, w') /\
    return_map (return_names s) rv = Some rm /\
    copy_names rm (output_names s) (outputs s) = (outs, None) /\
    copy_names rm (public_returns s) arg_values = (reg, None) /\
    exec_step s arg_values w = mkExec W (logger_exit (set_outputs outs (logger_enter s))) reg w' None.
Proof.
  unfold exec_step, step_body. cbn [logger_enter set_stage arg_names method return_names
    output_names public_returns outputs].
  destruct (lookup_args arg_values (arg_names s)) as [args|n] eqn:E1; [|discriminate].
  destruct (method s args w) as [[rv|r frames] w'] eqn:E2; [|discriminate].
  destruct (return_map (return_names s) rv) as [rm|] eqn:E3; [|discriminate].
  destruct (copy_names rm (output_names s) (outputs s)) as [outs [n|]] eqn:E4; [discriminate|].
  destruct (copy_names rm (public_returns s) arg_values) as [reg [n|]] eqn:E5; [discriminate|].
  cbn. intros _. by exists args, rv, w', rm, outs, reg.
Qed.

(** A step writes no name of the registry outside its public returns. *)
Lemma exec_step_frame s arg_values w (X : string) :
  X ∉ public_returns s ->
  ex_arg_values (exec_step s arg_values w) !! X = arg_values !! X.
Proof.
  intros HX. unfold exec_step, step_body. cbn [logger_enter set_stage arg_names method
    return_names output_names public_returns outputs].
  destruct (lookup_args arg_values (arg_names s)) as [args|n]; [|done].
  destruct (method s args w) as [[rv|r frames] w']; [|done].
  destruct (return_map (return_names s) rv) as [rm|]; [|done].
  destruct (copy_names rm (output_names s) (outputs s)) as [outs [n|]]; [done|].
  pose proof (copy_names_frame rm (public_returns s) arg_values X HX) as Hfr.
  by destruct (copy_names rm (public_returns s) arg_values) as [reg [n|]].
Qed.

Lemma run_loop_frame ss arg_values w (X : string) :
  Forall (fun m => X ∉ public_returns m) ss ->
  lp_arg_values (run_loop ss arg_values w) !! X = arg_values !! X.
Proof.
  intros H. revert arg_values w. induction H as [|s rest Hs _ IH]; intros arg_values w; [done|].
  cbn. destruct (ex_fault (exec_step s arg_values w)); cbn.
  - by apply exec_step_frame.
  - rewrite IH. by apply exec_step_frame.
Qed.

(** C4: if step [a] publicly returns the name [X], bound to [V] in its
    return map, a later step [b] that declares [X] among its inputs receives
    [V] at every position of [X], whatever the steps before [a] wrote,
    provided no step between [a] and [b] publicly returns [X]: the value
    received is the one most recently written. *)
Theorem C4_public_return_propagates pre a mid b arg_values w (X : string) (V : value)
    (args_a : list value) (rv : value) (w_a : W) (rm : gmap string value) :
  no_step_fails (pre ++ a :: mid) arg_values w ->
  let before := run_loop pre arg_values w in
  lookup_args (lp_arg_values before) (arg_names a) = Ok args_a ->
  method a args_a (lp_world before) = (Returns rv, w_a) ->
  return_map (return_names a) rv = Some rm ->
  X ∈ public_returns a ->
  rm !! X = Some V ->
  Forall (fun m => X ∉ public_returns m) mid ->
  X ∈ arg_names b ->
  let reached := run_loop (pre ++ a :: mid) arg_values w in
  lp_arg_values reached !! X = Some V /\
  (forall args_b, lookup_args (lp_arg_values reached) (arg_names b) = Ok args_b ->
     forall i, arg_names b !! i = Some X -> args_b !! i = Some V) /\
  ((forall n, n ∈ arg_names b -> is_Some (lp_arg_values reached !! n)) ->
     exists args_b, lookup_args (lp_arg_values reached) (arg_names b) = Ok args_b).
Proof.
  intros Hok before Hargs Hcall Hrm HX HV Hmid Hb reached.
  apply no_step_fails_app in Hok as [Hpre Hrest]. fold before in Hrest.
  cbn in Hrest. destruct Hrest as [Ha Hmid_ok].
  assert (Hreg : lp_arg_values reached !! X = Some V).
  { unfold reached. rewrite run_loop_app by done. cbn. fold before. rewrite Ha. cbn.
    rewrite run_loop_frame by done.
    destruct (exec_step_ok_inv _ _ _ Ha)
      as (args & rv' & w' & rm' & outs & reg & H1 & H2 & H3 & H4 & H5 & ->).
    cbn. rewrite Hargs in H1. injection H1 as <-.
    rewrite Hcall in H2. injection H2 as <- <-.
    rewrite Hrm in H3. injection H3 as <-.
    rewrite (copy_names_ok _ _ _ _ H5 X). by rewrite bool_decide_eq_true_2. }
  split; [done|]. split.
  - intros args_b Hlook i Hi.
    destruct (lookup_args_Ok _ _ _ Hlook i X Hi) as [-> _]. done.
  - apply lookup_args_total.
Qed.

(** C10: if the callable of a step raises (an exception of any kind), the
    step has written nothing: the registry and the outputs of the step are
    what they were before the call, and at the end of the run the registry
    and the record of the step still hold those values. *)
Theorem C10_raise_writes_nothing pre s post arg_values w (args : list value)
    (r : Raised) (frames : list string) (w' : W) :
  no_step_fails pre arg_values w ->
  let before := run_loop pre arg_values w in
  lookup_args (lp_arg_values before) (arg_names s) = Ok args ->
  method s args (lp_world before) = (Raises r frames, w') ->
  let x := exec_step s (lp_arg_values before) (lp_world before) in
  let result := run (pre ++ s :: post) arg_values w in
  ex_arg_values x = lp_arg_values before /\
  outputs (ex_step x) = outputs s /\
  ex_fault x = Some (mkFault (raise_stmt r) (here 250 :: frames)) /\
  run_arg_values result = lp_arg_values before /\
  r_outputs <$> steps (feedback result) !! length pre = Some (outputs s).
Proof.
  intros Hpre before Hargs Hcall x result.
  assert (Hx : x = mkExec W (logger_enter s) (lp_arg_values before) w'
                     (Some (mkFault (raise_stmt r) (here 250 :: frames)))).
  { unfold x, exec_step, step_body. cbn [logger_enter set_stage arg_names method].
    rewrite Hargs, Hcall. done. }
  assert (Hloop := run_loop_fault_at W pre s post arg_values w _ Hpre (f_equal ex_fault Hx)).
  fold before in Hloop. fold x in Hloop.
  repeat split; try by rewrite Hx.
  - unfold result, run. rewrite Hloop. cbn. by destruct (raise_stmt r); rewrite Hx.
  - unfold result. rewrite run_feedback_steps, Hloop. cbn.
    rewrite list_lookup_fmap. unfold before.
    rewrite lookup_app_r by (rewrite run_loop_length; lia).
    rewrite run_loop_length, Nat.sub_diag. cbn. fold before. fold x. by rewrite Hx.
Qed.

(** C7 (amended): a step with exactly one return name binds the whole result
    of its callable to that name, never unpacking it; a step with more than
    one iterates the result and pairs the values with the names in order,
    the pairing stopping at the shorter of the two, so that exactly the
    first [length vals] names are bound.  A difference between the two
    counts raises nothing by itself: the step ends without an exception
    exactly when every output name and public return is among the names
    bound. *)
Theorem C7_returns_bound_by_zip s arg_values w (args : list value) (rv : value) (w' : W) :
  lookup_args arg_values (arg_names s) = Ok args ->
  method s args w = (Returns rv, w') ->
  (forall n, return_names s = [n] -> return_map (return_names s) rv = Some {[n := rv]}) /\
  ((1 < length (return_names s))%nat ->
   forall vals, py_iter rv = Some vals ->
     return_map (return_names s) rv = Some (bind_returns (zip (return_names s) vals)) /\
     dom (bind_returns (zip (return_names s) vals))
     = list_to_set (take (length vals) (return_names s))) /\
  (forall rm, return_map (return_names s) rv = Some rm ->
     (ex_fault (exec_step s arg_values w) = None <->
      forall n, n ∈ output_names s \/ n ∈ public_returns s -> is_Some (rm !! n))).
Proof.
  intros Hargs Hcall. split; [|split].
  - intros n ->. unfold return_map, wrap_returns. cbn. unfold bind_returns. cbn.
    by rewrite insert_empty.
  - intros Hlen vals Hvals. split.
    + unfold return_map, wrap_returns. apply Nat.ltb_lt in Hlen. by rewrite Hlen, Hvals.
    + unfold bind_returns. rewrite bind_returns_dom, zip_fst. set_solver.
  - intros rm H. split.
    { intros Hok n Hn.
    destruct (exec_step_ok_inv _ _ _ Hok)
      as (args' & rv' & w'' & rm' & outs & reg & H1 & H2 & H3 & H4 & H5 & _).
    rewrite Hargs in H1. injection H1 as <-. rewrite Hcall in H2. injection H2 as <- <-.
    rewrite H in H3. injection H3 as <-.
    destruct Hn as [Hn|Hn].
    + eapply (proj1 (copy_names_None rm (output_names s) (outputs s))); [by rewrite H4|done].
    + eapply (proj1 (copy_names_None rm (public_returns s) arg_values)); [by rewrite H5|done]. }
    intros Hall. unfold exec_step, step_body.
    cbn [logger_enter set_stage arg_names method return_names output_names public_returns
         outputs].
    rewrite Hargs, Hcall, H.
    pose proof (proj2 (copy_names_None rm (output_names s) (outputs s))
                  (fun n Hn => Hall n (or_introl Hn))) as Ho.
    pose proof (proj2 (copy_names_None rm (public_returns s) arg_values)
                  (fun n Hn => Hall n (or_intror Hn))) as Hp.
    destruct (copy_names rm (output_names s) (outputs s)) as [outs o]. cbn in Ho. subst o.
    destruct (copy_names rm (public_returns s) arg_values) as [reg o]. cbn in Hp. subst o.
    done.
Qed.

Lemma subset_of_spec (xs ys : list string) : subset_of xs ys = true <-> xs ⊆ ys.
Proof.
  unfold subset_of. rewrite forallb_forall. split.
  - intros H x Hx. apply list_elem_of_In in Hx. specialize (H x Hx). by apply bool_decide_eq_true in H.
  - intros H x Hx. apply bool_decide_eq_true_2, H. by apply list_elem_of_In.
Qed.

Lemma build_rejects (before after : list (result (Step W) string)) (e : string) :
  exists e', build (before ++ Err e :: after) = Err e'.
Proof.
  induction before as [|[s|e0] before [e' IH]]; cbn; [by eexists| |by eexists].
  rewrite IH. by eexists.
Qed.

(** C6: a step whose output names or public returns are not all among its
    return names is rejected by the constructor; the list of steps is then
    never built and the run never starts: no callable is called and no
    binding of outputs or registry is reached. *)
Theorem C6_subset_checked_at_construction (name : string) (arg_names : list string)
    (method : Method W) (return_names output_names public_returns : list string) :
  ~ output_names ⊆ return_names \/ ~ public_returns ⊆ return_names ->
  (exists e, Step_new name arg_names method return_names output_names public_returns = Err e) /\
  forall (stage_value : Stage -> value)
         (io : Sinks W)
         (before after : list (result (Step W) string))
         arg_values (fn : option string) w,
    exists e,
      pipeline stage_value io
        (before
         ++ Step_new name arg_names method return_names output_names public_returns :: after)
        arg_values fn w = Err e.
Proof.
  intros Hbad.
  assert (Hnew : exists e,
    Step_new name arg_names method return_names output_names public_returns = Err e).
  { unfold Step_new.
    destruct (subset_of output_names return_names) eqn:Ho; cbn; [|by eexists].
    destruct (subset_of public_returns return_names) eqn:Hp; cbn; [|by eexists].
    apply subset_of_spec in Ho, Hp. tauto. }
  split; [done|]. intros stage_value io before after arg_values fn w.
  destruct Hnew as [e ->]. unfold pipeline.
  destruct (build_rejects before after e) as [e' ->]. by eexists.
Qed.

End Binding.

(** ** The stages along a run *)

Lemma stage_next_le (a b : Stage) : stage_next a b -> stage_le a b.
Proof. intros []; unfold stage_le; cbn; lia. Qed.

Lemma insert_middle {A : Type} (l1 l2 : list A) (x y : A) :
  <[length l1 := y]> (l1 ++ x :: l2)%list = (l1 ++ y :: l2)%list.
Proof. induction l1 as [|z l1 IH]; [done|]. simpl. f_equal. exact IH. Qed.

Section Machine.

Variable W : Type.

Implicit Types (s : Step W) (ss : list (Step W)) (c : Config W).
Implicit Types (arg_values : gmap string value) (w : W).

Lemma consistent_initial ss arg_values w :
  Forall fresh ss -> consistent (initial ss arg_values w).
Proof.
  intros Hfresh i x Hx. cbn in *. rewrite Forall_lookup in Hfresh.
  destruct (Hfresh i x Hx) as [-> _]. unfold expected.
  by rewrite andb_false_r.
Qed.

(** The three moves. *)
Lemma moves_inv c c' :
  moves c c' ->
  exists s s',
    c_fault c = None /\
    c_steps c !! c_pc c = Some s /\
    c_steps c' = <[c_pc c := s']> (c_steps c) /\
    ((c_inside c = false /\ s' = logger_enter s /\
      c_pc c' = c_pc c /\ c_inside c' = true /\ c_fault c' = None)
     \/ (c_inside c = true /\ (exists o, s' = logger_exit (set_outputs o s)) /\
         c_pc c' = S (c_pc c) /\ c_inside c' = false /\ c_fault c' = None)
     \/ (c_inside c = true /\ (exists o, s' = set_outputs o s) /\
         c_pc c' = c_pc c /\ c_inside c' = true /\ exists f, c_fault c' = Some f)).
Proof.
  unfold moves, advance. destruct (c_fault c) as [f|] eqn:Hf; [discriminate|].
  destruct (c_steps c !! c_pc c) as [s|] eqn:Hs; [|discriminate].
  destruct (c_inside c) eqn:Hin.
  - destruct (step_body_shape W s (c_arg_values c) (c_world c)) as [o Ho].
    destruct (ex_fault (step_body s (c_arg_values c) (c_world c))) as [f|] eqn:Hb.
    + intros [= <-]. exists s, (ex_step (step_body s (c_arg_values c) (c_world c))).
      repeat split; cbn. right; right. rewrite Ho. repeat split; eauto.
    + intros [= <-].
      exists s, (logger_exit (ex_step (step_body s (c_arg_values c) (c_world c)))).
      repeat split; cbn. right; left. rewrite Ho. repeat split; eauto.
  - intros [= <-]. exists s, (logger_enter s). repeat split; cbn. by left.
Qed.

Lemma consistent_moves c c' : consistent c -> moves c c' -> consistent c'.
Proof.
  intros Hc Hm.
  destruct (moves_inv _ _ Hm) as (s & s' & Hf & Hs & Hsteps & Hcase).
  intros i x Hx. rewrite Hsteps in Hx.
  pose proof (lookup_lt_Some _ _ _ Hs) as Hlt.
  destruct (decide (i = c_pc c)) as [->|Hne].
  - rewrite list_lookup_insert_eq in Hx by done. injection Hx as <-.
    specialize (Hc _ _ Hs). unfold expected in *.
    destruct Hcase as [(Hin & -> & Hpc & Hin' & _)
                      |[(Hin & [o ->] & Hpc & Hin' & _)|(Hin & [o ->] & Hpc & Hin' & _)]];
      rewrite Hpc, Hin'.
    + by rewrite Nat.ltb_irrefl, Nat.eqb_refl.
    + by rewrite (proj2 (Nat.ltb_lt _ _)) by lia.
    + rewrite Hin, Nat.ltb_irrefl, Nat.eqb_refl in Hc.
      by rewrite Nat.ltb_irrefl, Nat.eqb_refl.
  - rewrite list_lookup_insert_ne in Hx by done. rewrite (Hc _ _ Hx). unfold expected.
    destruct Hcase as [(Hin & _ & Hpc & Hin' & _)
                      |[(Hin & _ & Hpc & Hin' & _)|(Hin & _ & Hpc & Hin' & _)]];
      rewrite Hpc, ?Hin, ?Hin'.
    + by rewrite (proj2 (Nat.eqb_neq _ _)) by done.
    + destruct (Nat.ltb_spec i (c_pc c)) as [Hl|Hl].
      * by rewrite (proj2 (Nat.ltb_lt _ _)) by lia.
      * rewrite (proj2 (Nat.eqb_neq _ _)) by done.
        rewrite (proj2 (Nat.ltb_ge _ _)) by lia. by rewrite andb_false_r.
    + done.
Qed.

Lemma reachable_consistent ss arg_values w c :
  Forall fresh ss -> rtc moves (initial ss arg_values w) c -> consistent c.
Proof.
  intros Hfresh. revert c. apply rtc_ind_r.
  - by apply consistent_initial.
  - intros c c' _ Hm Hc. by eapply consistent_moves.
Qed.

(** The machine runs through the loop of [run_loop]. *)
Lemma machine_run (past todo : list (Step W)) arg_values w :
  let l := run_loop todo arg_values w in
  exists pc inside,
    let c_end := mkConfig (past ++ lp_steps l) pc inside
                          (lp_arg_values l) (lp_world l) (lp_fault l) in
    rtc moves (mkConfig (past ++ todo) (length past) false arg_values w None) c_end
    /\ advance c_end = None.
Proof.
  revert past arg_values w.
  induction todo as [|s rest IH]; intros past arg_values w; cbn.
  - exists (length past), false. split; [apply rtc_refl|].
    unfold advance. cbn. by rewrite lookup_ge_None_2 by (rewrite length_app; cbn; lia).
  - set (c0 := mkConfig (past ++ s :: rest) (length past) false arg_values w None).
    set (c1 := mkConfig (past ++ logger_enter s :: rest) (length past) true arg_values w None).
    assert (H01 : moves c0 c1).
    { unfold moves, advance, c0, c1. cbn.
      rewrite list_lookup_middle by done. by rewrite insert_middle. }
    unfold exec_step.
    destruct (ex_fault (step_body (logger_enter s) arg_values w)) as [f|] eqn:Hb; cbn.
    + rewrite Hb. cbn. exists (length past), true. split; [|done].
      eapply rtc_l; [exact H01|]. apply rtc_once.
      unfold moves, advance, c1. cbn. rewrite list_lookup_middle by done.
      rewrite Hb. by rewrite insert_middle.
    + set (r := step_body (logger_enter s) arg_values w) in *.
      destruct (IH (past ++ [logger_exit (ex_step r)])%list (ex_arg_values r) (ex_world r))
        as (pc & inside & Hrtc & Hend).
      cbv zeta in Hrtc, Hend.
      rewrite <- (app_assoc past [logger_exit (ex_step r)] rest) in Hrtc.
      rewrite <- (app_assoc past [logger_exit (ex_step r)]) in Hrtc, Hend.
      rewrite length_app, Nat.add_1_r in Hrtc. cbn [app] in Hrtc, Hend.
      exists pc, inside. split; [|exact Hend].
      eapply rtc_l; [exact H01|]. eapply rtc_l; [|exact Hrtc].
      unfold moves, advance, c1. cbn. rewrite list_lookup_middle by done.
      fold r. rewrite Hb. by rewrite insert_middle.
Qed.

(** C9: along any run of freshly constructed steps, every write of a stage
    is one forward move of [NOT_STARTED -> STARTED -> SUCCEEDED]: entering
    the block of a step takes it from [NOT_STARTED] to [STARTED], leaving
    it normally takes it from [STARTED] to [SUCCEEDED], leaving it by an
    exception leaves it [STARTED]; no stage of any step ever decreases, and
    the steps the loop has not reached are [NOT_STARTED].  The machine ends
    in the state that [run_loop] computes. *)
Theorem C9_stages_move_forward ss arg_values w :
  Forall fresh ss ->
  (exists c_end,
     rtc moves (initial ss arg_values w) c_end /\ advance c_end = None /\
     c_steps c_end = lp_steps (run_loop ss arg_values w) /\
     c_fault c_end = lp_fault (run_loop ss arg_values w)) /\
  (forall c, rtc moves (initial ss arg_values w) c ->
     forall i x, ((c_pc c < i)%nat \/ (i = c_pc c /\ c_inside c = false)) ->
                 c_steps c !! i = Some x -> stage x = NOT_STARTED) /\
  (forall c c', rtc moves (initial ss arg_values w) c -> moves c c' ->
     exists s s',
       c_steps c !! c_pc c = Some s /\
       c_steps c' = <[c_pc c := s']> (c_steps c) /\
       (if c_inside c
        then stage s = STARTED /\
             stage s' = match c_fault c' with Some _ => STARTED | None => SUCCEEDED end
        else stage s = NOT_STARTED /\ stage s' = STARTED) /\
       (stage s' = stage s \/ stage_next (stage s) (stage s')) /\
       (forall i x x', c_steps c !! i = Some x -> c_steps c' !! i = Some x' ->
                       stage_le (stage x) (stage x'))).
Proof.
  intros Hfresh. split; [|split].
  - destruct (machine_run [] ss arg_values w) as (pc & inside & Hrtc & Hend).
    cbn in Hrtc, Hend. eexists. split; [exact Hrtc|]. by split.
  - intros c Hr i x Hi Hx. rewrite (reachable_consistent _ _ _ _ Hfresh Hr _ _ Hx).
    unfold expected. destruct Hi as [Hi|[-> ->]].
    + rewrite (proj2 (Nat.ltb_ge _ _)) by lia.
      by rewrite (proj2 (Nat.eqb_neq _ _)) by lia.
    + by rewrite Nat.ltb_irrefl, andb_false_r.
  - intros c c' Hr Hm.
    pose proof (reachable_consistent _ _ _ _ Hfresh Hr) as Hc.
    destruct (moves_inv _ _ Hm) as (s & s' & Hf & Hs & Hsteps & Hcase).
    pose proof (Hc _ _ Hs) as Hst. unfold expected in Hst.
    rewrite Nat.ltb_irrefl, Nat.eqb_refl in Hst. cbn in Hst.
    assert (Hwrite : if c_inside c
        then stage s = STARTED /\
             stage s' = match c_fault c' with Some _ => STARTED | None => SUCCEEDED end
        else stage s = NOT_STARTED /\ stage s' = STARTED).
    { destruct Hcase as [(Hin & -> & _)
                        |[(Hin & [o ->] & _ & _ & Hf')|(Hin & [o ->] & _ & _ & [f Hf'])]];
        rewrite Hin in *; rewrite ?Hf'; by cbn. }
    assert (Hnext : stage s' = stage s \/ stage_next (stage s) (stage s')).
    { destruct (c_inside c); destruct Hwrite as [-> ->].
      - destruct (c_fault c'); [by left|right; constructor].
      - right; constructor. }
    exists s, s'. repeat split; try done.
    intros i x x' Hx Hx'. rewrite Hsteps in Hx'.
    destruct (decide (i = c_pc c)) as [->|Hne].
    + rewrite list_lookup_insert_eq in Hx' by (by eapply lookup_lt_Some).
      rewrite Hs in Hx. injection Hx as <-. injection Hx' as <-.
      destruct Hnext as [->|Hn]; [unfold stage_le; lia|by apply stage_next_le].
    + rewrite list_lookup_insert_ne in Hx' by done.
      rewrite Hx in Hx'. injection Hx' as <-. unfold stage_le. lia.
Qed.

End Machine.

(** * The properties on sample runs *)

Example format_not_found :
  py_format FText (message ProjectFileNotFoundException) [("project_filename", "/x.qgs")]
  = Some ("Project file " ++ dquote ++ "/x.qgs" ++ dquote ++ " does not exist").
Proof. reflexivity. Qed.

(** The interpolation fails when the raise site does not supply a field of
    the template (here [xml_error]). *)
Example format_missing_field :
  py_format FText (message InvalidXmlFileException)
    [("project_filename", "/x.qgs"); ("error", "boom")] = None.
Proof. reflexivity. Qed.

(** The constructor accepts the steps of the samples. *)
Example scenario2_constructed :
  build [ Step_new "Project Validity Check" ["project_filename"] (returning VNone) [] [] [];
          Step_new "Opening Check" ["project_filename"]
            (raising (RaiseDomain ProjectFileNotFoundException
                        [("project_filename", "/x.qgs")]))
            ["project"] [] ["project"];
          Step_new "Layer Validity Check" ["project"] (returning (VList []))
            ["layers_summary"] ["layers_summary"] [] ]
  = Ok scenario2.
Proof. reflexivity. Qed.

Example mismatch_step_constructed :
  Step_new "Pair" [] (returning (VTuple [VInt 1; VInt 2; VInt 3])) ["a"; "b"] ["a"] ["b"]
  = Ok mismatch_step.
Proof. reflexivity. Qed.

Example scenario1_document :
  documents (events (process stage_as_int working_sinks scenario1 sample_args None tt))
  = [ "{" ++ newline
      ++ "  " ++ quote "steps" ++ ": [" ++ newline
      ++ "    {" ++ newline
      ++ "      " ++ quote "name" ++ ": " ++ quote "Opening Check" ++ "," ++ newline
      ++ "      " ++ quote "outputs" ++ ": {}," ++ newline
      ++ "      " ++ quote "stage" ++ ": 2" ++ newline
      ++ "    }," ++ newline
      ++ "    {" ++ newline
      ++ "      " ++ quote "name" ++ ": " ++ quote "Generate Thumbnail Image" ++ "," ++ newline
      ++ "      " ++ quote "outputs" ++ ": {}," ++ newline
      ++ "      " ++ quote "stage" ++ ": 2" ++ newline
      ++ "    }" ++ newline
      ++ "  ]" ++ newline
      ++ "}" ]%string.
Proof. vm_compute. reflexivity. Qed.

(** The document of scenario 2, written to a file: the keys of every object
    in order, two spaces per level. *)
Example scenario2_document :
  events (process stage_as_int working_sinks scenario2 sample_args (Some "/tmp/feedback.json") tt)
  = [ Opened "/tmp/feedback.json";
      Dumped (ToFile "/tmp/feedback.json")
        ("{" ++ newline
         ++ "  " ++ quote "error" ++ ": "
         ++ dquote ++ "Project file \" ++ dquote ++ "/x.qgs\" ++ dquote ++ " does not exist"
         ++ dquote ++ "," ++ newline
         ++ "  " ++ quote "error_stack" ++ ": [" ++ newline
         ++ "    " ++ dquote ++ "  File \" ++ dquote ++ "process_projectfile.py\" ++ dquote
         ++ ", line 250, in process_projectfile" ++ dquote ++ "," ++ newline
         ++ "    " ++ quote "  File callable.py, line 1, in callable" ++ newline
         ++ "  ]," ++ newline
         ++ "  " ++ quote "steps" ++ ": [" ++ newline
         ++ "    {" ++ newline
         ++ "      " ++ quote "name" ++ ": " ++ quote "Project Validity Check" ++ "," ++ newline
         ++ "      " ++ quote "outputs" ++ ": {}," ++ newline
         ++ "      " ++ quote "stage" ++ ": 2" ++ newline
         ++ "    }," ++ newline
         ++ "    {" ++ newline
         ++ "      " ++ quote "name" ++ ": " ++ quote "Opening Check" ++ "," ++ newline
         ++ "      " ++ quote "outputs" ++ ": {}," ++ newline
         ++ "      " ++ quote "stage" ++ ": 1" ++ newline
         ++ "    }," ++ newline
         ++ "    {" ++ newline
         ++ "      " ++ quote "name" ++ ": " ++ quote "Layer Validity Check" ++ "," ++ newline
         ++ "      " ++ quote "outputs" ++ ": {}," ++ newline
         ++ "      " ++ quote "stage" ++ ": 0" ++ newline
         ++ "    }" ++ newline
         ++ "  ]" ++ newline
         ++ "}")%string ].
Proof. vm_compute. reflexivity. Qed.

(** Scenario 2: the message names the file. *)
Example scenario2_error :
  error (feedback (run scenario2 sample_args tt))
  = Some ("Project file " ++ dquote ++ "/x.qgs" ++ dquote ++ " does not exist").
Proof. vm_compute. reflexivity. Qed.

(** The steps declared on lines 219-244 pass the checks of the constructor,
    whatever the four callables are. *)
Example declared_steps_built (W : Type) (m1 m2 m3 m4 : Method W) :
  exists ss, build (declared_steps m1 m2 m3 m4) = Ok ss /\
             map name ss = ["Project Validity Check"; "Opening Check";
                            "Layer Validity Check"; "Generate Thumbnail Image"] /\
             Forall fresh ss.
Proof. eexists. split; [reflexivity|]. split; [reflexivity|]. by repeat constructor. Qed.

Lemma C1_witness :
  let ss := scenario2 in
  let fb := feedback (run ss sample_args tt) in
  (forall i, (1 <= i < 2)%nat -> r_stage <$> steps fb !! (i - 1)%nat = Some SUCCEEDED) /\
  (exists st, r_stage <$> steps fb !! (2 - 1)%nat = Some st /\ st <> SUCCEEDED) /\
  (forall i, (2 < i <= length ss)%nat ->
             r_stage <$> steps fb !! (i - 1)%nat = Some NOT_STARTED) /\
  (exists msg, error fb = Some msg /\ msg <> EmptyString) /\
  (exists trace, error_stack fb = Some trace /\ trace <> []) /\
  length (steps fb) = length ss /\
  map r_name (steps fb) = map name ss.
Proof.
  eapply (C1_domain_failure_at_step unit scenario2 sample_args tt 2).
  - vm_compute. by repeat constructor.
  - lia.
  - vm_compute. reflexivity.
  - vm_compute. by repeat split.
  - vm_compute. reflexivity.
Defined.

Lemma C2_witness :
  let ss := scenario1 in
  let fb := feedback (run ss sample_args tt) in
  length (steps fb) = length ss /\
  map r_name (steps fb) = map name ss /\
  Forall (fun r => r_stage r = SUCCEEDED) (steps fb) /\
  error fb = None /\
  error_stack fb = None.
Proof.
  apply (C2_no_failure_all_succeeded unit scenario1 sample_args tt).
  vm_compute. by repeat split.
Defined.



Lemma C4_witness :
  let reached := run_loop [first_open; second_open; between] ∅ tt in
  lp_arg_values reached !! "project" = Some (VObject 7) /\
  (forall args_b, lookup_args (lp_arg_values reached) (arg_names last_step) = Ok args_b ->
     forall i, arg_names last_step !! i = Some "project" -> args_b !! i = Some (VObject 7)) /\
  ((forall n, n ∈ arg_names last_step -> is_Some (lp_arg_values reached !! n)) ->
     exists args_b, lookup_args (lp_arg_values reached) (arg_names last_step) = Ok args_b).
Proof.
  apply (C4_public_return_propagates unit [first_open] second_open [between] last_step
           ∅ tt "project" (VObject 7) [VStr "/x.qgs"] (VObject 7) tt
           (<["project" := VObject 7]> ∅)).
  - vm_compute. by repeat split.
  - vm_compute. reflexivity.
  - reflexivity.
  - vm_compute. reflexivity.
  - apply (bool_decide_unpack _). vm_compute. exact I.
  - vm_compute. reflexivity.
  - apply (bool_decide_unpack _). vm_compute. exact I.
  - apply (bool_decide_unpack _). vm_compute. exact I.
Defined.

Lemma C5_witness :
  let rep := process stage_as_int working_sinks fault_steps sample_args None tt in
  let fb := feedback (report_run rep) in
  error fb = None /\
  error_stack fb = None /\
  raised rep = Some (OtherExn "NameError" "project_filename").
Proof.
  destruct (C5_catches_exactly_domain unit stage_as_int working_sinks fault_steps
              sample_args None tt) as (_ & Herr & Hstack & _ & Hraised).
  split; [exact Herr|]. split; [exact Hstack|]. exact Hraised.
Defined.

(** C5, as stated, fails: the last step raises outside the family and the
    [except] clause does not catch it, but the encoder raises inside the
    [finally] clause and it is that [TypeError] which reaches the caller. *)
Lemma C5_counterexample :
  exists rep,
    process_projectfile stage_as_int working_sinks ok_check ok_load path_layers bad_thumbnail
      (VObject 1) (VObject 2) None tt = Ok rep /\
    (fault_exn <$> pending (report_run rep)) = Some (OtherExn "RuntimeError" "boom") /\
    raised rep = Some (OtherExn "TypeError" "Object is not JSON serializable") /\
    raised rep <> Some (OtherExn "RuntimeError" "boom").
Proof.
  eexists. split; [reflexivity|]. vm_compute. by repeat split.
Qed.

(** A feedback file in a directory that does not exist: [open] raises
    inside the [finally] clause, nothing is written and its error replaces
    the exception that was propagating. *)
Example unopenable_feedback_file :
  let rep := process stage_as_int sample_sinks fault_steps sample_args
               (Some "/missing/feedback.json") tt in
  (fault_exn <$> pending (report_run rep)) = Some (OtherExn "NameError" "project_filename") /\
  events rep = [] /\
  raised rep = Some (OtherExn "FileNotFoundError" "[Errno 2] No such file or directory").
Proof. vm_compute. by repeat split. Qed.

(** A feedback file on a device that takes no text: the file is opened,
    the text does not reach it, and the error of the device leaves the
    function, also when the encoder has raised before. *)
Example full_device :
  exists rep,
    process_projectfile stage_as_int sample_sinks ok_check ok_load path_layers ok_thumbnail
      (VObject 1) (VObject 2) (Some "/dev/full") tt = Ok rep /\
    events rep = [Opened "/dev/full"] /\
    raised rep = Some (OtherExn "OSError" "[Errno 28] No space left on device").
Proof. eexists. split; [reflexivity|]. vm_compute. by split. Qed.

(** An empty file name is false on line 279: the document is printed. *)
Example empty_file_name :
  events (process stage_as_int working_sinks scenario1 sample_args (Some EmptyString) tt)
  = events (process stage_as_int working_sinks scenario1 sample_args None tt).
Proof. vm_compute. reflexivity. Qed.

(** A summary that cannot be encoded, written to a file: the file is left
    with the beginning of the document, up to the key of the value that
    the encoder refused. *)
Example truncated_feedback_file :
  exists rep,
    process_projectfile stage_as_int working_sinks ok_check ok_load path_layers ok_thumbnail
      (VObject 1) (VObject 2) (Some "/tmp/feedback.json") tt = Ok rep /\
    raised rep = Some (OtherExn "TypeError" "Object is not JSON serializable") /\
    events rep
    = [ Opened "/tmp/feedback.json";
        Truncated "/tmp/feedback.json"
          ("{" ++ newline
           ++ "  " ++ quote "steps" ++ ": [" ++ newline
           ++ "    {" ++ newline
           ++ "      " ++ quote "name" ++ ": " ++ quote "Project Validity Check" ++ ","
           ++ newline
           ++ "      " ++ quote "outputs" ++ ": {}," ++ newline
           ++ "      " ++ quote "stage" ++ ": 2" ++ newline
           ++ "    }," ++ newline
           ++ "    {" ++ newline
           ++ "      " ++ quote "name" ++ ": " ++ quote "Opening Check" ++ "," ++ newline
           ++ "      " ++ quote "outputs" ++ ": {}," ++ newline
           ++ "      " ++ quote "stage" ++ ": 2" ++ newline
           ++ "    }," ++ newline
           ++ "    {" ++ newline
           ++ "      " ++ quote "name" ++ ": " ++ quote "Layer Validity Check" ++ ","
           ++ newline
           ++ "      " ++ quote "outputs" ++ ": {" ++ newline
           ++ "        " ++ quote "layers_summary" ++ ": [" ++ newline
           ++ "          {" ++ newline
           ++ "            " ++ quote "filename" ++ ": ")%string ].
Proof. eexists. split; [reflexivity|]. vm_compute. by repeat split. Qed.

Lemma C6_witness :
  (exists e, Step_new (W:=unit) "Stray" [] (returning VNone) ["a"] ["b"] [] = Err e) /\
  forall (stage_value : Stage -> value)
         (io : Sinks unit)
         (before after : list (result (Step unit) string))
         (arg_values : gmap string value) (fn : option string) (w : unit),
    exists e,
      pipeline stage_value io
        (before ++ Step_new "Stray" [] (returning VNone) ["a"] ["b"] [] :: after)
        arg_values fn w = Err e.
Proof.
  apply (C6_subset_checked_at_construction unit "Stray" [] (returning VNone) ["a"] ["b"] []).
  left. apply (bool_decide_unpack _). vm_compute. exact I.
Defined.

Lemma C7_witness :
  (forall n, return_names mismatch_step = [n] ->
     return_map (return_names mismatch_step) (VTuple [VInt 1; VInt 2; VInt 3])
     = Some {[n := VTuple [VInt 1; VInt 2; VInt 3]]}) /\
  ((1 < length (return_names mismatch_step))%nat ->
   forall vals, py_iter (VTuple [VInt 1; VInt 2; VInt 3]) = Some vals ->
     return_map (return_names mismatch_step) (VTuple [VInt 1; VInt 2; VInt 3])
     = Some (bind_returns (zip (return_names mismatch_step) vals)) /\
     dom (bind_returns (zip (return_names mismatch_step) vals))
     = list_to_set (take (length vals) (return_names mismatch_step))) /\
  (forall rm,
     return_map (return_names mismatch_step) (VTuple [VInt 1; VInt 2; VInt 3]) = Some rm ->
     (ex_fault (exec_step mismatch_step ∅ tt) = None <->
      forall n, n ∈ output_names mismatch_step \/ n ∈ public_returns mismatch_step ->
                is_Some (rm !! n))).
Proof.
  apply (C7_returns_bound_by_zip unit mismatch_step ∅ tt [] (VTuple [VInt 1; VInt 2; VInt 3]) tt).
  - reflexivity.
  - reflexivity.
Defined.

(** C7, as stated, fails: the constructor accepts a step with two return
    names whose callable returns three values, and the run binds the first
    two, drops the third and marks the step [SUCCEEDED]. *)
Lemma C7_counterexample :
  Step_new "Pair" [] (returning (VTuple [VInt 1; VInt 2; VInt 3])) ["a"; "b"] ["a"] ["b"]
  = Ok mismatch_step /\
  method mismatch_step [] tt = (Returns (VTuple [VInt 1; VInt 2; VInt 3]), tt) /\
  length (return_names mismatch_step) = 2%nat /\
  let r := exec_step mismatch_step ∅ tt in
  ex_fault r = None /\
  stage (ex_step r) = SUCCEEDED /\
  outputs (ex_step r) = {["a" := VInt 1]} /\
  ex_arg_values r = {["b" := VInt 2]} /\
  error (feedback (run [mismatch_step] ∅ tt)) = None.
Proof. vm_compute. by repeat split. Qed.


Lemma C10_witness :
  let before := run_loop [validity_check] sample_args tt in
  let x := exec_step failing_open (lp_arg_values before) (lp_world before) in
  let result := run ([validity_check] ++ failing_open :: [layer_check]) sample_args tt in
  ex_arg_values x = lp_arg_values before /\
  outputs (ex_step x) = outputs failing_open /\
  ex_fault x
  = Some (mkFault
            (raise_stmt (RaiseDomain ProjectFileNotFoundException
                           [("project_filename", "/x.qgs")]))
            [here 250; "  File callable.py, line 1, in callable"]) /\
  run_arg_values result = lp_arg_values before /\
  r_outputs <$> steps (feedback result) !! length [validity_check] = Some (outputs failing_open).
Proof.
  apply (C10_raise_writes_nothing unit [validity_check] failing_open [layer_check]
           sample_args tt [VObject 1]
           (RaiseDomain ProjectFileNotFoundException [("project_filename", "/x.qgs")])
           ["  File callable.py, line 1, in callable"] tt).
  - vm_compute. by repeat split.
  - vm_compute. reflexivity.
  - reflexivity.
Defined.

Lemma C9_witness :
  (exists c_end,
     rtc moves (initial scenario2 sample_args tt) c_end /\ advance c_end = None /\
     c_steps c_end = lp_steps (run_loop scenario2 sample_args tt) /\
     c_fault c_end = lp_fault (run_loop scenario2 sample_args tt)) /\
  (forall c, rtc moves (initial scenario2 sample_args tt) c ->
     forall i x, ((c_pc c < i)%nat \/ (i = c_pc c /\ c_inside c = false)) ->
                 c_steps c !! i = Some x -> stage x = NOT_STARTED) /\
  (forall c c', rtc moves (initial scenario2 sample_args tt) c -> moves c c' ->
     exists s s',
       c_steps c !! c_pc c = Some s /\
       c_steps c' = <[c_pc c := s']> (c_steps c) /\
       (if c_inside c
        then stage s = STARTED /\
             stage s' = match c_fault c' with Some _ => STARTED | None => SUCCEEDED end
        else stage s = NOT_STARTED /\ stage s' = STARTED) /\
       (stage s' = stage s \/ stage_next (stage s) (stage s')) /\
       (forall i x x', c_steps c !! i = Some x -> c_steps c' !! i = Some x' ->
                       stage_le (stage x) (stage x'))).
Proof.
  apply (C9_stages_move_forward unit scenario2 sample_args tt).
  by repeat constructor.
Defined.

(** The stages of scenario 2 as the machine passes through them. *)
Example scenario2_stages :
  stages (lp_steps (run_loop scenario2 sample_args tt)) = [SUCCEEDED; STARTED; NOT_STARTED].
Proof. reflexivity. Qed.

(** * Further properties of the loop *)

(** [KeyError] on line 249 names the first input name that the registry
    lacks. *)
Lemma lookup_args_Err (arg_values : gmap string value) (names : list string) (n : string) :
  lookup_args arg_values names = Err n <->
  exists i, names !! i = Some n /\ arg_values !! n = None /\
            forall j m, (j < i)%nat -> names !! j = Some m -> is_Some (arg_values !! m).
Proof.
  induction names as [|n' rest IH]; cbn.
  - split; [discriminate|]. intros (i & Hi & _). by rewrite lookup_nil in Hi.
  - destruct (arg_values !! n') as [v|] eqn:Hn'.
    + assert (Hsame : match lookup_args arg_values rest with
                      | Ok vs => Ok (v :: vs)
                      | Err k => Err k
                      end = Err n <-> lookup_args arg_values rest = Err n).
      { destruct (lookup_args arg_values rest); split; congruence. }
      rewrite Hsame, IH. split.
      * intros (i & Hi & Hn & Hbefore). exists (S i). repeat split; [done..|].
        intros [|j] m Hj Hm; cbn in Hm; [injection Hm as <-; by rewrite Hn'|].
        apply (Hbefore j m); [lia|done].
      * intros (i & Hi & Hn & Hbefore).
        destruct i as [|i]; cbn in Hi; [injection Hi as <-; congruence|].
        exists i. repeat split; [done..|].
        intros j m Hj Hm. apply (Hbefore (S j) m); [lia|done].
    + split.
      * intros [= ->]. exists 0%nat. repeat split; [done..|]. intros j m Hj. lia.
      * intros (i & Hi & Hn & Hbefore). destruct i as [|i]; cbn in Hi; [by injection Hi as ->|].
        destruct (Hbefore 0%nat n') as [v Hv]; [lia|done|congruence].
Qed.

(** The copy of lines 259-263 up to the first name that is not bound. *)
Lemma copy_names_stops (rm : gmap string value) (bound : list string) (n : string)
    (rest : list string) (target : gmap string value) :
  (forall x, x ∈ bound -> is_Some (rm !! x)) ->
  rm !! n = None ->
  snd (copy_names rm (bound ++ n :: rest) target) = Some n /\
  forall X, fst (copy_names rm (bound ++ n :: rest) target) !! X
            = if bool_decide (X ∈ bound) then rm !! X else target !! X.
Proof.
  revert target. induction bound as [|b bound IH]; intros target Hbound Hn; cbn.
  - rewrite Hn. cbn. split; [done|]. intros X.
    by rewrite bool_decide_eq_false_2 by apply not_elem_of_nil.
  - destruct (Hbound b) as [v Hv]; [apply elem_of_cons; by left|]. rewrite Hv.
    destruct (IH (<[b := v]> target)) as [Hsnd Hfst]; [|done|].
    { intros x Hx. apply Hbound, elem_of_cons. by right. }
    split; [done|]. intros X. rewrite Hfst.
    destruct (decide (X ∈ bound)) as [Hin|Hnin].
    + rewrite !bool_decide_eq_true_2; [done| |done]. apply elem_of_cons. by right.
    + rewrite (bool_decide_eq_false_2 (X ∈ bound)) by done.
      destruct (decide (X = b)) as [->|Hne].
      * rewrite bool_decide_eq_true_2 by (apply elem_of_cons; by left).
        by rewrite lookup_insert_eq, Hv.
      * rewrite bool_decide_eq_false_2; [by rewrite lookup_insert_ne|].
        intros [?|?]%elem_of_cons; done.
Qed.

(** The copy never removes a name, and the names it adds are among those
    it was given. *)
Lemma copy_names_dom (rm : gmap string value) (names : list string)
    (target : gmap string value) :
  dom target ⊆ dom (fst (copy_names rm names target)) /\
  dom (fst (copy_names rm names target)) ⊆ dom target ∪ list_to_set names.
Proof.
  revert target. induction names as [|n rest IH]; intros target; cbn; [set_solver|].
  destruct (rm !! n) as [v|]; cbn; [|set_solver].
  destruct (IH (<[n := v]> target)) as [H1 H2]. rewrite dom_insert_L in H1, H2.
  set_solver.
Qed.

Lemma return_map_none (rv : value) : return_map [] rv = Some ∅.
Proof. reflexivity. Qed.

Lemma return_map_single (n : string) (rv : value) : return_map [n] rv = Some {[n := rv]}.
Proof. unfold return_map, wrap_returns, bind_returns. cbn. by rewrite insert_empty. Qed.

Section Loop.

Variable W : Type.

Implicit Types (s : Step W) (ss pre post : list (Step W)).
Implicit Types (arg_values : gmap string value) (w : W).

(** What a step does once its arguments are found and its callable has
    returned. *)
Lemma exec_step_returned s arg_values w (args : list value) (rv : value) (w' : W) :
  lookup_args arg_values (arg_names s) = Ok args ->
  method s args w = (Returns rv, w') ->
  exec_step s arg_values w
  = match return_map (return_names s) rv with
    | None =>
        mkExec W (logger_enter s) arg_values w'
          (Some (mkFault (OtherExn "TypeError" "zip argument #2 must support iteration")
                         [here 256]))
    | Some rm =>
        match copy_names rm (output_names s) (outputs s) with
        | (outs, Some n) =>
            mkExec W (set_outputs outs (logger_enter s)) arg_values w'
                   (Some (key_error 260 n))
        | (outs, None) =>
            match copy_names rm (public_returns s) arg_values with
            | (reg, Some n) =>
                mkExec W (set_outputs outs (logger_enter s)) reg w' (Some (key_error 263 n))
            | (reg, None) =>
                mkExec W (logger_exit (set_outputs outs (logger_enter s))) reg w' None
            end
        end
    end.
Proof.
  intros Hargs Hcall. unfold exec_step, step_body.
  cbn [logger_enter set_stage arg_names method return_names output_names public_returns
       outputs].
  rewrite Hargs, Hcall.
  destruct (return_map (return_names s) rv) as [rm|]; [|done].
  destruct (copy_names rm (output_names s) (outputs s)) as [outs [n|]]; [done|].
  by destruct (copy_names rm (public_returns s) arg_values) as [reg [n|]].
Qed.

Lemma run_of_fault pre s post arg_values w (f : Fault) :
  no_step_fails pre arg_values w ->
  let before := run_loop pre arg_values w in
  let x := exec_step s (lp_arg_values before) (lp_world before) in
  ex_fault x = Some f ->
  let r := run (pre ++ s :: post) arg_values w in
  run_steps r = (lp_steps before ++ ex_step x :: post)%list /\
  run_arg_values r = ex_arg_values x /\
  run_world r = ex_world x /\
  steps (feedback r) = map step_record (lp_steps before ++ ex_step x :: post)%list /\
  match fault_exn f with
  | DomainExn e =>
      error (feedback r) = Some (error_message e) /\
      error_stack (feedback r) = Some (fault_tb f) /\ pending r = None
  | OtherExn _ _ =>
      error (feedback r) = None /\ error_stack (feedback r) = None /\ pending r = Some f
  end.
Proof.
  intros Hpre before x Hf r. unfold r, run.
  rewrite (run_loop_fault_at W pre s post arg_values w f Hpre Hf). fold before. fold x.
  cbn. by destruct (fault_exn f).
Qed.

(** X1. A step that names an input the registry lacks: line 249 raises
    [KeyError] for the first such name, the callable is not called (the
    world is as the earlier steps left it), nothing is written to the
    registry or to the outputs of the step, and the [except] clause does not
    catch the error: the feedback has no [error] key and the [KeyError] is
    still propagating after the [finally] clause. *)
Theorem missing_input_is_not_caught pre s post arg_values w (i : nat) (n : string) :
  no_step_fails pre arg_values w ->
  let before := run_loop pre arg_values w in
  arg_names s !! i = Some n ->
  lp_arg_values before !! n = None ->
  (forall j m, (j < i)%nat -> arg_names s !! j = Some m ->
               is_Some (lp_arg_values before !! m)) ->
  let r := run (pre ++ s :: post) arg_values w in
  pending r = Some (mkFault (OtherExn "KeyError" n) [here 249]) /\
  error (feedback r) = None /\
  error_stack (feedback r) = None /\
  run_world r = lp_world before /\
  run_arg_values r = lp_arg_values before /\
  r_outputs <$> steps (feedback r) !! length pre = Some (outputs s).
Proof.
  intros Hpre before Hi Hn Hbefore r.
  assert (Hargs : lookup_args (lp_arg_values before) (arg_names s) = Err n).
  { apply lookup_args_Err. by exists i. }
  assert (Hx : exec_step s (lp_arg_values before) (lp_world before)
               = mkExec W (logger_enter s) (lp_arg_values before) (lp_world before)
                        (Some (key_error 249 n))).
  { unfold exec_step, step_body. cbn [logger_enter set_stage arg_names]. by rewrite Hargs. }
  destruct (run_of_fault pre s post arg_values w (key_error 249 n) Hpre)
    as (Hsteps & Hreg & Hworld & Hfb & Herr & Hstack & Hpend).
  { fold before. by rewrite Hx. }
  fold before in Hsteps, Hreg, Hworld, Hfb. rewrite Hx in Hsteps, Hreg, Hworld, Hfb.
  repeat split; try done.
  unfold r. rewrite Hfb, list_lookup_fmap.
  rewrite lookup_app_r by (unfold before; rewrite run_loop_length; lia).
  unfold before. by rewrite run_loop_length, Nat.sub_diag.
Qed.

(** X2. A step with several return names whose callable returns a value
    that cannot be iterated: [zip] raises [TypeError] on line 256 after the
    callable has run, nothing is bound, and the error is not caught by the
    [except] clause. *)
Theorem non_iterable_result_is_not_caught pre s post arg_values w
    (args : list value) (rv : value) (w' : W) :
  no_step_fails pre arg_values w ->
  let before := run_loop pre arg_values w in
  lookup_args (lp_arg_values before) (arg_names s) = Ok args ->
  method s args (lp_world before) = (Returns rv, w') ->
  (1 < length (return_names s))%nat ->
  py_iter rv = None ->
  let r := run (pre ++ s :: post) arg_values w in
  (exists f, pending r = Some f /\ fault_tb f = [here 256] /\
             exists msg, fault_exn f = OtherExn "TypeError" msg) /\
  error (feedback r) = None /\
  run_world r = w' /\
  run_arg_values r = lp_arg_values before /\
  r_outputs <$> steps (feedback r) !! length pre = Some (outputs s).
Proof.
  intros Hpre before Hargs Hcall Hlen Hiter r.
  assert (Hrm : return_map (return_names s) rv = None).
  { unfold return_map, wrap_returns. apply Nat.ltb_lt in Hlen. by rewrite Hlen, Hiter. }
  pose proof (exec_step_returned s _ _ args rv w' Hargs Hcall) as Hx. rewrite Hrm in Hx.
  destruct (run_of_fault pre s post arg_values w _ Hpre (f_equal ex_fault Hx))
    as (Hsteps & Hreg & Hworld & Hfb & Herr & Hstack & Hpend).
  fold before in Hsteps, Hreg, Hworld, Hfb. rewrite Hx in Hsteps, Hreg, Hworld, Hfb.
  split; [eexists; split; [exact Hpend|]; split; [done|by eexists]|].
  repeat split; try done.
  unfold r. rewrite Hfb, list_lookup_fmap.
  rewrite lookup_app_r by (unfold before; rewrite run_loop_length; lia).
  unfold before. by rewrite run_loop_length, Nat.sub_diag.
Qed.

(** X3. A step whose callable returned, but whose return map lacks one of
    its output names (the callable returned fewer values than the step has
    return names): the output names before the first unbound one are already
    written when line 260 raises [KeyError], they stay in the outputs that
    the feedback reports for the step, the registry is not written, and the
    error is not caught by the [except] clause. *)
Theorem unbound_output_leaves_partial_outputs pre s post arg_values w
    (args : list value) (rv : value) (w' : W) (rm : gmap string value)
    (bound : list string) (n : string) (rest : list string) :
  no_step_fails pre arg_values w ->
  let before := run_loop pre arg_values w in
  lookup_args (lp_arg_values before) (arg_names s) = Ok args ->
  method s args (lp_world before) = (Returns rv, w') ->
  return_map (return_names s) rv = Some rm ->
  output_names s = (bound ++ n :: rest)%list ->
  (forall x, x ∈ bound -> is_Some (rm !! x)) ->
  rm !! n = None ->
  let r := run (pre ++ s :: post) arg_values w in
  pending r = Some (mkFault (OtherExn "KeyError" n) [here 260]) /\
  error (feedback r) = None /\
  run_arg_values r = lp_arg_values before /\
  exists outs,
    r_outputs <$> steps (feedback r) !! length pre = Some outs /\
    forall X, outs !! X = if bool_decide (X ∈ bound) then rm !! X else outputs s !! X.
Proof.
  intros Hpre before Hargs Hcall Hrm Hnames Hbound Hn r.
  destruct (copy_names_stops rm bound n rest (outputs s) Hbound Hn) as [Hsnd Hfst].
  rewrite <- Hnames in Hsnd, Hfst.
  pose proof (exec_step_returned s _ _ args rv w' Hargs Hcall) as Hx. rewrite Hrm in Hx.
  destruct (copy_names rm (output_names s) (outputs s)) as [outs o] eqn:Hcopy.
  cbn in Hsnd, Hfst. subst o.
  destruct (run_of_fault pre s post arg_values w _ Hpre (f_equal ex_fault Hx))
    as (Hsteps & Hreg & Hworld & Hfb & Herr & Hstack & Hpend).
  fold before in Hsteps, Hreg, Hworld, Hfb. rewrite Hx in Hsteps, Hreg, Hworld, Hfb.
  repeat split; try done.
  exists outs. split; [|done].
  unfold r. rewrite Hfb, list_lookup_fmap.
  rewrite lookup_app_r by (unfold before; rewrite run_loop_length; lia).
  unfold before. by rewrite run_loop_length, Nat.sub_diag.
Qed.

Lemma exec_step_dom s arg_values w :
  dom arg_values ⊆ dom (ex_arg_values (exec_step s arg_values w)) /\
  dom (ex_arg_values (exec_step s arg_values w))
  ⊆ dom arg_values ∪ list_to_set (public_returns s).
Proof.
  unfold exec_step, step_body.
  cbn [logger_enter set_stage arg_names method return_names output_names public_returns
       outputs].
  destruct (lookup_args arg_values (arg_names s)) as [args|n]; [|set_solver].
  destruct (method s args w) as [[rv|r frames] w']; [|set_solver].
  destruct (return_map (return_names s) rv) as [rm|]; [|set_solver].
  destruct (copy_names rm (output_names s) (outputs s)) as [outs [n|]]; [set_solver|].
  pose proof (copy_names_dom rm (public_returns s) arg_values) as Hdom.
  by destruct (copy_names rm (public_returns s) arg_values) as [reg [n|]].
Qed.

Lemma run_loop_dom ss arg_values w :
  dom arg_values ⊆ dom (lp_arg_values (run_loop ss arg_values w)) /\
  forall X, X ∈ dom (lp_arg_values (run_loop ss arg_values w)) ->
            X ∈ dom arg_values \/ exists s, s ∈ ss /\ X ∈ public_returns s.
Proof.
  revert arg_values w. induction ss as [|s rest IH]; intros arg_values w; cbn.
  - split; [done|]. intros X HX. by left.
  - destruct (exec_step_dom s arg_values w) as [Hlow Hup].
    destruct (ex_fault (exec_step s arg_values w)); cbn.
    + split; [done|]. intros X HX. apply Hup in HX. apply elem_of_union in HX as [HX|HX].
      * by left.
      * right. exists s. split; [apply elem_of_cons; by left|].
        by apply elem_of_list_to_set in HX.
    + destruct (IH (ex_arg_values (exec_step s arg_values w))
                   (ex_world (exec_step s arg_values w))) as [Hlow' Hup'].
      split; [set_solver|]. intros X HX. destruct (Hup' X HX) as [HX'|(s' & Hs' & HX')].
      * apply Hup in HX'. apply elem_of_union in HX' as [HX'|HX'].
        -- by left.
        -- right. exists s. split; [apply elem_of_cons; by left|].
           by apply elem_of_list_to_set in HX'.
      * right. exists s'. split; [apply elem_of_cons; by right|done].
Qed.

Lemma run_arg_values_loop ss arg_values w :
  run_arg_values (run ss arg_values w) = lp_arg_values (run_loop ss arg_values w).
Proof.
  unfold run. destruct (lp_fault (run_loop ss arg_values w)) as [f|]; [|done].
  by destruct (fault_exn f).
Qed.

Lemma run_world_loop ss arg_values w :
  run_world (run ss arg_values w) = lp_world (run_loop ss arg_values w).
Proof.
  unfold run. destruct (lp_fault (run_loop ss arg_values w)) as [f|]; [|done].
  by destruct (fault_exn f).
Qed.

(** X4. Whatever happens in a run, the registry never loses a name, every
    name it gains is a public return of some step, and a name that no step
    publicly returns keeps its initial value. *)
Theorem registry_only_grows ss arg_values w :
  let r := run ss arg_values w in
  dom arg_values ⊆ dom (run_arg_values r) /\
  (forall X, X ∈ dom (run_arg_values r) ->
             X ∈ dom arg_values \/ exists s, s ∈ ss /\ X ∈ public_returns s) /\
  (forall X, Forall (fun s => X ∉ public_returns s) ss ->
             run_arg_values r !! X = arg_values !! X).
Proof.
  intros r. unfold r. rewrite run_arg_values_loop.
  destruct (run_loop_dom ss arg_values w) as [Hlow Hup].
  split; [done|]. split; [done|]. intros X HX. by apply run_loop_frame.
Qed.

(** X5. The first step that fails, with any exception, ends the loop: the
    world and the registry of the run are those that this step left, so no
    later callable was called, and the records of the later steps are those
    of the steps as they were declared. *)
Theorem first_failure_ends_the_loop pre s post arg_values w (f : Fault) :
  no_step_fails pre arg_values w ->
  let before := run_loop pre arg_values w in
  let x := exec_step s (lp_arg_values before) (lp_world before) in
  ex_fault x = Some f ->
  let r := run (pre ++ s :: post) arg_values w in
  run_world r = ex_world x /\
  run_arg_values r = ex_arg_values x /\
  drop (S (length pre)) (run_steps r) = post /\
  drop (S (length pre)) (steps (feedback r)) = map step_record post.
Proof.
  intros Hpre before x Hf r.
  destruct (run_of_fault pre s post arg_values w f Hpre Hf)
    as (Hsteps & Hreg & Hworld & Hfb & _).
  fold before in Hsteps, Hfb. fold x in Hsteps, Hfb. fold r in Hsteps, Hfb.
  assert (Hlen : length (lp_steps before) = length pre)
    by (unfold before; apply run_loop_length).
  split; [done|]. split; [done|]. split.
  - rewrite Hsteps. rewrite <- Hlen.
    change (ex_step x :: post) with ([ex_step x] ++ post)%list.
    rewrite app_assoc, drop_app_length'; [done|]. rewrite length_app. cbn. lia.
  - rewrite Hfb, map_app. cbn [map]. rewrite <- Hlen, <- (length_map step_record).
    change (step_record (ex_step x) :: map step_record post)
      with ([step_record (ex_step x)] ++ map step_record post)%list.
    rewrite app_assoc, drop_app_length'; [done|]. rewrite length_app. cbn. lia.
Qed.

(** X6. A step whose callable returns and whose output names and public
    returns are all bound: each output name is recorded with the value
    bound to it and the other outputs are kept; each public return is
    written to the registry and every other name of the registry is kept,
    so a return name that is not public never reaches a later step. *)
Theorem returned_values_are_bound s arg_values w (args : list value) (rv : value) (w' : W)
    (rm : gmap string value) :
  lookup_args arg_values (arg_names s) = Ok args ->
  method s args w = (Returns rv, w') ->
  return_map (return_names s) rv = Some rm ->
  (forall n, n ∈ output_names s \/ n ∈ public_returns s -> is_Some (rm !! n)) ->
  let x := exec_step s arg_values w in
  ex_fault x = None /\
  ex_world x = w' /\
  (forall X, outputs (ex_step x) !! X
             = if bool_decide (X ∈ output_names s) then rm !! X else outputs s !! X) /\
  (forall X, ex_arg_values x !! X
             = if bool_decide (X ∈ public_returns s) then rm !! X else arg_values !! X).
Proof.
  intros Hargs Hcall Hrm Hall x. unfold x.
  rewrite (exec_step_returned s _ _ args rv w' Hargs Hcall), Hrm.
  pose proof (proj2 (copy_names_None rm (output_names s) (outputs s))
                (fun n Hn => Hall n (or_introl Hn))) as Ho.
  pose proof (proj2 (copy_names_None rm (public_returns s) arg_values)
                (fun n Hn => Hall n (or_intror Hn))) as Hp.
  destruct (copy_names rm (output_names s) (outputs s)) as [outs o] eqn:Eo.
  cbn in Ho. subst o.
  destruct (copy_names rm (public_returns s) arg_values) as [reg o] eqn:Ep.
  cbn in Hp. subst o. cbn.
  repeat split; [by apply copy_names_ok|by apply copy_names_ok].
Qed.

(** X7. The keys [error] and [error_stack] of the feedback come together:
    both are present exactly when the loop was left by an exception of the
    imported family, the function then does not raise it again, and the
    first entry of the trace is the call of line 250; when an exception is
    still propagating after the [finally] clause, neither key is
    present. *)
Theorem error_keys_come_together ss arg_values w :
  let r := run ss arg_values w in
  let fb := feedback r in
  (error fb = None <-> error_stack fb = None) /\
  (is_Some (error fb) <->
   exists f e, lp_fault (run_loop ss arg_values w) = Some f /\ fault_exn f = DomainExn e) /\
  (is_Some (error fb) ->
   pending r = None /\ exists frames, error_stack fb = Some (here 250 :: frames)) /\
  (is_Some (pending r) -> error fb = None /\ error_stack fb = None).
Proof.
  intros r fb. unfold fb, r, run. clear fb r.
  destruct (lp_fault (run_loop ss arg_values w)) as [f|] eqn:Hfault.
  - destruct (fault_exn f) as [e|cls msg] eqn:Hexn; cbn.
    + split; [split; discriminate|]. split; [split; [by eexists _, _|by eexists]|].
      split; [|by intros [? ?]]. intros _. split; [done|].
      assert (Hstep : exists s reg' w', ex_fault (step_body s reg' w') = Some f).
      { clear Hexn. revert arg_values w Hfault.
        induction ss as [|s rest IH]; intros arg_values w; cbn; [discriminate|].
        destruct (ex_fault (exec_step s arg_values w)) as [f'|] eqn:Hf'; cbn.
        - intros [= ->]. apply exec_step_fault_body in Hf'. by eexists _, _, _.
        - apply IH. }
      destruct Hstep as (s & reg' & w' & Hbody).
      destruct (step_body_domain_fault W s reg' w' f e Hbody Hexn) as [_ [frames ->]].
      by eexists.
    + split; [done|]. split; [split; [by intros [? ?]|]|].
      * intros (f' & e & [= <-] & He). congruence.
      * split; [by intros [? ?]|done].
  - cbn. split; [done|]. split; [split; [by intros [? ?]|]|].
    + by intros (f' & e & ? & _).
    + split; [by intros [? ?]|by intros [? ?]].
Qed.

End Loop.

(** * The messages of the domain errors (lines 30-55) *)

Lemma assoc_is_Some (k : string) (kv : list (string * string)) :
  is_Some (assoc k kv) <-> k ∈ map fst kv.
Proof.
  induction kv as [|[k' v] rest IH]; cbn.
  - split; [by intros [? ?]|]. intros H. by apply elem_of_nil in H.
  - destruct (String.eqb_spec k k') as [->|Hne].
    + split; [|by eexists]. intros _. apply elem_of_cons. by left.
    + rewrite IH. split; [intros H; apply elem_of_cons; by right|].
      intros [?|?]%elem_of_cons; done.
Qed.

(** The interpolation is defined exactly when the template is well formed
    and every field it names is supplied. *)
Lemma py_format_is_Some (st : fmt_state) (template : string)
    (fields : list (string * string)) :
  is_Some (py_format st template fields) <->
  exists names, template_fields st template = Some names /\
                forall n, n ∈ names -> n ∈ map fst fields.
Proof.
  revert st. induction template as [|c rest IH]; intros st.
  - cbn. destruct st.
    + split; [intros _; exists []; split; [done|]|by eexists].
      intros n Hn. by apply elem_of_nil in Hn.
    + split; [by intros [? ?]|by intros (? & ? & _)].
    + split; [by intros [? ?]|by intros (? & ? & _)].
    + split; [by intros [? ?]|by intros (? & ? & _)].
  - cbn [py_format template_fields]. destruct st as [| |acc|key].
    + destruct (Ascii.eqb c "%"%char); [apply IH|].
      rewrite fmap_is_Some. apply IH.
    + destruct (Ascii.eqb c "("%char); [apply IH|].
      destruct (Ascii.eqb c "%"%char).
      * rewrite fmap_is_Some. apply IH.
      * split; [by intros [? ?]|by intros (? & ? & _)].
    + destruct (Ascii.eqb c ")"%char); apply IH.
    + destruct (Ascii.eqb c "s"%char).
      * destruct (assoc key fields) as [v|] eqn:Hkey.
        -- rewrite fmap_is_Some, IH. split.
           ++ intros (names & -> & Hall). exists (key :: names). split; [done|].
              intros n [->|Hn]%elem_of_cons; [|by apply Hall].
              apply assoc_is_Some. by rewrite Hkey.
           ++ intros (names & Hnames & Hall).
              destruct (template_fields FText rest) as [names'|]; [|discriminate].
              injection Hnames as <-. exists names'. split; [done|].
              intros n Hn. apply Hall, elem_of_cons. by right.
        -- split; [by intros [? ?]|]. intros (names & Hnames & Hall).
           destruct (template_fields FText rest) as [names'|]; [|discriminate].
           injection Hnames as <-.
           assert (Hin : key ∈ map fst fields) by (apply Hall, elem_of_cons; by left).
           apply assoc_is_Some in Hin. rewrite Hkey in Hin. by destruct Hin.
      * split; [by intros [? ?]|by intros (? & ? & _)].
Qed.

Lemma template_fields_message (k : ErrorKind) :
  template_fields FText (message k) = Some (required_fields k).
Proof. destruct k; vm_compute; reflexivity. Qed.

Lemma py_format_message_None (k : ErrorKind) (fields : list (string * string)) (n : string) :
  n ∈ required_fields k -> n ∉ map fst fields ->
  py_format FText (message k) fields = None.
Proof.
  intros Hn Hmissing.
  destruct (py_format FText (message k) fields) as [m|] eqn:Hm; [|done].
  assert (Hsome : is_Some (py_format FText (message k) fields)) by (by rewrite Hm).
  apply py_format_is_Some in Hsome as (names & Hnames & Hall).
  rewrite template_fields_message in Hnames. injection Hnames as <-.
  destruct Hmissing. by apply Hall.
Qed.

(** X8. The message of a domain error can be interpolated exactly when the
    raise site supplies every field that the template of its class names:
    [project_filename] for all classes but the thumbnail one, together with
    [extension], [xml_error] or [error] for three of them, and [reason] for
    the thumbnail one.  Other fields are ignored. *)
Theorem message_needs_its_fields (k : ErrorKind) (fields : list (string * string)) :
  is_Some (py_format FText (message k) fields) <->
  forall n, n ∈ required_fields k -> n ∈ map fst fields.
Proof.
  rewrite py_format_is_Some, template_fields_message. split.
  - by intros (names & [= <-] & Hall).
  - intros Hall. by exists (required_fields k).
Qed.

(** X9. Every message but that of the thumbnail error starts by naming the
    project file: [Project file "<project_filename>"]. *)
Theorem message_names_the_project_file (k : ErrorKind) (fields : list (string * string))
    (p m : string) :
  k <> FailedThumbnailGenerationException ->
  assoc "project_filename" fields = Some p ->
  py_format FText (message k) fields = Some m ->
  exists rest, m = ("Project file " ++ dquote ++ p ++ dquote ++ rest)%string.
Proof.
  intros Hk Hp. destruct k; try done.
  all: cbv -[assoc]; rewrite Hp; cbv -[assoc].
  - intros [= <-]. by eexists.
  - destruct (assoc "extension" fields) as [e|]; [|discriminate].
    intros [= <-]. by eexists.
  - destruct (assoc "xml_error" fields) as [e|]; [|discriminate].
    intros [= <-]. by eexists.
  - destruct (assoc "error" fields) as [e|]; [|discriminate].
    intros [= <-]. by eexists.
  - intros [= <-]. by eexists.
Qed.

(** * The callables *)

Section Callables.

Variable W : Type.

Implicit Types (h : Host W) (w : W) (p : string) (l : Layer) (layers : list Layer).

(** ** [check_valid_project_file] *)

(** X10. [check_valid_project_file] returns, and then returns [None],
    exactly when [exists()] answers that the file is there and either its
    suffix is [.qgz] or its suffix is [.qgs], it can be opened and its text
    can be read and parses as XML.  A [.qgz] file is accepted without being
    opened. *)
Theorem check_valid_project_file_accepts h w p :
  (forall v, check_valid_project_file h w p = Returns v -> v = VNone) /\
  (check_valid_project_file h w p = Returns VNone <->
   path_exists h w p = Ok true /\
   (path_suffix h p = ".qgz" \/
    (path_suffix h p = ".qgs" /\ open_error h w p = None /\
     exists text, read_text h w p = Ok text /\ xml_error h text = None))).
Proof.
  unfold check_valid_project_file.
  destruct (path_exists h w p) as [[|]|[cls msg]].
  2: { split; [discriminate|]. split; [discriminate|]. by intros [? _]. }
  2: { split; [discriminate|]. split; [discriminate|]. by intros [? _]. }
  destruct (String.eqb_spec (path_suffix h p) ".qgs") as [Hqgs|Hqgs].
  - destruct (open_error h w p) as [[cls msg]|].
    { split; [discriminate|]. split; [discriminate|].
      intros [_ [Hz|(_ & Hopen & _)]]; [|discriminate].
      rewrite Hqgs in Hz. discriminate. }
    destruct (read_text h w p) as [text|[cls msg]].
    + destruct (xml_error h text) as [err|] eqn:Herr.
      * split; [discriminate|]. split; [discriminate|].
        intros [_ [Hz|(_ & _ & text' & [= <-] & Hnone)]]; [|congruence].
        rewrite Hqgs in Hz. discriminate.
      * split; [by intros v [= <-]|]. split; [|done]. intros _. split; [done|].
        right. split; [done|]. split; [done|]. by exists text.
    + split; [discriminate|]. split; [discriminate|].
      intros [_ [Hz|(_ & _ & text' & Hread & _)]]; [|discriminate].
      rewrite Hqgs in Hz. discriminate.
  - destruct (String.eqb_spec (path_suffix h p) ".qgz") as [Hqgz|Hqgz]; cbn [negb].
    + split; [by intros v [= <-]|]. split; [|done]. intros _. split; [done|]. by left.
    + split; [discriminate|]. split; [discriminate|].
      intros [_ [Hz|[Hs _]]]; done.
Qed.

(** X11. Every exception that [check_valid_project_file] raises is one of
    five: the error that [exists()] lets through; the not-found error when
    the file is not there; the invalid-XML error when a [.qgs] file does
    not parse; the extension error when the suffix is neither [.qgs] nor
    [.qgz]; or the error of opening or reading a [.qgs] file.  The three
    domain errors have a message that can be interpolated from the fields
    of the raise site and names the file; the other two are outside the
    family. *)
Theorem check_valid_project_file_errors h w p (r : Raised) (frames : list string) :
  check_valid_project_file h w p = Raises r frames ->
  (exists cls msg, path_exists h w p = Err (cls, msg) /\ r = RaiseOther cls msg)
  \/ (path_exists h w p = Ok false /\
      exists fields,
        r = RaiseDomain ProjectFileNotFoundException fields /\
        py_format FText (message ProjectFileNotFoundException) fields
        = Some ("Project file " ++ dquote ++ p ++ dquote ++ " does not exist")%string)
  \/ (path_exists h w p = Ok true /\ path_suffix h p = ".qgs" /\
      exists text err fields,
        open_error h w p = None /\
        read_text h w p = Ok text /\ xml_error h text = Some err /\
        r = RaiseDomain InvalidXmlFileException fields /\
        py_format FText (message InvalidXmlFileException) fields
        = Some ("Project file " ++ dquote ++ p ++ dquote
                ++ " is an invalid XML document:" ++ newline ++ err)%string)
  \/ (path_exists h w p = Ok true /\
      path_suffix h p <> ".qgs" /\ path_suffix h p <> ".qgz" /\
      exists fields,
        r = RaiseDomain InvalidFileExtensionException fields /\
        py_format FText (message InvalidFileExtensionException) fields
        = Some ("Project file " ++ dquote ++ p ++ dquote ++ " has unknown file extension "
                ++ dquote ++ path_suffix h p ++ dquote)%string)
  \/ (path_exists h w p = Ok true /\ path_suffix h p = ".qgs" /\
      exists cls msg,
        r = RaiseOther cls msg /\
        (open_error h w p = Some (cls, msg) \/
         (open_error h w p = None /\ read_text h w p = Err (cls, msg)))).
Proof.
  unfold check_valid_project_file.
  destruct (path_exists h w p) as [[|]|[cls msg]].
  2: { intros [= <- _]. right; left. split; [done|]. eexists. split; [done|].
       vm_compute. reflexivity. }
  2: { intros [= <- _]. left. by exists cls, msg. }
  destruct (String.eqb_spec (path_suffix h p) ".qgs") as [Hqgs|Hqgs].
  - destruct (open_error h w p) as [[cls msg]|].
    { intros [= <- _]. do 4 right. split; [done|]. split; [done|].
      exists cls, msg. split; [done|]. by left. }
    destruct (read_text h w p) as [text|[cls msg]].
    + destruct (xml_error h text) as [err|] eqn:Herr; [|discriminate].
      intros [= <- _]. right; right; left. split; [done|]. split; [done|].
      exists text, err. eexists. repeat split; [done|].
      rewrite <- (append_empty_r err) at 2. vm_compute. reflexivity.
    + intros [= <- _]. do 4 right. split; [done|]. split; [done|].
      exists cls, msg. split; [done|]. by right.
  - destruct (String.eqb_spec (path_suffix h p) ".qgz") as [Hqgz|Hqgz]; cbn [negb];
      [discriminate|].
    intros [= <- _]. right; right; right; left. repeat split; [done..|].
    eexists. split; [done|].
    generalize (path_suffix h p). intros suffix. vm_compute. reflexivity.
Qed.

(** X12. Unless the suffix is [.qgs], [check_valid_project_file] never
    looks at the content of the file: its result is the same whatever
    reading the file and parsing its text would give. *)
Theorem check_valid_project_file_ignores_content h h' w p :
  path_exists h' w p = path_exists h w p ->
  path_suffix h' p = path_suffix h p ->
  path_suffix h p <> ".qgs" ->
  check_valid_project_file h' w p = check_valid_project_file h w p.
Proof.
  intros He Hs Hqgs. unfold check_valid_project_file. rewrite He, Hs.
  destruct (path_exists h w p) as [[|]|[cls msg]]; [|done..].
  by destruct (String.eqb_spec (path_suffix h p) ".qgs").
Qed.

(** ** [load_project_file] *)

(** X13. [load_project_file] returns the project instance exactly when QGIS
    reads the file.  Otherwise it raises [InvalidXmlFileException] with the
    fields [project_filename] and [error]; the template of that class names
    [xml_error], so its message cannot be interpolated from these fields. *)
Theorem load_project_file_outcome h w (project_filename : value) :
  match load_project_file h w project_filename with
  | (Returns project, w') =>
      project_read h w (py_str h project_filename) = (true, w') /\
      project = project_instance h w'
  | (Raises r frames, w') =>
      project_read h w (py_str h project_filename) = (false, w') /\
      exists fields,
        r = RaiseDomain InvalidXmlFileException fields /\
        map fst fields = ["project_filename"; "error"] /\
        py_format FText (message InvalidXmlFileException) fields = None
  end.
Proof.
  unfold load_project_file.
  destruct (project_read h w (py_str h project_filename)) as [[|] w']; [done|].
  split; [done|]. eexists. split; [done|]. split; [done|].
  apply (py_format_message_None _ _ "xml_error"); cbn.
  - apply elem_of_cons; right. apply elem_of_cons; by left.
  - intros [?|[?|?%elem_of_nil]%elem_of_cons]%elem_of_cons; done.
Qed.

(** ** [check_layer_validity] *)

(** An entry is only ever built for a layer that has a data provider. *)
Lemma summarize_layer_Ok h l (d : value) :
  summarize_layer h l = Ok d ->
  exists p : Provider, l_provider l = Some p /\
    ((l_is_valid l = true /\ d = layer_data l (p_uri p) VNone VNone) \/
     (l_is_valid l = false /\
      exists s, provider_error_summary h p = Ok s /\
                d = layer_data l (p_uri p) (VStr s) (VStr (p_message p)))).
Proof.
  unfold summarize_layer. destruct (l_provider l) as [p|]; [|discriminate].
  intros H. exists p. split; [done|].
  destruct (l_is_valid l); [left; split; [done|congruence]|].
  right. split; [done|].
  destruct (provider_error_summary h p) as [s|e]; [|discriminate].
  exists s. split; [done|congruence].
Qed.

Lemma summarize_layers_Ok h layers (ds : list value) (invalid : bool) :
  summarize_layers h layers = Ok (ds, invalid) ->
  Forall2 (fun l d => summarize_layer h l = Ok d) layers ds /\
  invalid = existsb (fun l => negb (l_is_valid l)) layers.
Proof.
  revert ds invalid. induction layers as [|l rest IH]; intros ds invalid; cbn.
  - intros [= <- <-]. split; [constructor|done].
  - destruct (summarize_layer h l) as [d|e] eqn:Hl; [|discriminate].
    destruct (summarize_layers h rest) as [[ds' inv']|e]; [|discriminate].
    intros [= <- <-]. destruct (IH ds' inv' eq_refl) as [Hall ->].
    split; [by constructor|done].
Qed.

Lemma summarize_layers_all_Ok h layers :
  Forall (fun l => exists d, summarize_layer h l = Ok d) layers ->
  exists ds, summarize_layers h layers
             = Ok (ds, existsb (fun l => negb (l_is_valid l)) layers).
Proof.
  induction 1 as [|l rest [d Hd] _ [ds IH]]; cbn; [by eexists|].
  rewrite Hd, IH. by eexists.
Qed.

(** The first layer whose entry cannot be built decides the exception. *)
Lemma summarize_layers_Err h (pre : list Layer) l (post : list Layer) (e : Trouble) :
  Forall (fun l' => exists d, summarize_layer h l' = Ok d) pre ->
  summarize_layer h l = Err e ->
  summarize_layers h (pre ++ l :: post) = Err e.
Proof.
  induction 1 as [|l' rest [d Hd] _ IH]; intros He; cbn.
  - by rewrite He.
  - by rewrite Hd, IH.
Qed.

Lemma summarize_layers_trouble h layers l :
  l ∈ layers -> (forall d, summarize_layer h l <> Ok d) ->
  exists e, summarize_layers h layers = Err e.
Proof.
  induction layers as [|l' rest IH]; intros Hin Hl; [by apply elem_of_nil in Hin|].
  cbn. destruct (summarize_layer h l') as [d|e] eqn:Hl'; [|by eexists].
  apply elem_of_cons in Hin as [->|Hin]; [by destruct (Hl d)|].
  destruct (IH Hin Hl) as [e ->]. by eexists.
Qed.

(** X14. [check_layer_validity] returns exactly when every layer is valid
    and has a data provider; what it returns is then a list with one entry
    per layer, in the order of the layers, whose [id] and [name] are the
    name of the layer and whose two provider error fields are [None]. *)
Theorem check_layer_validity_returns h layers :
  ((exists v, check_layer_validity h layers = Returns v) <->
   Forall (fun l => l_is_valid l = true /\ is_Some (l_provider l)) layers) /\
  (forall v, check_layer_validity h layers = Returns v ->
     exists ds, v = VList ds /\
       Forall2 (fun l d => exists p : Provider, l_provider l = Some p /\
                                     d = layer_data l (p_uri p) VNone VNone) layers ds).
Proof.
  assert (Hshape : forall v, check_layer_validity h layers = Returns v ->
    exists ds, v = VList ds /\
      Forall2 (fun l d => exists p : Provider, l_provider l = Some p /\ l_is_valid l = true /\
                                    d = layer_data l (p_uri p) VNone VNone) layers ds).
  { intros v. unfold check_layer_validity.
    destruct (summarize_layers h layers) as [[ds [|]]|e] eqn:Hs; [discriminate| |discriminate].
    intros [= <-]. exists ds. split; [done|].
    destruct (summarize_layers_Ok _ _ _ _ Hs) as [Hall Hinv].
    symmetry in Hinv. rewrite <- not_true_iff_false, existsb_exists in Hinv.
    clear Hs. induction Hall as [|l d rest ds' Hl _ IH]; [constructor|].
    assert (Hvalid : l_is_valid l = true).
    { destruct (l_is_valid l) eqn:E; [done|]. destruct Hinv. exists l.
      split; [by left|]. by rewrite E. }
    constructor.
    - destruct (summarize_layer_Ok _ _ _ Hl) as (p & Hp & [[_ ->]|[Hf _]]); [|congruence].
      by exists p.
    - apply IH. intros (x & Hx & Hxv). apply Hinv. exists x. split; [by right|done]. }
  split; [split|].
  - intros [v Hv]. destruct (Hshape v Hv) as (ds & _ & Hall).
    clear Hv Hshape. induction Hall as [|l d rest ds' (p & Hp & Hvalid & _) _ IH];
      constructor; [|done]. split; [done|]. by rewrite Hp.
  - intros Hall.
    assert (Hok : Forall (fun l => exists d, summarize_layer h l = Ok d) layers).
    { eapply Forall_impl; [exact Hall|]. intros l [Hv [p Hp]]. cbn in *.
      unfold summarize_layer. rewrite Hp, Hv. by eexists. }
    destruct (summarize_layers_all_Ok _ _ Hok) as [ds Hds].
    assert (Hinv : existsb (fun l => negb (l_is_valid l)) layers = false).
    { apply not_true_iff_false. rewrite existsb_exists. intros (x & Hx & Hxv).
      rewrite Forall_forall in Hall. apply list_elem_of_In in Hx.
      destruct (Hall x Hx) as [Hv _]. by rewrite Hv in Hxv. }
    rewrite Hinv in Hds. unfold check_layer_validity. rewrite Hds. by eexists.
  - intros v Hv. destruct (Hshape v Hv) as (ds & -> & Hall). exists ds. split; [done|].
    eapply Forall2_impl; [exact Hall|]. intros l d (p & Hp & _ & Hd). by exists p.
Qed.

(** X15. A layer without a data provider never gets an entry, valid or
    not: line 104 raises [AttributeError] when it takes the uri of the
    provider, so [check_layer_validity] then neither returns nor raises a
    domain error, and the text of line 148 is never used.  When the layers
    before it have their entries, the exception is that of this layer. *)
Theorem layer_without_provider_raises h (pre : list Layer) l (post : list Layer) :
  l_provider l = None ->
  (exists cls msg frames,
     check_layer_validity h (pre ++ l :: post) = Raises (RaiseOther cls msg) frames) /\
  (Forall (fun l' => exists d, summarize_layer h l' = Ok d) pre ->
   check_layer_validity h (pre ++ l :: post)
   = Raises (RaiseOther "AttributeError" "'NoneType' object has no attribute 'uri'")
            [frame_in "check_layer_validity" 104]).
Proof.
  intros Hp.
  assert (Hl : summarize_layer h l
               = Err (mkTrouble "AttributeError" "'NoneType' object has no attribute 'uri'" 104)).
  { unfold summarize_layer. by rewrite Hp. }
  split.
  - destruct (summarize_layers_trouble h (pre ++ l :: post)%list l) as [e He].
    + apply elem_of_app. right. apply elem_of_cons. by left.
    + intros d. by rewrite Hl.
    + unfold check_layer_validity. rewrite He. by eexists _, _, _.
  - intros Hpre. unfold check_layer_validity.
    by rewrite (summarize_layers_Err h pre l post _ Hpre Hl).
Qed.

(** X16. An invalid layer whose provider reports no summary of its own and
    whose uri has a port that [int] rejects makes [check_layer_validity]
    raise [ValueError], whatever the host and the service of the uri are:
    the port is converted before the host is looked at. *)
Theorem unparsable_port_raises h (pre : list Layer) l (post : list Layer) (p : Provider) :
  l_provider l = Some p ->
  l_is_valid l = false ->
  (p_has_messages p = false \/ p_summary p = EmptyString) ->
  p_port p <> EmptyString ->
  py_int h (p_port p) = None ->
  Forall (fun l' => exists d, summarize_layer h l' = Ok d) pre ->
  check_layer_validity h (pre ++ l :: post)
  = Raises (RaiseOther "ValueError" "invalid literal for int() with base 10")
           [frame_in "check_layer_validity" 138].
Proof.
  intros Hp Hv Hsum Hport Hint Hpre.
  assert (Hl : summarize_layer h l
               = Err (mkTrouble "ValueError" "invalid literal for int() with base 10" 138)).
  { unfold summarize_layer, provider_error_summary, uri_port. rewrite Hp, Hv.
    assert (Hempty : nonempty (if p_has_messages p then p_summary p else EmptyString) = false).
    { destruct Hsum as [->| ->]; [done|]. by destruct (p_has_messages p). }
    rewrite Hempty.
    assert (Hne : nonempty (p_port p) = true).
    { unfold nonempty. by destruct (String.eqb_spec (p_port p) EmptyString). }
    by rewrite Hne, Hint. }
  unfold check_layer_validity. by rewrite (summarize_layers_Err h pre l post _ Hpre Hl).
Qed.

(** X17. The provider error summary of an invalid layer, when the port of
    its uri is empty or a number: the summary of the provider itself if it
    has one; otherwise the host message if the host is set and is local or
    answers a ping, even when a service is set; otherwise the service
    message if a service is set; otherwise the empty string. *)
Theorem provider_error_summary_cases h (p : Provider) (port : option Z) :
  uri_port h (p_port p) = Ok port ->
  let own := if p_has_messages p then p_summary p else EmptyString in
  let reachable :=
    nonempty (p_host p) && (is_localhost h (p_host p) port || has_ping h (p_host p)) in
  provider_error_summary h p
  = Ok (if nonempty own then own
        else if reachable
             then "Unable to connect to host " ++ dquote ++ p_host p ++ dquote
             else if nonempty (p_service p)
                  then "Unable to connect to service " ++ dquote ++ p_service p ++ dquote
                  else EmptyString)%string.
Proof.
  intros Hport own reachable. unfold provider_error_summary. fold own.
  destruct (nonempty own) eqn:Hown; [done|]. rewrite Hport. fold reachable.
  destruct reachable; [done|]. destruct (nonempty (p_service p)); [done|].
  f_equal. unfold nonempty in Hown. by destruct (String.eqb_spec own EmptyString).
Qed.

Lemma layer_data_serializable l (datasource : string) (s m : value) :
  serializable (l_filename l) -> serializable s -> serializable m ->
  serializable (layer_data l datasource s m).
Proof.
  intros Hf Hs Hm. apply to_json_dict. repeat constructor; cbn; try by eexists.
  all: done.
Qed.

Lemma summarize_layers_serializable h layers (ds : list value) (invalid : bool) :
  Forall (fun l => serializable (l_filename l)) layers ->
  summarize_layers h layers = Ok (ds, invalid) ->
  Forall serializable ds.
Proof.
  intros Hfiles Hs. destruct (summarize_layers_Ok _ _ _ _ Hs) as [Hall _]. clear Hs.
  induction Hall as [|l d rest ds' Hl _ IH]; [constructor|].
  apply Forall_cons in Hfiles as [Hf Hrest]. constructor; [|by apply IH].
  destruct (summarize_layer_Ok _ _ _ Hl) as (p & _ & [[_ ->]|[_ (s & _ & ->)]]);
    apply layer_data_serializable; try done; by eexists.
Qed.

(** X18. What [check_layer_validity] returns can be encoded as JSON as soon
    as the file name that [get_layer_filename] gives for each layer can. *)
Theorem layers_summary_is_serializable h layers (v : value) :
  Forall (fun l => serializable (l_filename l)) layers ->
  check_layer_validity h layers = Returns v ->
  serializable v.
Proof.
  intros Hfiles. unfold check_layer_validity.
  destruct (summarize_layers h layers) as [[ds [|]]|e] eqn:Hs; [discriminate| |discriminate].
  intros [= <-]. apply to_json_list. by eapply summarize_layers_serializable.
Qed.

(** X19. The only domain error that [check_layer_validity] raises is
    [InvalidLayersException], when some layer is invalid; its raise site
    supplies the single field [layers_summary], while the template of the
    class names [project_filename]: the message cannot be interpolated. *)
Theorem invalid_layers_message_lacks_its_field h layers (k : ErrorKind)
    (fields : list (string * string)) (frames : list string) :
  check_layer_validity h layers = Raises (RaiseDomain k fields) frames ->
  k = InvalidLayersException /\
  (exists l, l ∈ layers /\ l_is_valid l = false) /\
  map fst fields = ["layers_summary"] /\
  py_format FText (message k) fields = None.
Proof.
  unfold check_layer_validity.
  destruct (summarize_layers h layers) as [[ds [|]]|e] eqn:Hs; [|discriminate..].
  intros [= <- <- _]. split; [done|].
  destruct (summarize_layers_Ok _ _ _ _ Hs) as [_ Hinv]. symmetry in Hinv.
  apply existsb_exists in Hinv as (l & Hl & Hv). split.
  - exists l. split; [by apply list_elem_of_In|]. by destruct (l_is_valid l).
  - split; [done|]. apply (py_format_message_None _ _ "project_filename"); cbn.
    + apply elem_of_cons; by left.
    + intros [?|?%elem_of_nil]%elem_of_cons; done.
Qed.

(** ** [generate_thumbnail] *)

(** X20. When the module is imported, so that nothing binds the name
    [project_filename] that lines 177 and 204 read, [generate_thumbnail]
    never raises a domain error: where it means to raise one, building the
    exception raises [NameError].  It does so before rendering when the
    project file opens and its content is rejected, and after rendering
    when the thumbnail is not there. *)
Theorem generate_thumbnail_imported_raises_name_error h w (project thumbnail_filename : value) :
  (forall r frames w',
     generate_thumbnail h None w project thumbnail_filename = (Raises r frames, w') ->
     exists cls msg, r = RaiseOther cls msg) /\
  (forall error,
     dom_content h w project = Some (true, error) -> error <> EmptyString ->
     generate_thumbnail h None w project thumbnail_filename
     = (Raises (RaiseOther "NameError" "name 'project_filename' is not defined")
               [frame_in "generate_thumbnail" 177], w)) /\
  (forall opened error,
     dom_content h w project = Some (opened, error) ->
     opened = false \/ error = EmptyString ->
     path_like h thumbnail_filename = true ->
     let w' := render_thumbnail h w project (py_str h thumbnail_filename) in
     path_exists h w' (py_str h thumbnail_filename) = Ok false ->
     generate_thumbnail h None w project thumbnail_filename
     = (Raises (RaiseOther "NameError" "name 'project_filename' is not defined")
               [frame_in "generate_thumbnail" 204], w')).
Proof.
  unfold generate_thumbnail. split; [|split].
  - intros r frames w'. destruct (dom_content h w project) as [[opened error]|].
    + destruct (opened && nonempty error); [intros [= <- _ _]; by eexists _, _|].
      destruct (path_like h thumbnail_filename); cbn [negb];
        [|intros [= <- _ _]; by eexists _, _].
      destruct (path_exists h _ _) as [[|]|[cls msg]];
        [discriminate|intros [= <- _ _]; by eexists _, _..].
    + intros [= <- _ _]. by eexists _, _.
  - intros error Hdom Herr. rewrite Hdom.
    assert (Hne : nonempty error = true).
    { unfold nonempty. by destruct (String.eqb_spec error EmptyString). }
    by rewrite Hne.
  - intros opened error Hdom Hok Hlike. cbv zeta. intros Hmissing. rewrite Hdom, Hlike.
    assert (Hskip : opened && nonempty error = false).
    { destruct Hok as [->| ->]; [done|]. by rewrite andb_false_r. }
    rewrite Hskip. cbn [negb]. by rewrite Hmissing.
Qed.

(** X21. When the file runs as a script, line 290 binds [project_filename]
    and the two raise sites of [generate_thumbnail] build their exceptions:
    a missing thumbnail raises the thumbnail error, whose message is
    [Failed to generate project thumbnail:] and, on the next line, [File does
    not exist.]; a rejected project file raises [InvalidXmlFileException]
    with the field [error], from which its template, naming [xml_error],
    cannot be interpolated. *)
Theorem generate_thumbnail_script_raises h w (global project thumbnail_filename : value) :
  (forall opened error,
     dom_content h w project = Some (opened, error) ->
     opened = false \/ error = EmptyString ->
     path_like h thumbnail_filename = true ->
     let w' := render_thumbnail h w project (py_str h thumbnail_filename) in
     path_exists h w' (py_str h thumbnail_filename) = Ok false ->
     exists fields frames,
       generate_thumbnail h (Some global) w project thumbnail_filename
       = (Raises (RaiseDomain FailedThumbnailGenerationException fields) frames, w') /\
       py_format FText (message FailedThumbnailGenerationException) fields
       = Some ("Failed to generate project thumbnail:" ++ newline
               ++ "File does not exist.")%string) /\
  (forall error,
     dom_content h w project = Some (true, error) -> error <> EmptyString ->
     exists fields frames,
       generate_thumbnail h (Some global) w project thumbnail_filename
       = (Raises (RaiseDomain InvalidXmlFileException fields) frames, w) /\
       py_format FText (message InvalidXmlFileException) fields = None).
Proof.
  unfold generate_thumbnail. split.
  - intros opened error Hdom Hok Hlike. cbv zeta. intros Hmissing. rewrite Hdom, Hlike.
    assert (Hskip : opened && nonempty error = false).
    { destruct Hok as [->| ->]; [done|]. by rewrite andb_false_r. }
    rewrite Hskip. cbn [negb]. rewrite Hmissing. cbn [negb raise_naming_project].
    eexists _, _. split; [done|]. generalize (py_str h global). intros g.
    vm_compute. reflexivity.
  - intros error Hdom Herr. rewrite Hdom.
    assert (Hne : nonempty error = true).
    { unfold nonempty. by destruct (String.eqb_spec error EmptyString). }
    rewrite Hne. cbn [andb raise_naming_project]. eexists _, _. split; [done|].
    apply (py_format_message_None _ _ "xml_error"); cbn.
    + apply elem_of_cons; right. apply elem_of_cons; by left.
    + intros [?|[?|?%elem_of_nil]%elem_of_cons]%elem_of_cons; done.
Qed.

End Callables.

(** * The declared pipeline (lines 208-284) *)

Lemma copy_names_values (rm : gmap string value) (names : list string)
    (target : gmap string value) (X : string) (v : value) :
  fst (copy_names rm names target) !! X = Some v ->
  (X ∈ names /\ rm !! X = Some v) \/ target !! X = Some v.
Proof.
  revert target. induction names as [|n rest IH]; intros target; cbn; [by right|].
  destruct (rm !! n) as [v'|] eqn:Hn; cbn; [|by right].
  intros H. destruct (IH _ H) as [[Hin Hv]|Hv].
  - left. split; [apply elem_of_cons; by right|done].
  - destruct (decide (X = n)) as [->|Hne].
    + rewrite lookup_insert_eq in Hv. injection Hv as <-. left.
      split; [apply elem_of_cons; by left|done].
    + rewrite lookup_insert_ne in Hv by done. by right.
Qed.

Section Declared.

Variable W : Type.

Implicit Types (s : Step W) (ss : list (Step W)).
Implicit Types (arg_values : gmap string value) (w : W).

Lemma exec_step_raised s arg_values w (args : list value) (r : Raised)
    (frames : list string) (w' : W) :
  lookup_args arg_values (arg_names s) = Ok args ->
  method s args w = (Raises r frames, w') ->
  exec_step s arg_values w
  = mkExec W (logger_enter s) arg_values w'
           (Some (mkFault (raise_stmt r) (here 250 :: frames))).
Proof.
  intros Hargs Hcall. unfold exec_step, step_body.
  cbn [logger_enter set_stage arg_names method]. by rewrite Hargs, Hcall.
Qed.

(** One iteration of the loop, the step run once. *)
Lemma run_loop_step s (rest : list (Step W)) arg_values w :
  run_loop (s :: rest) arg_values w
  = match exec_step s arg_values w with
    | mkExec _ s' arg_values' w' (Some f) => mkLoop W (s' :: rest) arg_values' w' (Some f)
    | mkExec _ s' arg_values' w' None =>
        let l := run_loop rest arg_values' w' in
        mkLoop W (s' :: lp_steps l) (lp_arg_values l) (lp_world l) (lp_fault l)
    end.
Proof.
  cbn [run_loop]. by destruct (exec_step s arg_values w) as [s' a' w' [f|]].
Qed.

Lemma exec_step_outputs_serializable s arg_values w :
  returns_serializable s ->
  map_Forall (fun _ v => serializable v) (outputs s) ->
  map_Forall (fun _ v => serializable v) (outputs (ex_step (exec_step s arg_values w))).
Proof.
  intros Hret Hout. unfold exec_step, step_body.
  cbn [logger_enter set_stage arg_names method return_names output_names public_returns
       outputs].
  destruct (lookup_args arg_values (arg_names s)) as [args|n]; [|done].
  destruct (method s args w) as [[rv|r frames] w'] eqn:Hcall; [|done].
  destruct (return_map (return_names s) rv) as [rm|] eqn:Hrm; [|done].
  assert (Houts : map_Forall (fun _ v => serializable v)
                    (fst (copy_names rm (output_names s) (outputs s)))).
  { intros X v HX. destruct (copy_names_values _ _ _ _ _ HX) as [[Hin Hv]|Hv].
    - by apply (Hret args w rv w' rm X v).
    - by apply (Hout X v). }
  destruct (copy_names rm (output_names s) (outputs s)) as [outs [n|]]; [done|].
  by destruct (copy_names rm (public_returns s) arg_values) as [reg [n|]].
Qed.

Lemma exec_step_returns_serializable s arg_values w :
  returns_serializable s -> returns_serializable (ex_step (exec_step s arg_values w)).
Proof.
  intros Hret. destruct (exec_step_shape W s arg_values w) as [o ->]. exact Hret.
Qed.

Lemma run_loop_outputs_serializable ss arg_values w :
  Forall returns_serializable ss ->
  outputs_serializable ss ->
  outputs_serializable (lp_steps (run_loop ss arg_values w)).
Proof.
  unfold outputs_serializable. intros Hret. revert arg_values w.
  induction Hret as [|s rest Hs _ IH]; intros arg_values w Hout; [constructor|].
  apply Forall_cons in Hout as [Ho Hrest]. cbn.
  destruct (ex_fault (exec_step s arg_values w)); cbn.
  - constructor; [by apply exec_step_outputs_serializable|done].
  - constructor; [by apply exec_step_outputs_serializable|by apply IH].
Qed.

(** X22. If the callable of every step only ever returns, under the output
    names of the step, values that [json] can encode, the stage values can
    be encoded, and the feedback file, if one is given, can be opened when
    the loop is left, then the run of the steps, however it ends, produces
    exactly one document, the encoding of its feedback. *)
Theorem serializable_returns_give_one_document (stage_value : Stage -> value)
    (io : Sinks W) ss
    arg_values (fn : option string) w :
  (forall st, serializable (stage_value st)) ->
  Forall returns_serializable ss ->
  outputs_serializable ss ->
  sink_error io fn (run_world (run ss arg_values w)) = None ->
  exists text,
    documents (events (process stage_value io ss arg_values fn w)) = [text] /\
    json_dumps (feedback_value stage_value (feedback (run ss arg_values w))) = Some text.
Proof.
  intros Hst Hret Hout Hopen.
  assert (Hser : serializable (feedback_value stage_value (feedback (run ss arg_values w)))).
  { apply run_feedback_serializable; [done|]. rewrite run_steps_loop.
    by apply run_loop_outputs_serializable. }
  apply json_dumps_is_Some in Hser as [text Htext]. exists text. split; [|done].
  rewrite process_events. by apply emit_documents.
Qed.

(** X28. The sink never changes the run.  With a feedback file nothing is
    printed, and without one no file is opened.  When both sinks work, the
    feedback file receives the document that the standard output would,
    after the line [Feedback:] there, and the same exception leaves; when
    the encoder raises, the file is left with the beginning of the
    document, while the standard output has the line [Feedback:] alone.
    When the feedback file cannot be opened or written, no document is
    produced and the error of the sink leaves the function. *)
Theorem sink_does_not_change_the_run (stage_value : Stage -> value) (io : Sinks W)
    ss arg_values (path : string) w :
  path <> EmptyString ->
  let to_file := process stage_value io ss arg_values (Some path) w in
  let to_stdout := process stage_value io ss arg_values None w in
  let r := run ss arg_values w in
  report_run to_file = report_run to_stdout /\
  (forall line, Printed line ∉ events to_file) /\
  (forall p, Opened p ∉ events to_stdout) /\
  (sink_error io (Some path) (run_world r) = None ->
   sink_error io None (run_world r) = None ->
   raised to_file = raised to_stdout /\
   documents (events to_file) = documents (events to_stdout) /\
   match json_dumps (feedback_value stage_value (feedback r)) with
   | Some text =>
       events to_file = [Opened path; Dumped (ToFile path) text] /\
       events to_stdout = [Printed "Feedback:"; Dumped ToStdout text]
   | None =>
       events to_file
       = [Opened path;
          Truncated path (fst (stream 0 (feedback_value stage_value (feedback r))))] /\
       events to_stdout = [Printed "Feedback:"]
   end) /\
  (forall e, sink_error io (Some path) (run_world r) = Some e ->
     documents (events to_file) = [] /\ raised to_file = Some e).
Proof.
  intros Hpath. cbv zeta.
  assert (Hfile : feedback_file (Some path) = Some path).
  { unfold feedback_file. by destruct (String.eqb_spec path EmptyString). }
  rewrite !process_run. split; [done|]. split; [|split; [|split]].
  - intros line. rewrite process_events. unfold emit. rewrite Hfile.
    destruct (open_feedback io _ path); [by intros ?%elem_of_nil|].
    destruct (write_feedback io _ path);
      [|destruct (json_dumps _)];
      intros Hin; repeat (apply elem_of_cons in Hin as [[=]|Hin]);
      by apply elem_of_nil in Hin.
  - intros p. rewrite process_events. unfold emit. cbn [feedback_file].
    destruct (print_feedback io _); [by intros ?%elem_of_nil|].
    destruct (json_dumps _);
      intros Hin; repeat (apply elem_of_cons in Hin as [[=]|Hin]);
      by apply elem_of_nil in Hin.
  - intros Hf Hs. rewrite !process_raised_cases, !process_documents, !process_events.
    cbv zeta. rewrite Hf, Hs. unfold emit, sink_error in *. rewrite Hfile in *.
    cbn [feedback_file] in *.
    destruct (open_feedback io _ path); [done|].
    destruct (write_feedback io _ path); [done|].
    destruct (print_feedback io _); [done|].
    by destruct (json_dumps _).
  - intros e He. rewrite process_documents, process_raised_cases. cbv zeta.
    by rewrite He.
Qed.

(** The steps that lines 219-244 construct. *)

Lemma declared_steps_are (m1 m2 m3 m4 : Method W) :
  build (declared_steps m1 m2 m3 m4)
  = Ok [ new_step "Project Validity Check" ["project_filename"] m1 [] [] [];
         new_step "Opening Check" ["project_filename"] m2 ["project"] [] ["project"];
         new_step "Layer Validity Check" ["project"] m3
           ["layers_summary"] ["layers_summary"] [];
         new_step "Generate Thumbnail Image" ["project"; "thumbnail_filename"] m4 [] [] [] ].
Proof. reflexivity. Qed.

Lemma process_projectfile_is (stage_value : Stage -> value)
    (io : Sinks W) (m1 m2 m3 m4 : Method W)
    (pfn tfn : value) (fn : option string) w :
  process_projectfile stage_value io m1 m2 m3 m4 pfn tfn fn w
  = Ok (process stage_value io
          [ new_step "Project Validity Check" ["project_filename"] m1 [] [] [];
            new_step "Opening Check" ["project_filename"] m2 ["project"] [] ["project"];
            new_step "Layer Validity Check" ["project"] m3
              ["layers_summary"] ["layers_summary"] [];
            new_step "Generate Thumbnail Image" ["project"; "thumbnail_filename"] m4
              [] [] [] ]
          (initial_arguments pfn tfn) fn w).
Proof. unfold process_projectfile, pipeline. by rewrite declared_steps_are. Qed.

Lemma lookup_project_filename (pfn tfn : value) :
  lookup_args (initial_arguments pfn tfn) ["project_filename"] = Ok [pfn].
Proof.
  unfold initial_arguments. cbn [lookup_args].
  by rewrite lookup_insert_ne, lookup_insert_eq.
Qed.

Lemma lookup_project (pfn tfn project : value) :
  lookup_args (<["project" := project]> (initial_arguments pfn tfn)) ["project"]
  = Ok [project].
Proof. cbn [lookup_args]. by rewrite lookup_insert_eq. Qed.

Lemma lookup_project_thumbnail (pfn tfn project : value) :
  lookup_args (<["project" := project]> (initial_arguments pfn tfn))
    ["project"; "thumbnail_filename"] = Ok [project; tfn].
Proof.
  unfold initial_arguments. cbn [lookup_args].
  rewrite lookup_insert_eq. rewrite lookup_insert_ne by done. by rewrite lookup_insert_eq.
Qed.

(** The four iterations of the loop on the declared steps. *)
Lemma exec_validity_check (m : Method W) (pfn tfn : value) w :
  exec_step (new_step "Project Validity Check" ["project_filename"] m [] [] [])
    (initial_arguments pfn tfn) w
  = match m [pfn] w with
    | (Returns rv, w') =>
        mkExec W (mkStep W "Project Validity Check" ["project_filename"] m [] [] []
                    SUCCEEDED ∅)
               (initial_arguments pfn tfn) w' None
    | (Raises r frames, w') =>
        mkExec W (mkStep W "Project Validity Check" ["project_filename"] m [] [] []
                    STARTED ∅)
               (initial_arguments pfn tfn) w'
               (Some (mkFault (raise_stmt r) (here 250 :: frames)))
    end.
Proof.
  destruct (m [pfn] w) as [[rv|r frames] w'] eqn:Hcall.
  - by match goal with |- exec_step ?s ?a ?w0 = _ =>
      rewrite (exec_step_returned W s a w0 [pfn] rv w' (lookup_project_filename pfn tfn) Hcall) end.
  - by match goal with |- exec_step ?s ?a ?w0 = _ =>
      rewrite (exec_step_raised s a w0 [pfn] r frames w' (lookup_project_filename pfn tfn) Hcall) end.
Qed.

Lemma exec_opening_check (m : Method W) (pfn tfn : value) w :
  exec_step (new_step "Opening Check" ["project_filename"] m ["project"] [] ["project"])
    (initial_arguments pfn tfn) w
  = match m [pfn] w with
    | (Returns project, w') =>
        mkExec W (mkStep W "Opening Check" ["project_filename"] m ["project"] [] ["project"]
                    SUCCEEDED ∅)
               (<["project" := project]> (initial_arguments pfn tfn)) w' None
    | (Raises r frames, w') =>
        mkExec W (mkStep W "Opening Check" ["project_filename"] m ["project"] [] ["project"]
                    STARTED ∅)
               (initial_arguments pfn tfn) w'
               (Some (mkFault (raise_stmt r) (here 250 :: frames)))
    end.
Proof.
  destruct (m [pfn] w) as [[rv|r frames] w'] eqn:Hcall.
  - match goal with |- exec_step ?s ?a ?w0 = _ =>
      rewrite (exec_step_returned W s a w0 [pfn] rv w' (lookup_project_filename pfn tfn) Hcall) end.
    cbn [new_step return_names output_names public_returns outputs].
    rewrite return_map_single. cbn [copy_names]. by rewrite lookup_singleton_eq.
  - by match goal with |- exec_step ?s ?a ?w0 = _ =>
      rewrite (exec_step_raised s a w0 [pfn] r frames w' (lookup_project_filename pfn tfn) Hcall) end.
Qed.

Lemma exec_layer_check (m : Method W) (pfn tfn project : value) w :
  exec_step (new_step "Layer Validity Check" ["project"] m
               ["layers_summary"] ["layers_summary"] [])
    (<["project" := project]> (initial_arguments pfn tfn)) w
  = match m [project] w with
    | (Returns summary, w') =>
        mkExec W (mkStep W "Layer Validity Check" ["project"] m
                    ["layers_summary"] ["layers_summary"] [] SUCCEEDED
                    (<["layers_summary" := summary]> ∅))
               (<["project" := project]> (initial_arguments pfn tfn)) w' None
    | (Raises r frames, w') =>
        mkExec W (mkStep W "Layer Validity Check" ["project"] m
                    ["layers_summary"] ["layers_summary"] [] STARTED ∅)
               (<["project" := project]> (initial_arguments pfn tfn)) w'
               (Some (mkFault (raise_stmt r) (here 250 :: frames)))
    end.
Proof.
  destruct (m [project] w) as [[rv|r frames] w'] eqn:Hcall.
  - match goal with |- exec_step ?s ?a ?w0 = _ =>
      rewrite (exec_step_returned W s a w0 [project] rv w' (lookup_project pfn tfn project) Hcall) end.
    cbn [new_step return_names output_names public_returns outputs].
    rewrite return_map_single. cbn [copy_names]. by rewrite lookup_singleton_eq.
  - by match goal with |- exec_step ?s ?a ?w0 = _ =>
      rewrite (exec_step_raised s a w0 [project] r frames w' (lookup_project pfn tfn project) Hcall) end.
Qed.

Lemma exec_thumbnail (m : Method W) (pfn tfn project : value) w :
  exec_step (new_step "Generate Thumbnail Image" ["project"; "thumbnail_filename"] m
               [] [] [])
    (<["project" := project]> (initial_arguments pfn tfn)) w
  = match m [project; tfn] w with
    | (Returns rv, w') =>
        mkExec W (mkStep W "Generate Thumbnail Image" ["project"; "thumbnail_filename"] m
                    [] [] [] SUCCEEDED ∅)
               (<["project" := project]> (initial_arguments pfn tfn)) w' None
    | (Raises r frames, w') =>
        mkExec W (mkStep W "Generate Thumbnail Image" ["project"; "thumbnail_filename"] m
                    [] [] [] STARTED ∅)
               (<["project" := project]> (initial_arguments pfn tfn)) w'
               (Some (mkFault (raise_stmt r) (here 250 :: frames)))
    end.
Proof.
  destruct (m [project; tfn] w) as [[rv|r frames] w'] eqn:Hcall.
  - by match goal with |- exec_step ?s ?a ?w0 = _ =>
      rewrite (exec_step_returned W s a w0 [project; tfn] rv w' (lookup_project_thumbnail pfn tfn project) Hcall) end.
  - by match goal with |- exec_step ?s ?a ?w0 = _ =>
      rewrite (exec_step_raised s a w0 [project; tfn] r frames w' (lookup_project_thumbnail pfn tfn project) Hcall) end.
Qed.

(** X23. The flow of values through the declared steps when the four
    callables return: the validity check and the opening check are called
    with the project file name, the layer check with the project that the
    opening check returned, the thumbnail step with that project and the
    thumbnail file name, each in the world that the one before left.  The
    project is the only name added to the registry, the layer summary is
    the only recorded output, and the results of the first and the last
    callable are dropped. *)
Theorem declared_steps_data_flow (stage_value : Stage -> value)
    (io : Sinks W) (m1 m2 m3 m4 : Method W)
    (pfn tfn : value) (fn : option string) w
    (r1 : value) (w1 : W) (project : value) (w2 : W) (summary : value) (w3 : W)
    (r4 : value) (w4 : W) :
  m1 [pfn] w = (Returns r1, w1) ->
  m2 [pfn] w1 = (Returns project, w2) ->
  m3 [project] w2 = (Returns summary, w3) ->
  m4 [project; tfn] w3 = (Returns r4, w4) ->
  exists rep,
    process_projectfile stage_value io m1 m2 m3 m4 pfn tfn fn w = Ok rep /\
    pending (report_run rep) = None /\
    error (feedback (report_run rep)) = None /\
    run_world (report_run rep) = w4 /\
    run_arg_values (report_run rep) = <["project" := project]> (initial_arguments pfn tfn) /\
    map r_outputs (steps (feedback (report_run rep)))
    = [∅; ∅; <["layers_summary" := summary]> ∅; ∅].
Proof.
  intros H1 H2 H3 H4. rewrite process_projectfile_is. eexists. split; [reflexivity|].
  rewrite process_run.
  assert (Hloop :
    run_loop
      [ new_step "Project Validity Check" ["project_filename"] m1 [] [] [];
        new_step "Opening Check" ["project_filename"] m2 ["project"] [] ["project"];
        new_step "Layer Validity Check" ["project"] m3
          ["layers_summary"] ["layers_summary"] [];
        new_step "Generate Thumbnail Image" ["project"; "thumbnail_filename"] m4
          [] [] [] ]
      (initial_arguments pfn tfn) w
    = mkLoop W
        [ mkStep W "Project Validity Check" ["project_filename"] m1 [] [] [] SUCCEEDED ∅;
          mkStep W "Opening Check" ["project_filename"] m2 ["project"] [] ["project"]
            SUCCEEDED ∅;
          mkStep W "Layer Validity Check" ["project"] m3
            ["layers_summary"] ["layers_summary"] [] SUCCEEDED
            (<["layers_summary" := summary]> ∅);
          mkStep W "Generate Thumbnail Image" ["project"; "thumbnail_filename"] m4
            [] [] [] SUCCEEDED ∅ ]
        (<["project" := project]> (initial_arguments pfn tfn)) w4 None).
  { rewrite run_loop_step, exec_validity_check, H1.
    rewrite run_loop_step, exec_opening_check, H2.
    rewrite run_loop_step, exec_layer_check, H3.
    rewrite run_loop_step, exec_thumbnail, H4.
    reflexivity. }
  unfold run. rewrite Hloop. repeat split.
Qed.

Lemma declared_loop_faults (m1 m2 m3 m4 : Method W) (pfn tfn : value) w (f : Fault) :
  lp_fault
    (run_loop
       [ new_step "Project Validity Check" ["project_filename"] m1 [] [] [];
         new_step "Opening Check" ["project_filename"] m2 ["project"] [] ["project"];
         new_step "Layer Validity Check" ["project"] m3
           ["layers_summary"] ["layers_summary"] [];
         new_step "Generate Thumbnail Image" ["project"; "thumbnail_filename"] m4
           [] [] [] ]
       (initial_arguments pfn tfn) w) = Some f ->
  exists r frames, f = mkFault (raise_stmt r) (here 250 :: frames).
Proof.
  rewrite run_loop_step, exec_validity_check.
  destruct (m1 [pfn] w) as [[r1|r frames] w1]; [|intros [= <-]; by eexists _, _].
  rewrite run_loop_step, exec_opening_check.
  destruct (m2 [pfn] w1) as [[project|r frames] w2]; [|intros [= <-]; by eexists _, _].
  rewrite run_loop_step, exec_layer_check.
  destruct (m3 [project] w2) as [[summary|r frames] w3]; [|intros [= <-]; by eexists _, _].
  rewrite run_loop_step, exec_thumbnail.
  destruct (m4 [project; tfn] w3) as [[r4|r frames] w4];
    [discriminate|intros [= <-]; by eexists _, _].
Qed.

(** X24. In [process_projectfile] the lines of the loop themselves never
    raise, whatever the four callables do: every input name is in the
    registry when its step is reached and every output name and public
    return is bound, so the constructors accept the steps and an exception
    that is propagating when the loop is left was raised by a callable
    called on line 250.  An exception that leaves the function is that
    one, or one raised inside the [finally] clause: the error of opening
    the feedback file, or the [TypeError] of the encoder. *)
Theorem declared_steps_fail_only_in_callables (stage_value : Stage -> value)
    (io : Sinks W)
    (m1 m2 m3 m4 : Method W) (pfn tfn : value) (fn : option string) w :
  exists rep,
    process_projectfile stage_value io m1 m2 m3 m4 pfn tfn fn w = Ok rep /\
    (forall f, pending (report_run rep) = Some f ->
       exists frames, fault_tb f = here 250 :: frames) /\
    (forall e, raised rep = Some e ->
       (exists f frames,
          pending (report_run rep) = Some f /\ fault_exn f = e /\
          fault_tb f = here 250 :: frames)
       \/ sink_error io fn (run_world (report_run rep)) = Some e
       \/ (e = not_serializable /\
           json_dumps (feedback_value stage_value (feedback (report_run rep))) = None)).
Proof.
  rewrite process_projectfile_is. eexists. split; [reflexivity|].
  rewrite process_raised_cases, process_run. cbv zeta.
  assert (Hpending : forall f,
    pending (run [ new_step "Project Validity Check" ["project_filename"] m1 [] [] [];
                   new_step "Opening Check" ["project_filename"] m2 ["project"] []
                     ["project"];
                   new_step "Layer Validity Check" ["project"] m3
                     ["layers_summary"] ["layers_summary"] [];
                   new_step "Generate Thumbnail Image" ["project"; "thumbnail_filename"] m4
                     [] [] [] ]
              (initial_arguments pfn tfn) w) = Some f ->
    exists frames, fault_tb f = here 250 :: frames).
  { intros f. unfold run.
    match goal with |- context [lp_fault ?l] => destruct (lp_fault l) as [f'|] eqn:Hf end;
      [|discriminate].
    destruct (declared_loop_faults _ _ _ _ _ _ _ _ Hf) as (r & frames & ->).
    cbn [fault_exn]. destruct (raise_stmt r); cbn [pending]; [discriminate|].
    intros [= <-]. by exists frames. }
  split; [exact Hpending|]. intros e.
  destruct (sink_error _ _ _) as [e'|]; [intros [= <-]; right; by left|].
  destruct (json_dumps _) as [text|]; [|intros [= <-]; right; by right].
  destruct (pending _) as [f|] eqn:Hf; [|discriminate].
  intros [= <-]. left. destruct (Hpending f eq_refl) as [frames Hframes].
  by exists f, frames.
Qed.

(** The loop when the first three callables return and the last raises. *)
Lemma declared_loop_last_raises (m1 m2 m3 m4 : Method W) (pfn tfn : value) w
    (r1 : value) (w1 : W) (project : value) (w2 : W) (summary : value) (w3 : W)
    (r : Raised) (frames : list string) (w4 : W) :
  m1 [pfn] w = (Returns r1, w1) ->
  m2 [pfn] w1 = (Returns project, w2) ->
  m3 [project] w2 = (Returns summary, w3) ->
  m4 [project; tfn] w3 = (Raises r frames, w4) ->
  run_loop
    [ new_step "Project Validity Check" ["project_filename"] m1 [] [] [];
      new_step "Opening Check" ["project_filename"] m2 ["project"] [] ["project"];
      new_step "Layer Validity Check" ["project"] m3
        ["layers_summary"] ["layers_summary"] [];
      new_step "Generate Thumbnail Image" ["project"; "thumbnail_filename"] m4
        [] [] [] ]
    (initial_arguments pfn tfn) w
  = mkLoop W
      [ mkStep W "Project Validity Check" ["project_filename"] m1 [] [] [] SUCCEEDED ∅;
        mkStep W "Opening Check" ["project_filename"] m2 ["project"] [] ["project"]
          SUCCEEDED ∅;
        mkStep W "Layer Validity Check" ["project"] m3
          ["layers_summary"] ["layers_summary"] [] SUCCEEDED
          (<["layers_summary" := summary]> ∅);
        mkStep W "Generate Thumbnail Image" ["project"; "thumbnail_filename"] m4
          [] [] [] STARTED ∅ ]
      (<["project" := project]> (initial_arguments pfn tfn)) w4
      (Some (mkFault (raise_stmt r) (here 250 :: frames))).
Proof.
  intros H1 H2 H3 H4.
  rewrite run_loop_step, exec_validity_check, H1.
  rewrite run_loop_step, exec_opening_check, H2.
  rewrite run_loop_step, exec_layer_check, H3.
  rewrite run_loop_step, exec_thumbnail, H4.
  reflexivity.
Qed.

End Declared.

Section Qgis.

Variable W : Type.

Implicit Types (h : Host W) (w : W).

Lemma layer_check_returns_serializable h (name : string) :
  (forall w v layers, map_layers h w v = Some layers ->
                      Forall (fun l => serializable (l_filename l)) layers) ->
  returns_serializable
    (new_step name ["project"] (check_layer_validity_method h)
       ["layers_summary"] ["layers_summary"] []).
Proof.
  intros Hfiles args w rv w' rm n v. cbn [new_step method return_names output_names].
  unfold check_layer_validity_method.
  destruct args as [|project [|? ?]]; [discriminate| |discriminate].
  destruct (map_layers h w project) as [layers|] eqn:Hlayers; [|discriminate].
  intros [= Hcall <-]. rewrite return_map_single. intros [= <-].
  intros ->%list_elem_of_singleton. rewrite lookup_singleton_eq. intros [= <-].
  unfold check_layer_validity in Hcall.
  destruct (summarize_layers h layers) as [[ds [|]]|e] eqn:Hs; [discriminate| |discriminate].
  injection Hcall as <-. apply to_json_list.
  eapply summarize_layers_serializable; [|exact Hs]. by eapply Hfiles.
Qed.

Lemma no_outputs_returns_serializable (name : string) (arg_names : list string)
    (m : Method W) (return_names public_returns : list string) :
  returns_serializable (new_step name arg_names m return_names [] public_returns).
Proof. intros args w rv w' rm n v _ _ Hn. by apply elem_of_nil in Hn. Qed.

(** X25. With the layer check of this file, the encoder never raises in
    [process_projectfile], whatever the other three callables do and
    however the run ends, provided the stage values and the file names that
    [get_layer_filename] gives can be encoded as JSON: the layer summary is
    the only value the steps record.  The document is then written exactly
    once, unless the feedback file cannot be opened. *)
Theorem process_projectfile_writes_one_document h (stage_value : Stage -> value)
    (io : Sinks W)
    (m1 m2 m4 : Method W) (pfn tfn : value) (fn : option string) w :
  (forall st, serializable (stage_value st)) ->
  (forall w' v layers, map_layers h w' v = Some layers ->
                       Forall (fun l => serializable (l_filename l)) layers) ->
  exists rep text,
    process_projectfile stage_value io m1 m2 (check_layer_validity_method h) m4
      pfn tfn fn w = Ok rep /\
    json_dumps (feedback_value stage_value (feedback (report_run rep))) = Some text /\
    documents (events rep)
    = match sink_error io fn (run_world (report_run rep)) with
      | None => [text]
      | Some _ => []
      end /\
    raised rep
    = match sink_error io fn (run_world (report_run rep)) with
      | None => fault_exn <$> pending (report_run rep)
      | Some e => Some e
      end.
Proof.
  intros Hst Hfiles. rewrite process_projectfile_is.
  set (ss := [ _; _; _; _ ]).
  assert (Hser : serializable
            (feedback_value stage_value (feedback (run ss (initial_arguments pfn tfn) w)))).
  { apply run_feedback_serializable; [done|]. rewrite run_steps_loop.
    apply run_loop_outputs_serializable.
    - apply Forall_cons; split; [apply no_outputs_returns_serializable|].
      apply Forall_cons; split; [apply no_outputs_returns_serializable|].
      apply Forall_cons; split; [by apply layer_check_returns_serializable|].
      apply Forall_cons; split; [apply no_outputs_returns_serializable|constructor].
    - repeat (apply Forall_cons; split; [apply map_Forall_empty|]). constructor. }
  apply json_dumps_is_Some in Hser as [text Htext].
  eexists _, text. split; [reflexivity|].
  rewrite process_documents, process_raised_cases, process_run. cbv zeta.
  rewrite Htext. split; [done|]. by destruct (sink_error _ _ _).
Qed.

(** X26. A project file that does not exist, and a feedback file, if one is
    given, that can be opened: [process_projectfile] with its own callables
    stops at the first step without calling the other three, reports the
    not-found message with the name of the file under [error] and a trace
    that starts at the call of line 250 under [error_stack], records no
    output, produces its document and returns without raising. *)
Theorem missing_project_file_is_reported h (stage_value : Stage -> value)
    (global : option value) (pfn tfn : value) (fn : option string) w :
  (forall st, serializable (stage_value st)) ->
  is_path h pfn = true ->
  path_exists h w (py_str h pfn) = Ok false ->
  sink_error (host_sinks h) fn w = None ->
  exists rep text,
    process_projectfile_qgis h stage_value global pfn tfn fn w = Ok rep /\
    error (feedback (report_run rep))
    = Some ("Project file " ++ dquote ++ py_str h pfn ++ dquote ++ " does not exist")%string /\
    (exists frames, error_stack (feedback (report_run rep)) = Some (here 250 :: frames)) /\
    map r_outputs (steps (feedback (report_run rep))) = [∅; ∅; ∅; ∅] /\
    run_world (report_run rep) = w /\
    documents (events rep) = [text] /\
    raised rep = None.
Proof.
  intros Hst Hpath Hmissing Hopen. unfold process_projectfile_qgis.
  rewrite process_projectfile_is.
  set (ss := [ _; _; _; _ ]).
  assert (Hrun : run ss (initial_arguments pfn tfn) w
    = mkRun
        (mkFeedback
           (Some ("Project file " ++ dquote ++ py_str h pfn ++ dquote
                  ++ " does not exist")%string)
           (Some [here 250; frame_in "check_valid_project_file" 62])
           (map step_record
              [ mkStep W "Project Validity Check" ["project_filename"]
                  (check_valid_project_file_method h) [] [] [] STARTED ∅;
                new_step "Opening Check" ["project_filename"] (load_project_file_method h)
                  ["project"] [] ["project"];
                new_step "Layer Validity Check" ["project"] (check_layer_validity_method h)
                  ["layers_summary"] ["layers_summary"] [];
                new_step "Generate Thumbnail Image" ["project"; "thumbnail_filename"]
                  (generate_thumbnail_method h global) [] [] [] ]))
        None
        [ mkStep W "Project Validity Check" ["project_filename"]
            (check_valid_project_file_method h) [] [] [] STARTED ∅;
          new_step "Opening Check" ["project_filename"] (load_project_file_method h)
            ["project"] [] ["project"];
          new_step "Layer Validity Check" ["project"] (check_layer_validity_method h)
            ["layers_summary"] ["layers_summary"] [];
          new_step "Generate Thumbnail Image" ["project"; "thumbnail_filename"]
            (generate_thumbnail_method h global) [] [] [] ]
        (initial_arguments pfn tfn) w).
  { assert (Hcall : check_valid_project_file_method h [pfn] w
                    = (Raises (RaiseDomain ProjectFileNotFoundException
                                 [("project_filename", py_str h pfn)])
                              [frame_in "check_valid_project_file" 62], w)).
    { unfold check_valid_project_file_method. rewrite Hpath.
      unfold check_valid_project_file. by rewrite Hmissing. }
    assert (Hmsg : raise_stmt (RaiseDomain ProjectFileNotFoundException
                                 [("project_filename", py_str h pfn)])
                   = DomainExn (mkDomainError ProjectFileNotFoundException
                       ("Project file " ++ dquote ++ py_str h pfn ++ dquote
                        ++ " does not exist")%string
                       [("project_filename", py_str h pfn)])).
    { generalize (py_str h pfn). intros p. vm_compute. reflexivity. }
    unfold run, ss. rewrite run_loop_step, exec_validity_check, Hcall, Hmsg.
    reflexivity. }
  assert (Hser : serializable
            (feedback_value stage_value (feedback (run ss (initial_arguments pfn tfn) w)))).
  { apply feedback_value_serializable; [done|]. rewrite Hrun. cbn [feedback steps map].
    intros r k v Hr. repeat (apply elem_of_cons in Hr as [->|Hr]);
      [..|by apply elem_of_nil in Hr]; cbn; by rewrite lookup_empty. }
  apply json_dumps_is_Some in Hser as [text Htext].
  eexists _, text. split; [reflexivity|].
  rewrite process_run, process_events, process_raised.
  rewrite Hrun in Htext |- *. cbn [run_world feedback] in *.
  destruct (emit_documents W stage_value (host_sinks h) fn _ w _ Hopen Htext)
    as [Hdocs Hnone].
  rewrite Hdocs, Hnone. cbn. repeat split. by eexists.
Qed.

(** X27. A thumbnail that is not there after rendering, when the first three
    callables have returned and the feedback file, if one is given, can be
    opened.  When the module is imported, the [NameError] of line 204 is not
    caught: the feedback has no [error] key, the document is still
    produced, and the [NameError] leaves [process_projectfile].  When the
    file runs as a script, the thumbnail error is raised and caught: its
    message is reported under [error] and the function returns without
    raising. *)
Theorem missing_thumbnail_is_reported_by_the_script_only h (stage_value : Stage -> value)
    (io : Sinks W)
    (m1 m2 m3 : Method W) (pfn tfn : value) (fn : option string) w
    (r1 : value) (w1 : W) (project : value) (w2 : W) (summary : value) (w3 : W)
    (opened : bool) (content_error : string) :
  (forall st, serializable (stage_value st)) ->
  serializable summary ->
  m1 [pfn] w = (Returns r1, w1) ->
  m2 [pfn] w1 = (Returns project, w2) ->
  m3 [project] w2 = (Returns summary, w3) ->
  dom_content h w3 project = Some (opened, content_error) ->
  opened = false \/ content_error = EmptyString ->
  path_like h tfn = true ->
  path_exists h (render_thumbnail h w3 project (py_str h tfn)) (py_str h tfn) = Ok false ->
  sink_error io fn (render_thumbnail h w3 project (py_str h tfn)) = None ->
  (exists rep text,
     process_projectfile stage_value io m1 m2 m3 (generate_thumbnail_method h None)
       pfn tfn fn w = Ok rep /\
     error (feedback (report_run rep)) = None /\
     error_stack (feedback (report_run rep)) = None /\
     documents (events rep) = [text] /\
     raised rep = Some (OtherExn "NameError" "name 'project_filename' is not defined")) /\
  (forall global, exists rep text,
     process_projectfile stage_value io m1 m2 m3 (generate_thumbnail_method h (Some global))
       pfn tfn fn w = Ok rep /\
     error (feedback (report_run rep))
     = Some ("Failed to generate project thumbnail:" ++ newline
             ++ "File does not exist.")%string /\
     (exists frames, error_stack (feedback (report_run rep)) = Some (here 250 :: frames)) /\
     documents (events rep) = [text] /\
     raised rep = None).
Proof.
  intros Hst Hsum H1 H2 H3 Hdom Hok Hlike Hmissing Hopen.
  assert (Hskip : opened && nonempty content_error = false).
  { destruct Hok as [->| ->]; [done|]. by rewrite andb_false_r. }
  assert (Hcall : forall global,
    generate_thumbnail_method h global [project; tfn] w3
    = (raise_naming_project h global FailedThumbnailGenerationException
         [("reason", "File does not exist.")] 203,
       render_thumbnail h w3 project (py_str h tfn))).
  { intros global. unfold generate_thumbnail_method, generate_thumbnail.
    rewrite Hdom, Hskip, Hlike. cbn [negb]. by rewrite Hmissing. }
  assert (Himported :
    generate_thumbnail_method h None [project; tfn] w3
    = (Raises (RaiseOther "NameError" "name 'project_filename' is not defined")
              [frame_in "generate_thumbnail" 204],
       render_thumbnail h w3 project (py_str h tfn))).
  { by rewrite Hcall. }
  assert (Hscript : forall g,
    generate_thumbnail_method h (Some g) [project; tfn] w3
    = (Raises (RaiseDomain FailedThumbnailGenerationException
                 [("project_filename", py_str h g); ("reason", "File does not exist.")])
              [frame_in "generate_thumbnail" 203],
       render_thumbnail h w3 project (py_str h tfn))).
  { intros g. by rewrite Hcall. }
  assert (Hser : forall global,
    serializable
      (feedback_value stage_value
         (feedback (run
            [ new_step "Project Validity Check" ["project_filename"] m1 [] [] [];
              new_step "Opening Check" ["project_filename"] m2 ["project"] [] ["project"];
              new_step "Layer Validity Check" ["project"] m3
                ["layers_summary"] ["layers_summary"] [];
              new_step "Generate Thumbnail Image" ["project"; "thumbnail_filename"]
                (generate_thumbnail_method h global) [] [] [] ]
            (initial_arguments pfn tfn) w)))).
  { intros global. apply feedback_value_serializable; [done|].
    rewrite run_feedback_steps.
    destruct global as [g|];
      [rewrite (declared_loop_last_raises W m1 m2 m3 _ pfn tfn w r1 w1 project w2 summary w3
                  _ _ _ H1 H2 H3 (Hscript g))
      |rewrite (declared_loop_last_raises W m1 m2 m3 _ pfn tfn w r1 w1 project w2 summary w3
                  _ _ _ H1 H2 H3 Himported)];
      cbn [lp_steps map]; intros r k v Hr;
      repeat (apply elem_of_cons in Hr as [->|Hr]); try (by apply elem_of_nil in Hr);
      cbn [r_outputs step_record outputs]; rewrite ?lookup_empty; try discriminate;
      (intros [[_ <-]|[_ Hk]]%lookup_insert_Some; [done|by rewrite lookup_empty in Hk]). }
  split.
  - pose proof (Hser None) as Hj. apply json_dumps_is_Some in Hj as [j Hj].
    rewrite process_projectfile_is. eexists _, j. split; [reflexivity|].
    rewrite process_documents, process_raised_cases, process_run. cbv zeta. rewrite Hj.
    unfold run.
    rewrite (declared_loop_last_raises W m1 m2 m3 _ pfn tfn w r1 w1 project w2 summary w3
               _ _ _ H1 H2 H3 Himported).
    cbn [lp_fault lp_world lp_steps lp_arg_values fault_exn raise_stmt run_world feedback
         pending error error_stack].
    rewrite Hopen. by cbn.
  - intros global. pose proof (Hser (Some global)) as Hj.
    apply json_dumps_is_Some in Hj as [j Hj].
    rewrite process_projectfile_is. eexists _, j. split; [reflexivity|].
    rewrite process_documents, process_raised_cases, process_run. cbv zeta. rewrite Hj.
    unfold run.
    rewrite (declared_loop_last_raises W m1 m2 m3 _ pfn tfn w r1 w1 project w2 summary w3
               _ _ _ H1 H2 H3 (Hscript global)).
    cbn [lp_fault fault_exn].
    assert (Hmsg : raise_stmt (RaiseDomain FailedThumbnailGenerationException
                                 [("project_filename", py_str h global);
                                  ("reason", "File does not exist.")])
                   = DomainExn (mkDomainError FailedThumbnailGenerationException
                       ("Failed to generate project thumbnail:" ++ newline
                        ++ "File does not exist.")%string
                       [("project_filename", py_str h global);
                        ("reason", "File does not exist.")])).
    { generalize (py_str h global). intros p. vm_compute. reflexivity. }
    rewrite Hmsg.
    cbn [lp_world lp_steps lp_arg_values fault_tb run_world feedback pending error
         error_stack str_exn error_message].
    rewrite Hopen. cbn. repeat split. by eexists.
Qed.

End Qgis.

(** * Determinism of the callables of the file *)

Section QgisDeterminism.

Variable W : Type.
Variable R : W -> W -> Prop.

Implicit Types (h : Host W) (w : W).






End QgisDeterminism.


(** * The properties of the executor and of the callables on sample runs *)

(** The file names of the sample layers can be encoded. *)
Lemma sample_layers_filenames (content : string) (writes : bool) (w : Disk) (v : value)
    (layers : list Layer) :
  map_layers (sample_host content writes) w v = Some layers ->
  Forall (fun l => serializable (l_filename l)) layers.
Proof.
  cbn [map_layers sample_host]. unfold sample_layers.
  destruct v as [| | | | | | |k]; try discriminate.
  do 7 (destruct k as [|k]; [discriminate|]).
  destruct k as [|k]; [intros [= <-]; repeat constructor; by eexists|].
  destruct k as [|k]; [|discriminate].
  intros [= <-]; repeat constructor; by eexists.
Qed.

Lemma stage_as_int_serializable (st : Stage) : serializable (stage_as_int st).
Proof. destruct st; by eexists. Qed.

(** The layer check is reached without a project in the registry. *)
Lemma X1_witness :
  let before := run_loop [validity_check] sample_args tt in
  let r := run ([validity_check] ++ layer_check :: [failing_open])%list sample_args tt in
  pending r = Some (mkFault (OtherExn "KeyError" "project") [here 249]) /\
  error (feedback r) = None /\
  error_stack (feedback r) = None /\
  run_world r = lp_world before /\
  run_arg_values r = lp_arg_values before /\
  r_outputs <$> steps (feedback r) !! length [validity_check] = Some (outputs layer_check).
Proof.
  apply (missing_input_is_not_caught unit [validity_check] layer_check [failing_open]
           sample_args tt 0%nat "project").
  - vm_compute. by repeat split.
  - reflexivity.
  - vm_compute. reflexivity.
  - intros j m Hj. lia.
Defined.

Lemma X2_witness :
  let before := run_loop [validity_check] sample_args tt in
  let r := run ([validity_check] ++ scalar_step :: [layer_check])%list sample_args tt in
  (exists f, pending r = Some f /\ fault_tb f = [here 256] /\
             exists msg, fault_exn f = OtherExn "TypeError" msg) /\
  error (feedback r) = None /\
  run_world r = tt /\
  run_arg_values r = lp_arg_values before /\
  r_outputs <$> steps (feedback r) !! length [validity_check] = Some (outputs scalar_step).
Proof.
  apply (non_iterable_result_is_not_caught unit [validity_check] scalar_step [layer_check]
           sample_args tt [] (VInt 5) tt).
  - vm_compute. by repeat split.
  - reflexivity.
  - reflexivity.
  - vm_compute. lia.
  - reflexivity.
Defined.

Lemma X3_witness :
  let before := run_loop [validity_check] sample_args tt in
  let r := run ([validity_check] ++ short_step :: [layer_check])%list sample_args tt in
  pending r = Some (mkFault (OtherExn "KeyError" "b") [here 260]) /\
  error (feedback r) = None /\
  run_arg_values r = lp_arg_values before /\
  exists outs,
    r_outputs <$> steps (feedback r) !! length [validity_check] = Some outs /\
    forall X, outs !! X = if bool_decide (X ∈ ["a"])
                          then (<["a" := VInt 1]> ∅ : gmap string value) !! X
                          else outputs short_step !! X.
Proof.
  apply (unbound_output_leaves_partial_outputs unit [validity_check] short_step [layer_check]
           sample_args tt [] (VTuple [VInt 1]) tt (<["a" := VInt 1]> ∅) ["a"] "b" []).
  - vm_compute. by repeat split.
  - reflexivity.
  - reflexivity.
  - vm_compute. reflexivity.
  - reflexivity.
  - intros x ->%list_elem_of_singleton. vm_compute. by eexists.
  - vm_compute. reflexivity.
Defined.

Lemma X5_witness :
  let before := run_loop [validity_check] sample_args tt in
  let x := exec_step failing_open (lp_arg_values before) (lp_world before) in
  let r := run ([validity_check] ++ failing_open :: [layer_check])%list sample_args tt in
  run_world r = ex_world x /\
  run_arg_values r = ex_arg_values x /\
  drop (S (length [validity_check])) (run_steps r) = [layer_check] /\
  drop (S (length [validity_check])) (steps (feedback r)) = map step_record [layer_check].
Proof.
  apply (first_failure_ends_the_loop unit [validity_check] failing_open [layer_check]
           sample_args tt
           (mkFault
              (raise_stmt (RaiseDomain ProjectFileNotFoundException
                             [("project_filename", "/x.qgs")]))
              [here 250; "  File callable.py, line 1, in callable"])).
  - vm_compute. by repeat split.
  - vm_compute. reflexivity.
Defined.

Lemma X6_witness :
  let x := exec_step between sample_args tt in
  ex_fault x = None /\
  ex_world x = tt /\
  (forall X, outputs (ex_step x) !! X
             = if bool_decide (X ∈ output_names between)
               then (<["count" := VInt 5]> ∅ : gmap string value) !! X
               else outputs between !! X) /\
  (forall X, ex_arg_values x !! X
             = if bool_decide (X ∈ public_returns between)
               then (<["count" := VInt 5]> ∅ : gmap string value) !! X
               else sample_args !! X).
Proof.
  apply (returned_values_are_bound unit between sample_args tt [] (VInt 5) tt
           (<["count" := VInt 5]> ∅)).
  - reflexivity.
  - reflexivity.
  - vm_compute. reflexivity.
  - intros n [->%list_elem_of_singleton | ->%list_elem_of_singleton];
      vm_compute; by eexists.
Defined.

Lemma X9_witness :
  exists rest,
    ("Project file " ++ dquote ++ "/data/notes.txt" ++ dquote
     ++ " has unknown file extension " ++ dquote ++ ".txt" ++ dquote)%string
    = ("Project file " ++ dquote ++ "/data/notes.txt" ++ dquote ++ rest)%string.
Proof.
  apply (message_names_the_project_file InvalidFileExtensionException
           [("project_filename", "/data/notes.txt"); ("extension", ".txt")]
           "/data/notes.txt").
  - discriminate.
  - reflexivity.
  - vm_compute. reflexivity.
Defined.

(** A [.qgs] file that exists and whose text the parser rejects. *)
Lemma X11_witness :
  let h := sample_host "<qgis" true in
  let w : Disk := ["/data/project.qgs"] in
  let p := "/data/project.qgs" in
  let r := RaiseDomain InvalidXmlFileException
             [("project_filename", p);
              ("xml_error", "unclosed token: line 1, column 0")] in
  (exists cls msg, path_exists h w p = Err (cls, msg) /\ r = RaiseOther cls msg)
  \/ (path_exists h w p = Ok false /\
      exists fields,
        r = RaiseDomain ProjectFileNotFoundException fields /\
        py_format FText (message ProjectFileNotFoundException) fields
        = Some ("Project file " ++ dquote ++ p ++ dquote ++ " does not exist")%string)
  \/ (path_exists h w p = Ok true /\ path_suffix h p = ".qgs" /\
      exists text err fields,
        open_error h w p = None /\
        read_text h w p = Ok text /\ xml_error h text = Some err /\
        r = RaiseDomain InvalidXmlFileException fields /\
        py_format FText (message InvalidXmlFileException) fields
        = Some ("Project file " ++ dquote ++ p ++ dquote
                ++ " is an invalid XML document:" ++ newline ++ err)%string)
  \/ (path_exists h w p = Ok true /\
      path_suffix h p <> ".qgs" /\ path_suffix h p <> ".qgz" /\
      exists fields,
        r = RaiseDomain InvalidFileExtensionException fields /\
        py_format FText (message InvalidFileExtensionException) fields
        = Some ("Project file " ++ dquote ++ p ++ dquote ++ " has unknown file extension "
                ++ dquote ++ path_suffix h p ++ dquote)%string)
  \/ (path_exists h w p = Ok true /\ path_suffix h p = ".qgs" /\
      exists cls msg,
        r = RaiseOther cls msg /\
        (open_error h w p = Some (cls, msg) \/
         (open_error h w p = None /\ read_text h w p = Err (cls, msg)))).
Proof.
  apply (check_valid_project_file_errors Disk (sample_host "<qgis" true)
           ["/data/project.qgs"] "/data/project.qgs"
           (RaiseDomain InvalidXmlFileException
              [("project_filename", "/data/project.qgs");
               ("xml_error", "unclosed token: line 1, column 0")])
           [frame_in "check_valid_project_file" 69]).
  vm_compute. reflexivity.
Defined.

(** A project file that [exists()] is not allowed to look at. *)
Example locked_project_file :
  check_valid_project_file (sample_host "<qgis/>" true) [] "/locked/project.qgs"
  = Raises (RaiseOther "PermissionError" "[Errno 13] Permission denied")
           [frame_in "check_valid_project_file" 61].
Proof. reflexivity. Qed.

(** A [.qgz] file on two hosts that disagree on its content. *)
Lemma X12_witness :
  check_valid_project_file (sample_host "<qgis" true) ["/data/project.qgz"] "/data/project.qgz"
  = check_valid_project_file (sample_host "<qgis/>" true) ["/data/project.qgz"]
      "/data/project.qgz".
Proof.
  apply (check_valid_project_file_ignores_content Disk (sample_host "<qgis/>" true)
           (sample_host "<qgis" true) ["/data/project.qgz"] "/data/project.qgz").
  - reflexivity.
  - reflexivity.
  - vm_compute. discriminate.
Defined.

Lemma X15_witness :
  let h := sample_host "<qgis/>" true in
  (exists cls msg frames,
     check_layer_validity h ([roads] ++ orphan :: [parcels])
     = Raises (RaiseOther cls msg) frames) /\
  (Forall (fun l' => exists d, summarize_layer h l' = Ok d) [roads] ->
   check_layer_validity h ([roads] ++ orphan :: [parcels])
   = Raises (RaiseOther "AttributeError" "'NoneType' object has no attribute 'uri'")
            [frame_in "check_layer_validity" 104]).
Proof.
  apply (layer_without_provider_raises Disk (sample_host "<qgis/>" true)
           [roads] orphan [parcels]).
  reflexivity.
Defined.

Lemma X16_witness :
  check_layer_validity (sample_host "<qgis/>" true) ([roads] ++ rivers :: [parcels])
  = Raises (RaiseOther "ValueError" "invalid literal for int() with base 10")
           [frame_in "check_layer_validity" 138].
Proof.
  apply (unparsable_port_raises Disk (sample_host "<qgis/>" true) [roads] rivers [parcels]
           (mkProvider "host=db port=54x2" true EmptyString "no route" "gis" "db" "54x2")).
  - reflexivity.
  - reflexivity.
  - right. reflexivity.
  - discriminate.
  - reflexivity.
  - repeat constructor. by eexists.
Defined.

(** A service and a local host are both set: the host message wins. *)
Lemma X17_witness :
  provider_error_summary (sample_host "<qgis/>" true) parcels_provider
  = Ok ("Unable to connect to host " ++ dquote ++ "localhost" ++ dquote)%string.
Proof.
  apply (provider_error_summary_cases Disk (sample_host "<qgis/>" true) parcels_provider
           (Some 5432)).
  reflexivity.
Defined.

Lemma X18_witness :
  serializable (VList [layer_data roads "/data/roads.gpkg" VNone VNone]).
Proof.
  apply (layers_summary_is_serializable Disk (sample_host "<qgis/>" true) [roads]).
  - repeat constructor. by eexists.
  - reflexivity.
Defined.

Lemma X19_witness :
  let h := sample_host "<qgis/>" true in
  let layers := [roads; parcels] in
  let k := InvalidLayersException in
  let fields := [("layers_summary", "[...]")] in
  k = InvalidLayersException /\
  (exists l, l ∈ layers /\ l_is_valid l = false) /\
  map fst fields = ["layers_summary"] /\
  py_format FText (message k) fields = None.
Proof.
  apply (invalid_layers_message_lacks_its_field Disk (sample_host "<qgis/>" true)
           [roads; parcels] InvalidLayersException [("layers_summary", "[...]")]
           [frame_in "check_layer_validity" 151]).
  vm_compute. reflexivity.
Defined.

(** The opening check and the layer check of the file on the sample host:
    the project file is there, the opening check returns the project and
    the layer check records its summary. *)
Lemma X22_witness :
  let h := sample_host "<qgis/>" true in
  let w : Disk := ["/data/project.qgs"] in
  let ss := [ new_step "Opening Check" ["project_filename"] (load_project_file_method h)
                ["project"] [] ["project"];
              new_step "Layer Validity Check" ["project"] (check_layer_validity_method h)
                ["layers_summary"] ["layers_summary"] [] ] in
  exists text,
    documents (events (process stage_as_int (host_sinks h) ss sample_args
                         (Some "/tmp/feedback.json") w)) = [text] /\
    json_dumps (feedback_value stage_as_int (feedback (run ss sample_args w))) = Some text.
Proof.
  apply (serializable_returns_give_one_document Disk stage_as_int
           (host_sinks (sample_host "<qgis/>" true))
           [ new_step "Opening Check" ["project_filename"]
               (load_project_file_method (sample_host "<qgis/>" true))
               ["project"] [] ["project"];
             new_step "Layer Validity Check" ["project"]
               (check_layer_validity_method (sample_host "<qgis/>" true))
               ["layers_summary"] ["layers_summary"] [] ]
           sample_args (Some "/tmp/feedback.json") ["/data/project.qgs"]).
  - exact stage_as_int_serializable.
  - apply Forall_cons; split; [apply no_outputs_returns_serializable|].
    apply Forall_cons; split; [|constructor].
    apply layer_check_returns_serializable. intros w v layers.
    apply sample_layers_filenames.
  - apply (bool_decide_unpack _). vm_compute. exact I.
  - vm_compute. reflexivity.
Defined.

(** The outputs that the run of this witness records. *)
Example recorded_summary :
  let h := sample_host "<qgis/>" true in
  map r_outputs
    (steps (feedback
       (run [ new_step "Opening Check" ["project_filename"] (load_project_file_method h)
                ["project"] [] ["project"];
              new_step "Layer Validity Check" ["project"] (check_layer_validity_method h)
                ["layers_summary"] ["layers_summary"] [] ]
            sample_args ["/data/project.qgs"])))
  = [∅; <["layers_summary" := VList [layer_data roads "/data/roads.gpkg" VNone VNone]]> ∅].
Proof. vm_compute. reflexivity. Qed.

(** The four callables of the file on the sample host, with a project file
    that exists and a rendering job that writes the thumbnail. *)
Lemma X23_witness :
  let h := sample_host "<qgis/>" true in
  let w : Disk := ["/data/project.qgs"] in
  exists rep,
    process_projectfile stage_as_int (host_sinks h)
      (check_valid_project_file_method h) (load_project_file_method h)
      (check_layer_validity_method h) (generate_thumbnail_method h None)
      (VObject 1) (VObject 2) None w = Ok rep /\
    pending (report_run rep) = None /\
    error (feedback (report_run rep)) = None /\
    run_world (report_run rep) = ("/tmp/thumbnail.png" :: w)%list /\
    run_arg_values (report_run rep)
    = <["project" := VObject 7]> (initial_arguments (VObject 1) (VObject 2)) /\
    map r_outputs (steps (feedback (report_run rep)))
    = [∅; ∅;
       <["layers_summary" := VList [layer_data roads "/data/roads.gpkg" VNone VNone]]> ∅;
       ∅].
Proof.
  apply (declared_steps_data_flow Disk stage_as_int
           (host_sinks (sample_host "<qgis/>" true))
           (check_valid_project_file_method (sample_host "<qgis/>" true))
           (load_project_file_method (sample_host "<qgis/>" true))
           (check_layer_validity_method (sample_host "<qgis/>" true))
           (generate_thumbnail_method (sample_host "<qgis/>" true) None)
           (VObject 1) (VObject 2) None ["/data/project.qgs"]
           VNone ["/data/project.qgs"]
           (VObject 7) ["/data/project.qgs"]
           (VList [layer_data roads "/data/roads.gpkg" VNone VNone]) ["/data/project.qgs"]
           VNone ["/tmp/thumbnail.png"; "/data/project.qgs"]).
  - reflexivity.
  - reflexivity.
  - reflexivity.
  - reflexivity.
Defined.

(** The feedback file is in a directory that cannot be written: the
    document can be encoded, but it is not written. *)
Lemma X25_witness :
  let h := sample_host "<qgis/>" true in
  exists rep text,
    process_projectfile stage_as_int (host_sinks h)
      (returning VNone) (returning (VObject 7))
      (check_layer_validity_method h) (generate_thumbnail_method h None)
      (VObject 1) (VObject 2) (Some "/locked/feedback.json") [] = Ok rep /\
    json_dumps (feedback_value stage_as_int (feedback (report_run rep))) = Some text /\
    documents (events rep)
    = match sink_error (host_sinks h) (Some "/locked/feedback.json")
              (run_world (report_run rep)) with
      | None => [text]
      | Some _ => []
      end /\
    raised rep
    = match sink_error (host_sinks h) (Some "/locked/feedback.json")
              (run_world (report_run rep)) with
      | None => fault_exn <$> pending (report_run rep)
      | Some e => Some e
      end.
Proof.
  apply (process_projectfile_writes_one_document Disk (sample_host "<qgis/>" true)
           stage_as_int (host_sinks (sample_host "<qgis/>" true))
           (returning VNone) (returning (VObject 7))
           (generate_thumbnail_method (sample_host "<qgis/>" true) None)
           (VObject 1) (VObject 2) (Some "/locked/feedback.json") []).
  - exact stage_as_int_serializable.
  - intros w' v layers. apply sample_layers_filenames.
Defined.

(** What this run writes and raises. *)
Example locked_feedback_file :
  let h := sample_host "<qgis/>" true in
  exists rep,
    process_projectfile stage_as_int (host_sinks h)
      (returning VNone) (returning (VObject 7))
      (check_layer_validity_method h) (generate_thumbnail_method h None)
      (VObject 1) (VObject 2) (Some "/locked/feedback.json") [] = Ok rep /\
    events rep = [] /\
    raised rep = Some (OtherExn "PermissionError" "[Errno 13] Permission denied").
Proof. eexists. split; [reflexivity|]. vm_compute. by split. Qed.

(** The project file of the sample is not on the disk. *)
Lemma X26_witness :
  let h := sample_host "<qgis/>" true in
  exists rep text,
    process_projectfile_qgis h stage_as_int None (VObject 1) (VObject 2)
      (Some "/tmp/feedback.json") [] = Ok rep /\
    error (feedback (report_run rep))
    = Some ("Project file " ++ dquote ++ py_str h (VObject 1) ++ dquote
            ++ " does not exist")%string /\
    (exists frames, error_stack (feedback (report_run rep)) = Some (here 250 :: frames)) /\
    map r_outputs (steps (feedback (report_run rep))) = [∅; ∅; ∅; ∅] /\
    run_world (report_run rep) = [] /\
    documents (events rep) = [text] /\
    raised rep = None.
Proof.
  apply (missing_project_file_is_reported Disk (sample_host "<qgis/>" true) stage_as_int
           None (VObject 1) (VObject 2) (Some "/tmp/feedback.json") []).
  - exact stage_as_int_serializable.
  - reflexivity.
  - reflexivity.
  - reflexivity.
Defined.

(** The four callables of the file on the sample host, with a project file
    that exists and a rendering job that writes nothing. *)
Lemma X27_witness :
  let h := sample_host "<qgis/>" false in
  let w : Disk := ["/data/project.qgs"] in
  (exists rep text,
     process_projectfile stage_as_int (host_sinks h)
       (check_valid_project_file_method h) (load_project_file_method h)
       (check_layer_validity_method h) (generate_thumbnail_method h None)
       (VObject 1) (VObject 2) None w = Ok rep /\
     error (feedback (report_run rep)) = None /\
     error_stack (feedback (report_run rep)) = None /\
     documents (events rep) = [text] /\
     raised rep = Some (OtherExn "NameError" "name 'project_filename' is not defined")) /\
  (forall global, exists rep text,
     process_projectfile stage_as_int (host_sinks h)
       (check_valid_project_file_method h) (load_project_file_method h)
       (check_layer_validity_method h) (generate_thumbnail_method h (Some global))
       (VObject 1) (VObject 2) None w = Ok rep /\
     error (feedback (report_run rep))
     = Some ("Failed to generate project thumbnail:" ++ newline
             ++ "File does not exist.")%string /\
     (exists frames, error_stack (feedback (report_run rep)) = Some (here 250 :: frames)) /\
     documents (events rep) = [text] /\
     raised rep = None).
Proof.
  apply (missing_thumbnail_is_reported_by_the_script_only Disk
           (sample_host "<qgis/>" false) stage_as_int
           (host_sinks (sample_host "<qgis/>" false))
           (check_valid_project_file_method (sample_host "<qgis/>" false))
           (load_project_file_method (sample_host "<qgis/>" false))
           (check_layer_validity_method (sample_host "<qgis/>" false))
           (VObject 1) (VObject 2) None ["/data/project.qgs"]
           VNone ["/data/project.qgs"]
           (VObject 7) ["/data/project.qgs"]
           (VList [layer_data roads "/data/roads.gpkg" VNone VNone]) ["/data/project.qgs"]
           true EmptyString).
  - exact stage_as_int_serializable.
  - by eexists.
  - reflexivity.
  - reflexivity.
  - reflexivity.
  - reflexivity.
  - right. reflexivity.
  - reflexivity.
  - reflexivity.
  - reflexivity.
Defined.

Lemma X28_witness :
  let h := sample_host "<qgis/>" true in
  let path := "/tmp/feedback.json" in
  let w : Disk := ["/data/project.qgs"] in
  let to_file := process stage_as_int (host_sinks h) (qgis_steps h None) sample_args
                   (Some path) w in
  let to_stdout := process stage_as_int (host_sinks h) (qgis_steps h None) sample_args
                     None w in
  let r := run (qgis_steps h None) sample_args w in
  report_run to_file = report_run to_stdout /\
  (forall line, Printed line ∉ events to_file) /\
  (forall p, Opened p ∉ events to_stdout) /\
  (sink_error (host_sinks h) (Some path) (run_world r) = None ->
   sink_error (host_sinks h) None (run_world r) = None ->
   raised to_file = raised to_stdout /\
   documents (events to_file) = documents (events to_stdout) /\
   match json_dumps (feedback_value stage_as_int (feedback r)) with
   | Some text =>
       events to_file = [Opened path; Dumped (ToFile path) text] /\
       events to_stdout = [Printed "Feedback:"; Dumped ToStdout text]
   | None =>
       events to_file
       = [Opened path;
          Truncated path (fst (stream 0 (feedback_value stage_as_int (feedback r))))] /\
       events to_stdout = [Printed "Feedback:"]
   end) /\
  (forall e, sink_error (host_sinks h) (Some path) (run_world r) = Some e ->
     documents (events to_file) = [] /\ raised to_file = Some e).
Proof.
  apply (sink_does_not_change_the_run Disk stage_as_int
           (host_sinks (sample_host "<qgis/>" true))
           (qgis_steps (sample_host "<qgis/>" true) None) sample_args
           "/tmp/feedback.json" ["/data/project.qgs"]).
  discriminate.
Defined.


(** The document of these two runs. *)
Example same_files_document :
  let h := sample_host "<qgis/>" true in
  documents (events (process stage_as_int (host_sinks h) (qgis_steps h None)
                       sample_args (Some "/tmp/feedback.json")
                       ["/data/notes.txt"; "/data/project.qgs"]))
  = [ "{" ++ newline
      ++ "  " ++ quote "steps" ++ ": [" ++ newline
      ++ "    {" ++ newline
      ++ "      " ++ quote "name" ++ ": " ++ quote "Project Validity Check" ++ "," ++ newline
      ++ "      " ++ quote "outputs" ++ ": {}," ++ newline
      ++ "      " ++ quote "stage" ++ ": 2" ++ newline
      ++ "    }," ++ newline
      ++ "    {" ++ newline
      ++ "      " ++ quote "name" ++ ": " ++ quote "Opening Check" ++ "," ++ newline
      ++ "      " ++ quote "outputs" ++ ": {}," ++ newline
      ++ "      " ++ quote "stage" ++ ": 2" ++ newline
      ++ "    }," ++ newline
      ++ "    {" ++ newline
      ++ "      " ++ quote "name" ++ ": " ++ quote "Layer Validity Check" ++ "," ++ newline
      ++ "      " ++ quote "outputs" ++ ": {" ++ newline
      ++ "        " ++ quote "layers_summary" ++ ": [" ++ newline
      ++ "          {" ++ newline
      ++ "            " ++ quote "datasource" ++ ": " ++ quote "/data/roads.gpkg" ++ ","
      ++ newline
      ++ "            " ++ quote "error_message" ++ ": " ++ quote EmptyString ++ "," ++ newline
      ++ "            " ++ quote "error_summary" ++ ": " ++ quote EmptyString ++ "," ++ newline
      ++ "            " ++ quote "filename" ++ ": " ++ quote "roads.gpkg" ++ "," ++ newline
      ++ "            " ++ quote "id" ++ ": " ++ quote "roads" ++ "," ++ newline
      ++ "            " ++ quote "is_valid" ++ ": true," ++ newline
      ++ "            " ++ quote "name" ++ ": " ++ quote "roads" ++ "," ++ newline
      ++ "            " ++ quote "provider_error_message" ++ ": null," ++ newline
      ++ "            " ++ quote "provider_error_summary" ++ ": null" ++ newline
      ++ "          }" ++ newline
      ++ "        ]" ++ newline
      ++ "      }," ++ newline
      ++ "      " ++ quote "stage" ++ ": 2" ++ newline
      ++ "    }," ++ newline
      ++ "    {" ++ newline
      ++ "      " ++ quote "name" ++ ": " ++ quote "Generate Thumbnail Image" ++ "," ++ newline
      ++ "      " ++ quote "outputs" ++ ": {}," ++ newline
      ++ "      " ++ quote "stage" ++ ": 2" ++ newline
      ++ "    }" ++ newline
      ++ "  ]" ++ newline
      ++ "}" ]%string.
Proof. vm_compute. reflexivity. Qed.
